(** * Invoicing API: a shallow embedding of [app/routes/invoices.py]

    The four endpoints of the invoice router ([create_invoice],
    [list_invoices], [get_invoice], [delete_invoice]) are embedded as
    functions over an explicit database state.  The schema is the one of
    migration [002_create_invoicing_tables]: four relations, every primary key
    [INTEGER PRIMARY KEY AUTOINCREMENT], [invoices.invoice_no] [UNIQUE], every
    column [NOT NULL].

    Conventions.
    - Python [float] is IEEE-754 binary64: [spec_float] with [prec = 53] and
      [emax = 1024], rounding to nearest even.
    - Python [int] is [Z].  An INTEGER column of SQLite holds a signed 64-bit
      integer: a row of the store carries, for each of its integer columns,
      the fact that the value is in that range, and binding a wider [int] to
      a statement raises [OverflowError], as the [sqlite3] driver does.
    - Python [str] is [string]; [Optional[str]] is [option string].
    - A table is the list of its rows in insertion order.
    - [date.fromisoformat] is fixed on texts of the form [YYYY-MM-DD]; what it
      does on every other text, and the wording of its [ValueError], differ
      between Python versions and are parameters of the development. *)

From Stdlib Require Import ZArith List String Ascii Bool Lia.
From Stdlib Require Import Sorting.Sorted Sorting.Permutation.
From Stdlib Require Import DecimalString DecimalZ DecimalN.
From Stdlib Require Import Floats.SpecFloat.
From Stdlib Require Import Logic.Eqdep_dec.
Import ListNotations.

Local Open Scope string_scope.
Local Open Scope list_scope.
Local Open Scope Z_scope.

(** ** Python floats *)

Module Float.

Definition prec : Z := 53.
Definition emax : Z := 1024.

Definition float := spec_float.

Definition add : float -> float -> float := SFadd prec emax.
Definition mul : float -> float -> float := SFmul prec emax.

(** The literal [0.0]. *)
Definition zero : float := S754_zero false.

(** The nearest binary64 value of an integer, ties to even; an infinity
    from [2^1024 - 2^970] on. *)
Definition of_int (n : Z) : float := binary_normalize prec emax n 0 false.

(** [x * n] for a [float] and an [int]: the [int] operand is converted
    first, and Python raises [OverflowError] (here [None]) where the nearest
    binary64 value would be an infinity. *)
Definition mul_int (x : float) (n : Z) : option float :=
  match of_int n with
  | S754_infinity _ => None
  | y => Some (mul x y)
  end.

Definition is_nan (x : float) : bool :=
  match x with S754_nan => true | _ => false end.

(** The value a REAL column gives back for a stored float: SQLite keeps a
    whole number in a REAL column as an integer, which has no negative
    zero. *)
Definition real_column (x : float) : float :=
  match x with S754_zero _ => S754_zero false | _ => x end.

End Float.

Abbreviation float := Float.float.

(** ** String formatting *)

(** Decimal digits of a non-negative integer, as [str(n)] prints them. *)
Definition decimal (n : Z) : string :=
  NilZero.string_of_uint (N.to_uint (Z.to_N n)).

Fixpoint zeros (n : nat) : string :=
  match n with
  | O => EmptyString
  | S k => String "0" (zeros k)
  end.

(** [s.zfill(w)] on a string of digits. *)
Definition zfill (w : nat) (s : string) : string :=
  (zeros (w - String.length s) ++ s)%string.

(** [f"{n:05d}"]: minimum width five, zero padded, the sign (if any) first
    and counted in the width. *)
Definition format_05d (n : Z) : string :=
  if n <? 0 then ("-" ++ zfill 4 (decimal (- n)))%string
  else zfill 5 (decimal n).

(** [str(n)] for an [int]. *)
Definition str_int (n : Z) : string :=
  if n <? 0 then ("-" ++ decimal (- n))%string else decimal n.

(** Truth value of a Python [str]. *)
Definition truthy (s : string) : bool :=
  match s with EmptyString => false | _ => true end.

(** ** Dates *)

Record date := mkDate { year : Z; month : Z; day : Z }.

Definition is_leap (y : Z) : bool :=
  (y mod 4 =? 0) && (negb (y mod 100 =? 0) || (y mod 400 =? 0)).

Definition days_in_month (y m : Z) : Z :=
  if m =? 2 then (if is_leap y then 29 else 28)
  else if (m =? 4) || (m =? 6) || (m =? 9) || (m =? 11) then 30
  else 31.

(** The values a [datetime.date] can hold. *)
Definition valid_date (d : date) : bool :=
  (1 <=? year d) && (year d <=? 9999) &&
  (1 <=? month d) && (month d <=? 12) &&
  (1 <=? day d) && (day d <=? days_in_month (year d) (month d)).

Definition digit (n : Z) : ascii := ascii_of_nat (48 + Z.to_nat n).

Definition digit_val (c : ascii) : option Z :=
  let n := Z.of_nat (nat_of_ascii c) in
  if (48 <=? n) && (n <=? 57) then Some (n - 48) else None.

(** [date.isoformat()]: [YYYY-MM-DD]. *)
Definition isoformat (d : date) : string :=
  let y := year d in let m := month d in let dd := day d in
  String (digit (y / 1000)) (String (digit (y / 100 mod 10))
  (String (digit (y / 10 mod 10)) (String (digit (y mod 10))
  (String "-" (String (digit (m / 10)) (String (digit (m mod 10))
  (String "-" (String (digit (dd / 10)) (String (digit (dd mod 10))
  EmptyString))))))))).

(** The fields of a text of the form [YYYY-MM-DD]: ten characters, digits
    around two hyphens. *)
Definition extended (s : string) : option (Z * Z * Z) :=
  match s with
  | String y1 (String y2 (String y3 (String y4 (String "-"
    (String m1 (String m2 (String "-" (String d1 (String d2
    EmptyString))))))))) =>
      match digit_val y1, digit_val y2, digit_val y3, digit_val y4,
            digit_val m1, digit_val m2, digit_val d1, digit_val d2 with
      | Some a, Some b, Some c, Some d, Some e, Some f, Some g, Some h =>
          Some (1000 * a + 100 * b + 10 * c + d, 10 * e + f, 10 * g + h)
      | _, _, _, _, _, _, _, _ => None
      end
  | _ => None
  end.

(** Python up to 3.10: [date.fromisoformat] refuses every text that is not
    of the form [YYYY-MM-DD], with this message. *)
Definition extended_only (s : string) : option date := None.

Definition invalid_isoformat (s : string) : string :=
  ("Invalid isoformat string: '" ++ s ++ "'")%string.

(** ** Request and response models *)

Record InvoiceItemCreate := mkItemCreate {
  ic_product_id : Z;
  ic_quantity : Z
}.

Record InvoiceCreate := mkInvoiceCreate {
  invoice_no : option string;
  issue_date : date;
  due_date : date;
  client_id : Z;
  address : option string;
  items : list InvoiceItemCreate;
  tax : float
}.

(** The field constraints of the request model: [quantity > 0] for every
    item and [tax >= 0] (which a NaN fails). *)
Definition InvoiceCreate_valid (p : InvoiceCreate) : bool :=
  forallb (fun it => 0 <? ic_quantity it) (items p) &&
  SFleb Float.zero (tax p).

Record ClientResponse := mkClientResponse {
  cr_id : Z;
  cr_name : string;
  cr_address : string;
  cr_company_registration_no : string
}.

Record InvoiceItemResponse := mkItemResponse {
  ir_product_id : Z;
  ir_name : string;
  ir_unit_price : float;
  ir_quantity : Z;
  ir_line_total : float
}.

Record InvoiceResponse := mkInvoiceResponse {
  r_id : Z;
  r_invoice_no : string;
  r_issue_date : date;
  r_due_date : date;
  r_client : ClientResponse;
  r_address : string;
  r_items : list InvoiceItemResponse;
  r_tax : float;
  r_total : float
}.

(** One entry of the listing returned by [list_invoices]. *)
Record InvoiceSummary := mkSummary {
  s_id : Z;
  s_invoice_no : string;
  s_issue_date : string;
  s_due_date : string;
  s_client_name : string;
  s_total : float
}.

(** ** The relational store *)

(** The values of SQLite's INTEGER storage class. *)
Definition min_int64 : Z := - 2 ^ 63.
Definition max_int64 : Z := 2 ^ 63 - 1.

Definition in_int64 (n : Z) : bool := (min_int64 <=? n) && (n <=? max_int64).

Record Client := mkClient {
  c_id : Z;
  c_name : string;
  c_address : string;
  c_company_registration_no : string;
  c_id_range : in_int64 c_id = true
}.

Record Product := mkProduct {
  p_id : Z;
  p_name : string;
  p_price : float;
  p_id_range : in_int64 p_id = true
}.

Record Invoice := mkInvoice {
  inv_id : Z;
  inv_invoice_no : string;
  inv_issue_date : string;
  inv_due_date : string;
  inv_client_id : Z;
  inv_address : string;
  inv_tax : float;
  inv_total : float;
  inv_id_range : in_int64 inv_id = true;
  inv_client_id_range : in_int64 inv_client_id = true
}.

Record InvoiceItem := mkInvoiceItem {
  it_id : Z;
  it_invoice_id : Z;
  it_product_id : Z;
  it_quantity : Z;
  it_unit_price : float;
  it_line_total : float;
  it_id_range : in_int64 it_id = true;
  it_invoice_id_range : in_int64 it_invoice_id = true;
  it_product_id_range : in_int64 it_product_id = true;
  it_quantity_range : in_int64 it_quantity = true
}.

(** [seq_invoices] and [seq_invoice_items] are the [sqlite_sequence] entries
    of the two AUTOINCREMENT tables this router writes: the largest rowid
    ever handed out. *)
Record DB := mkDB {
  clients : list Client;
  products : list Product;
  invoices : list Invoice;
  invoice_items : list InvoiceItem;
  seq_invoices : Z;
  seq_invoice_items : Z
}.

(** [MAX(id)] over a table; [None] is SQL NULL (empty table). *)
Fixpoint max_id (ids : list Z) : option Z :=
  match ids with
  | [] => None
  | x :: rest =>
      Some (match max_id rest with None => x | Some m => Z.max x m end)
  end.

(** [COALESCE(e, d)]. *)
Definition coalesce (e : option Z) (d : Z) : Z :=
  match e with Some v => v | None => d end.

(** The rowid an AUTOINCREMENT table hands out: one more than the largest
    rowid that ever existed in the table. *)
Definition next_rowid (ids : list Z) (seq : Z) : Z :=
  Z.max (coalesce (max_id ids) 0) seq + 1.

(** ** Exceptions and the transaction monad *)

(** What a statement of an endpoint body can raise: the framework's
    [HTTPException], or any other exception, kept as its text [str(exc)]. *)
Inductive exn :=
| HTTPException (status_code : Z) (detail : string)
| Error (msg : string).

(** [str(exc)]. *)
Definition str_exn (e : exn) : string :=
  match e with
  | HTTPException st d => (str_int st ++ ": " ++ d)%string
  | Error msg => msg
  end.

(** The result of running code against the store: a value, or an exception,
    in both cases with the store as the code left it. *)
Inductive outcome (A : Type) :=
| Done (a : A) (db : DB)
| Raised (e : exn) (db : DB).

Arguments Done {A} a db.
Arguments Raised {A} e db.

Definition M (A : Type) : Type := DB -> outcome A.

Definition ret {A} (a : A) : M A := fun db => Done a db.

Definition bind {A B} (m : M A) (k : A -> M B) : M B :=
  fun db =>
    match m db with
    | Done a db' => k a db'
    | Raised e db' => Raised e db'
    end.

Definition raise {A} (e : exn) : M A := fun db => Raised e db.

(** A query: reads the store, leaves it as it is. *)
Definition query {A} (f : DB -> A) : M A := fun db => Done (f db) db.

Notation "x <- m ;; k" := (bind m (fun x => k))
  (at level 61, m at next level, right associativity).
Notation "m ;;; k" := (bind m (fun _ => k))
  (at level 61, right associativity).

(** Modelled from the spec: [get_db] of [app.database], the storage gateway
    whose source is not part of the router.  It opens a transactional
    session for the [with] block, commits when the block ends normally, and
    on every exception rolls the session back before the exception goes on
    to the caller. *)
Definition get_db {A} (body : M A) : M A :=
  fun db =>
    match body db with
    | Done a db' => Done a db'
    | Raised e _ => Raised e db
    end.

(** What the caller of an endpoint sees. *)
Inductive reply (A : Type) :=
| Returned (body : A)
| Failed (status_code : Z) (detail : string).

Arguments Returned {A} body.
Arguments Failed {A} status_code detail.

(** [except HTTPException: raise] followed by
    [except Exception as exc: raise HTTPException(500, f"Database error: {exc}")]. *)
Definition reraise_or_500 {A} (o : outcome A) : reply A * DB :=
  match o with
  | Done a db => (Returned a, db)
  | Raised (HTTPException st d) db => (Failed st d, db)
  | Raised (Error msg) db => (Failed 500 ("Database error: " ++ msg), db)
  end.

(** The handler of [list_invoices], which has the second clause only. *)
Definition all_500 {A} (o : outcome A) : reply A * DB :=
  match o with
  | Done a db => (Returned a, db)
  | Raised e db => (Failed 500 ("Database error: " ++ str_exn e), db)
  end.

(** ** Statements *)

(** A test whose positive outcome is kept as a fact, for the row that is
    built under it. *)
Definition checked {A : Type} (b : bool) (yes : b = true -> A) (no : A) : A :=
  match b as b' return (b = b' -> A) with
  | true => fun H => yes H
  | false => fun _ => no
  end eq_refl.

(** What the [sqlite3] driver raises for an [int] parameter outside the
    INTEGER range, before the statement runs. *)
Definition OverflowError : exn :=
  Error "Python int too large to convert to SQLite INTEGER".

(** What an AUTOINCREMENT table raises once the largest rowid has been
    used (SQLITE_FULL). *)
Definition rowids_exhausted : exn := Error "database or disk is full".

(** Binding an [int] parameter of a statement. *)
Definition bind_int (n : Z) : M unit :=
  if in_int64 n then ret tt else raise OverflowError.

(** [_fetch_client]. *)
Definition _fetch_client (cid : Z) : M (option Client) :=
  bind_int cid ;;;
  query (fun db => find (fun c => c_id c =? cid) (clients db)).

(** [SELECT COALESCE(MAX(id), 0) + 1 AS next_id FROM invoices], as long as
    the sum is an INTEGER. *)
Definition next_id (db : DB) : Z :=
  coalesce (max_id (map inv_id (invoices db))) 0 + 1.

(** [_generate_invoice_no].  Past the largest INTEGER the sum of the query
    is a REAL, which the format code [d] refuses with a [ValueError]. *)
Definition _generate_invoice_no : M string :=
  fun db =>
    if next_id db <=? max_int64
    then Done ("INV-" ++ format_05d (next_id db))%string db
    else Raised (Error "Unknown format code 'd' for object of type 'float'")
                db.

(** [SELECT 1 FROM invoices WHERE invoice_no = ?] then [fetchone()], as a
    truth value. *)
Definition invoice_no_taken (no : string) : M bool :=
  query (fun db =>
    existsb (fun i => String.eqb (inv_invoice_no i) no) (invoices db)).

(** [SELECT id, name, price FROM products WHERE id = ?] then [fetchone()]. *)
Definition select_product (pid : Z) : M (option Product) :=
  bind_int pid ;;;
  query (fun db => find (fun p => p_id p =? pid) (products db)).

(** Binding a float to a [REAL NOT NULL] column: SQLite stores a NaN as
    NULL, which the constraint refuses. *)
Definition not_null_real (column : string) (x : float) : M unit :=
  if Float.is_nan x
  then raise (Error ("NOT NULL constraint failed: " ++ column))
  else ret tt.

(** [INSERT INTO invoices (...) VALUES (...)]; the result is
    [cursor.lastrowid].  The parameters are bound first, then the rowid is
    taken, then the row is checked against the constraints.  Of the REAL
    values of the row only the tax can be a negative zero (the total is a
    sum that started from [0.0]), and it is read back as [0.0]. *)
Definition insert_invoice (no issue due : string) (cid : Z) (addr : string)
    (tx total : float) : M Z :=
  fun db =>
    checked (in_int64 cid)
      (fun Hcid =>
         let id := next_rowid (map inv_id (invoices db)) (seq_invoices db) in
         checked (in_int64 id)
           (fun Hid =>
              (not_null_real "invoices.tax" tx ;;;
               not_null_real "invoices.total" total ;;;
               taken <- invoice_no_taken no ;;
               if (taken : bool)
               then raise (Error "UNIQUE constraint failed: invoices.invoice_no")
               else fun _ =>
                 Done id
                   (mkDB (clients db) (products db)
                         (invoices db ++
                            [mkInvoice id no issue due cid addr
                                       (Float.real_column tx) total Hid Hcid])
                         (invoice_items db) id (seq_invoice_items db))) db)
           (Raised rowids_exhausted db))
      (Raised OverflowError db).

(** [INSERT INTO invoice_items (...) VALUES (...)].  Neither REAL value of
    a line is a negative zero: the unit price was read from a REAL column,
    and the line total is its product with a quantity that the request model
    keeps positive. *)
Definition insert_invoice_item (invoice_id product_id quantity : Z)
    (unit_price line_total : float) : M unit :=
  fun db =>
    checked (in_int64 invoice_id)
      (fun Hinvoice =>
    checked (in_int64 product_id)
      (fun Hproduct =>
    checked (in_int64 quantity)
      (fun Hquantity =>
         let id := next_rowid (map it_id (invoice_items db))
                              (seq_invoice_items db) in
         checked (in_int64 id)
           (fun Hid =>
              (not_null_real "invoice_items.unit_price" unit_price ;;;
               not_null_real "invoice_items.line_total" line_total ;;;
               fun _ =>
                 Done tt
                   (mkDB (clients db) (products db) (invoices db)
                         (invoice_items db ++
                            [mkInvoiceItem id invoice_id product_id quantity
                                           unit_price line_total
                                           Hid Hinvoice Hproduct Hquantity])
                         (seq_invoices db) id)) db)
           (Raised rowids_exhausted db))
      (Raised OverflowError db))
      (Raised OverflowError db))
      (Raised OverflowError db).

(** [DELETE FROM invoice_items WHERE invoice_id = ?]. *)
Definition delete_items_of (invoice_id : Z) : M unit :=
  fun db =>
    Done tt
      (mkDB (clients db) (products db) (invoices db)
            (filter (fun it => negb (it_invoice_id it =? invoice_id))
                    (invoice_items db))
            (seq_invoices db) (seq_invoice_items db)).

(** [DELETE FROM invoices WHERE id = ?]. *)
Definition delete_invoice_row (invoice_id : Z) : M unit :=
  fun db =>
    Done tt
      (mkDB (clients db) (products db)
            (filter (fun i => negb (inv_id i =? invoice_id)) (invoices db))
            (invoice_items db)
            (seq_invoices db) (seq_invoice_items db)).

(** [a JOIN b ON on]. *)
Definition join {A B} (on : A -> B -> bool) (l : list A) (r : list B)
    : list (A * B) :=
  flat_map (fun a => map (pair a) (filter (on a) r)) l.

(** [ORDER BY key], stable. *)
Fixpoint insert_by {A} (key : A -> Z) (x : A) (l : list A) : list A :=
  match l with
  | [] => [x]
  | y :: rest =>
      if key x <=? key y then x :: y :: rest
      else y :: insert_by key x rest
  end.

Definition order_by {A} (key : A -> Z) (l : list A) : list A :=
  fold_right (insert_by key) [] l.

(** ** [create_invoice] *)

(** The loop over [payload.items]: [item_rows] and [total] are the two
    accumulators.  An entry of [item_rows] has exactly the fields of
    [InvoiceItemResponse], which is what it is turned into at the end. *)
Fixpoint price_items (its : list InvoiceItemCreate)
    (item_rows : list InvoiceItemResponse) (total : float)
    : M (list InvoiceItemResponse * float) :=
  match its with
  | [] => ret (item_rows, total)
  | item :: rest =>
      product <- select_product (ic_product_id item) ;;
      match product with
      | None =>
          raise (HTTPException 404
                   ("Product not found: " ++ str_int (ic_product_id item)))
      | Some product =>
          match Float.mul_int (p_price product) (ic_quantity item) with
          | None => raise (Error "int too large to convert to float")
          | Some line_total =>
              price_items rest
                (item_rows ++
                   [mkItemResponse (p_id product) (p_name product)
                                   (p_price product) (ic_quantity item)
                                   line_total])
                (Float.add total line_total)
          end
      end
  end.

(** The second loop, over [item_rows]. *)
Fixpoint insert_items (invoice_id : Z) (item_rows : list InvoiceItemResponse)
    : M unit :=
  match item_rows with
  | [] => ret tt
  | item :: rest =>
      insert_invoice_item invoice_id (ir_product_id item) (ir_quantity item)
                          (ir_unit_price item) (ir_line_total item) ;;;
      insert_items invoice_id rest
  end.

(** [payload.invoice_no] when truthy and free, else a generated number. *)
Definition resolve_invoice_no (given : option string) : M string :=
  match given with
  | Some no =>
      if truthy no then
        taken <- invoice_no_taken no ;;
        if (taken : bool)
        then raise (HTTPException 409 "Invoice number already exists")
        else ret no
      else _generate_invoice_no
  | None => _generate_invoice_no
  end.

(** [payload.address or client_row["address"]]. *)
Definition resolve_address (given : option string) (client_row : Client)
    : string :=
  match given with
  | Some a => if truthy a then a else c_address client_row
  | None => c_address client_row
  end.

(** The body of the [with get_db() as conn:] block. *)
Definition create_invoice_body (payload : InvoiceCreate)
    : M InvoiceResponse :=
  client_row <- _fetch_client (client_id payload) ;;
  match client_row with
  | None => raise (HTTPException 404 "Client not found")
  | Some client_row =>
      invoice_no <- resolve_invoice_no (invoice_no payload) ;;
      let address := resolve_address (address payload) client_row in
      priced <- price_items (items payload) [] Float.zero ;;
      let item_rows := fst priced in
      let total := snd priced in
      let total_with_tax := Float.add total (tax payload) in
      invoice_id <- insert_invoice invoice_no
                      (isoformat (issue_date payload))
                      (isoformat (due_date payload))
                      (client_id payload) address (tax payload)
                      total_with_tax ;;
      insert_items invoice_id item_rows ;;;
      ret (mkInvoiceResponse invoice_id invoice_no
             (issue_date payload) (due_date payload)
             (mkClientResponse (c_id client_row) (c_name client_row)
                (c_address client_row)
                (c_company_registration_no client_row))
             address item_rows (tax payload) total_with_tax)
  end.

Definition create_invoice (payload : InvoiceCreate) (db : DB)
    : reply InvoiceResponse * DB :=
  match items payload with
  | [] => (Failed 400 "Invoice must include at least one item", db)
  | _ :: _ => reraise_or_500 (get_db (create_invoice_body payload) db)
  end.

(** ** [list_invoices] *)

Definition list_invoices_body : M (list InvoiceSummary) :=
  query (fun db =>
    map (fun row =>
           mkSummary (inv_id (fst row)) (inv_invoice_no (fst row))
                     (inv_issue_date (fst row)) (inv_due_date (fst row))
                     (c_name (snd row)) (inv_total (fst row)))
        (order_by (fun row => inv_id (fst row))
           (join (fun i c => c_id c =? inv_client_id i)
                 (invoices db) (clients db)))).

Definition list_invoices (db : DB) : reply (list InvoiceSummary) * DB :=
  all_500 (get_db list_invoices_body db).

(** ** [delete_invoice] *)

Definition delete_invoice_body (invoice_id : Z) : M unit :=
  bind_int invoice_id ;;;
  found <- query (fun db =>
             find (fun i => inv_id i =? invoice_id) (invoices db)) ;;
  match found with
  | None => raise (HTTPException 404 "Invoice not found")
  | Some _ =>
      delete_items_of invoice_id ;;;
      delete_invoice_row invoice_id ;;;
      ret tt
  end.

Definition delete_invoice (invoice_id : Z) (db : DB) : reply unit * DB :=
  reraise_or_500 (get_db (delete_invoice_body invoice_id) db).

(** ** The store after migration 002 *)

Definition sample_clients : list Client :=
  [ mkClient 1 "Stellar Industries" "100 Market Street, Springfield"
             "REG-10001" eq_refl;
    mkClient 2 "Nova Retail Co." "42 Galaxy Way, Horizon City" "REG-10002"
             eq_refl;
    mkClient 3 "Aurora Health" "88 Northern Lights Ave, Summit"
             "REG-10003" eq_refl ].

Definition sample_products : list Product :=
  [ mkProduct 1 "Website Design" (Float.of_int 1500) eq_refl;
    mkProduct 2 "Monthly Hosting" (Float.of_int 120) eq_refl;
    mkProduct 3 "Consulting Session" (Float.of_int 300) eq_refl;
    mkProduct 4 "Analytics Setup" (Float.of_int 500) eq_refl ].

Definition upgrade : DB :=
  mkDB sample_clients sample_products [] [] 0 0.

(** The example of the specification: two units of product 1 for client 1,
    no tax, on the freshly migrated store. *)
Definition example_date : date := mkDate 2024 2 29.

Definition example_payload : InvoiceCreate :=
  mkInvoiceCreate None example_date example_date 1 None
                  [mkItemCreate 1 2] Float.zero.

Definition example_response : InvoiceResponse :=
  mkInvoiceResponse 1 "INV-00001" example_date example_date
    (mkClientResponse 1 "Stellar Industries"
       "100 Market Street, Springfield" "REG-10001")
    "100 Market Street, Springfield"
    [mkItemResponse 1 "Website Design" (Float.of_int 1500) 2
                    (Float.of_int 3000)]
    Float.zero (Float.of_int 3000).

Definition example_db : DB :=
  mkDB sample_clients sample_products
       [mkInvoice 1 "INV-00001" "2024-02-29" "2024-02-29" 1
                  "100 Market Street, Springfield" Float.zero
                  (Float.of_int 3000) eq_refl eq_refl]
       [mkInvoiceItem 1 1 1 2 (Float.of_int 1500) (Float.of_int 3000)
                      eq_refl eq_refl eq_refl eq_refl]
       1 1.

(** The store after a request that chose the number [INV-00002] for the
    first invoice. *)
Definition taken_db : DB :=
  mkDB sample_clients sample_products
       [mkInvoice 1 "INV-00002" "2024-02-29" "2024-02-29" 1
                  "100 Market Street, Springfield" Float.zero
                  (Float.of_int 3000) eq_refl eq_refl]
       [mkInvoiceItem 1 1 1 2 (Float.of_int 1500) (Float.of_int 3000)
                      eq_refl eq_refl eq_refl eq_refl]
       1 1.

Section Router.

(** What [date.fromisoformat] of the running Python returns on a text that
    is not of the form [YYYY-MM-DD] ([None] stands for [ValueError]), and
    the text of the [ValueError] it raises for a text it refuses. *)
Variable fromisoformat_other : string -> option date.
Variable fromisoformat_error : string -> string.

(** [date.fromisoformat]; [None] stands for [ValueError]. *)
Definition fromisoformat (s : string) : option date :=
  match extended s with
  | Some (y, m, d) =>
      let r := mkDate y m d in
      if valid_date r then Some r else None
  | None => fromisoformat_other s
  end.

(** ** [get_invoice] *)

(** The header query, then [fetchone()]. *)
Definition select_invoice (invoice_id : Z) : M (option (Invoice * Client)) :=
  bind_int invoice_id ;;;
  query (fun db =>
    hd_error
      (filter (fun row => inv_id (fst row) =? invoice_id)
         (join (fun i c => c_id c =? inv_client_id i)
               (invoices db) (clients db)))).

(** The item query, then [fetchall()] and the list comprehension. *)
Definition select_items (invoice_id : Z) : M (list InvoiceItemResponse) :=
  query (fun db =>
    map (fun row =>
           mkItemResponse (it_product_id (fst row)) (p_name (snd row))
                          (it_unit_price (fst row)) (it_quantity (fst row))
                          (it_line_total (fst row)))
        (order_by (fun row => it_id (fst row))
           (filter (fun row => it_invoice_id (fst row) =? invoice_id)
              (join (fun it p => p_id p =? it_product_id it)
                    (invoice_items db) (products db))))).


(** [date.fromisoformat(text)] inside the body. *)
Definition parse_date (text : string) : M date :=
  match fromisoformat text with
  | Some d => ret d
  | None => raise (Error (fromisoformat_error text))
  end.

Definition get_invoice_body (invoice_id : Z) : M InvoiceResponse :=
  invoice_row <- select_invoice invoice_id ;;
  match invoice_row with
  | None => raise (HTTPException 404 "Invoice not found")
  | Some (i, c) =>
      items <- select_items invoice_id ;;
      issue <- parse_date (inv_issue_date i) ;;
      due <- parse_date (inv_due_date i) ;;
      ret (mkInvoiceResponse (inv_id i) (inv_invoice_no i) issue due
             (mkClientResponse (c_id c) (c_name c) (c_address c)
                (c_company_registration_no c))
             (inv_address i) items (inv_tax i) (inv_total i))
  end.

Definition get_invoice (invoice_id : Z) (db : DB)
    : reply InvoiceResponse * DB :=
  reraise_or_500 (get_db (get_invoice_body invoice_id) db).

(** ** Histories of requests *)

Inductive request :=
| Create (payload : InvoiceCreate)
| ListAll
| Get (invoice_id : Z)
| Delete (invoice_id : Z).

(** The store after one request. *)
Definition handle (rq : request) (db : DB) : DB :=
  match rq with
  | Create payload => snd (create_invoice payload db)
  | ListAll => snd (list_invoices db)
  | Get id => snd (get_invoice id db)
  | Delete id => snd (delete_invoice id db)
  end.

Definition run (rqs : list request) (db : DB) : DB :=
  fold_left (fun db rq => handle rq db) rqs db.

(** A request that leaves the numbering to [_generate_invoice_no]. *)
Definition auto_numbered (payload : InvoiceCreate) : bool :=
  match invoice_no payload with
  | Some no => negb (truthy no)
  | None => true
  end.

Definition succeeded {A} (r : reply A) : bool :=
  match r with Returned _ => true | Failed _ _ => false end.

(** The sequence numbers that [_generate_invoice_no] assigned along a
    history, in assignment order: one per [Create] that was numbered
    automatically and succeeded. *)
Fixpoint auto_numbers (rqs : list request) (db : DB) : list Z :=
  match rqs with
  | [] => []
  | rq :: rest =>
      match rq with
      | Create payload =>
          if auto_numbered payload && succeeded (fst (create_invoice payload db))
          then [next_id db]
          else []
      | _ => []
      end ++ auto_numbers rest (handle rq db)
  end.

(** No [Delete] of the history removes the invoice that holds the largest
    id at the time of the request. *)
Fixpoint keeps_newest (rqs : list request) (db : DB) : Prop :=
  match rqs with
  | [] => True
  | rq :: rest =>
      match rq with
      | Delete id => max_id (map inv_id (invoices db)) <> Some id
      | _ => True
      end /\ keeps_newest rest (handle rq db)
  end.

(** ** Specification-side definitions *)

(** The product id of the first item whose product is not in the store. *)
Fixpoint first_missing (db : DB) (its : list InvoiceItemCreate) : option Z :=
  match its with
  | [] => None
  | it :: rest =>
      match find (fun p => p_id p =? ic_product_id it) (products db) with
      | None => Some (ic_product_id it)
      | Some _ => first_missing db rest
      end
  end.

(** The price of a product as the store has it. *)
Definition price_of (db : DB) (pid : Z) : option float :=
  option_map p_price (find (fun p => p_id p =? pid) (products db)).

(** [Σ quantity_i × price_i], summed in item order from [0.0]; an item
    without a product contributes nothing. *)
Definition sum_of_lines (db : DB) (its : list InvoiceItemCreate) : float :=
  fold_left
    (fun acc it =>
       match price_of db (ic_product_id it) with
       | Some price => Float.add acc (Float.mul (Float.of_int (ic_quantity it)) price)
       | None => acc
       end)
    its Float.zero.

(** The line totals of priced rows, summed as the loop sums them. *)
Definition sum_rows (rows : list InvoiceItemResponse) (start : float)
    : float :=
  fold_left (fun acc r => Float.add acc (ir_line_total r)) rows start.

(** A response line is the priced form of a request item. *)
Definition priced (db : DB) (it : InvoiceItemCreate)
    (row : InvoiceItemResponse) : Prop :=
  exists product,
    find (fun p => p_id p =? ic_product_id it) (products db) = Some product /\
    row = mkItemResponse (p_id product) (p_name product) (p_price product)
            (ic_quantity it)
            (Float.mul (p_price product) (Float.of_int (ic_quantity it))).

(** A stored line carries the data of a response line under a given
    invoice. *)
Definition stores (invoice_id : Z) (row : InvoiceItemResponse)
    (it : InvoiceItem) : Prop :=
  it_invoice_id it = invoice_id /\
  it_product_id it = ir_product_id row /\
  it_quantity it = ir_quantity row /\
  it_unit_price it = ir_unit_price row /\
  it_line_total it = ir_line_total row.

(** The stored header of an invoice. *)
Definition stored_invoice (db : DB) (id : Z) : option Invoice :=
  find (fun i => inv_id i =? id) (invoices db).

(** The stored lines of an invoice, in table order. *)
Definition stored_items (db : DB) (id : Z) : list InvoiceItem :=
  filter (fun it => it_invoice_id it =? id) (invoice_items db).

(** Schema invariants the router relies on: product ids are a primary key,
    and every line belongs to a stored invoice. *)
Definition products_keyed (db : DB) : Prop :=
  NoDup (map p_id (products db)).

Definition no_orphans (db : DB) : Prop :=
  forall it, In it (invoice_items db) ->
    In (it_invoice_id it) (map inv_id (invoices db)).

Definition numbers_unique (db : DB) : Prop :=
  NoDup (map inv_invoice_no (invoices db)).

Definition numbers_nonempty (db : DB) : Prop :=
  Forall (fun i => inv_invoice_no i <> "") (invoices db).

(** Replacing the invoice number of a request. *)
Definition with_invoice_no (no : option string) (p : InvoiceCreate)
    : InvoiceCreate :=
  mkInvoiceCreate no (issue_date p) (due_date p) (client_id p) (address p)
                  (items p) (tax p).

(** The request names a number that a stored invoice already has. *)
Definition conflicts (db : DB) (p : InvoiceCreate) : bool :=
  match invoice_no p with
  | Some no =>
      truthy no &&
      existsb (fun i => String.eqb (inv_invoice_no i) no) (invoices db)
  | None => false
  end.

Definition client_exists (db : DB) (p : InvoiceCreate) : bool :=
  existsb (fun c => c_id c =? client_id p) (clients db).

(** Replacing single fields of the example request. *)
Definition with_items (its : list InvoiceItemCreate) (p : InvoiceCreate)
    : InvoiceCreate :=
  mkInvoiceCreate (invoice_no p) (issue_date p) (due_date p) (client_id p)
                  (address p) its (tax p).

Definition with_client (cid : Z) (p : InvoiceCreate) : InvoiceCreate :=
  mkInvoiceCreate (invoice_no p) (issue_date p) (due_date p) cid
                  (address p) (items p) (tax p).

Definition with_address (a : option string) (p : InvoiceCreate)
    : InvoiceCreate :=
  mkInvoiceCreate (invoice_no p) (issue_date p) (due_date p) (client_id p)
                  a (items p) (tax p).

(** A request whose last quantity is not an INTEGER of SQLite: the header
    and the first line are written before the driver refuses the second
    line. *)
Definition refused_line : InvoiceCreate :=
  with_items [mkItemCreate 1 2; mkItemCreate 2 (2 ^ 63)] example_payload.

(** The store after the example request was made twice. *)
Definition two_invoices : DB := snd (create_invoice example_payload example_db).

(** The detail [d] of a reply ends with the text [msg]. *)
Definition mentions (d msg : string) : Prop :=
  exists prefix, d = (prefix ++ msg)%string.

(** ** Definitions for the further properties *)

(** The entry of the listing for an invoice and its client. *)
Definition summary (i : Invoice) (c : Client) : InvoiceSummary :=
  mkSummary (inv_id i) (inv_invoice_no i) (inv_issue_date i)
            (inv_due_date i) (c_name c) (inv_total i).

(** Further schema invariants: client, invoice and line ids are primary
    keys, and every invoice refers to a stored client. *)
Definition clients_keyed (db : DB) : Prop :=
  NoDup (map c_id (clients db)).

Definition invoices_keyed (db : DB) : Prop :=
  NoDup (map inv_id (invoices db)).

Definition items_keyed (db : DB) : Prop :=
  NoDup (map it_id (invoice_items db)).

Definition clients_present (db : DB) : Prop :=
  forall i, In i (invoices db) ->
    In (inv_client_id i) (map c_id (clients db)).

(** The number [_generate_invoice_no] returns on a store. *)
Definition generated_no (db : DB) : string :=
  ("INV-" ++ format_05d (next_id db))%string.

(** The number a request ends up with when the conflict check passes. *)
Definition resolved_no (db : DB) (p : InvoiceCreate) : string :=
  match invoice_no p with
  | Some no => if truthy no then no else generated_no db
  | None => generated_no db
  end.

(** The rows the first loop of [create_invoice] builds when every product
    is found. *)
Fixpoint priced_rows (db : DB) (its : list InvoiceItemCreate)
    : list InvoiceItemResponse :=
  match its with
  | [] => []
  | it :: rest =>
      match find (fun p => p_id p =? ic_product_id it) (products db) with
      | Some product =>
          mkItemResponse (p_id product) (p_name product) (p_price product)
            (ic_quantity it)
            (Float.mul (p_price product) (Float.of_int (ic_quantity it)))
          :: priced_rows db rest
      | None => priced_rows db rest
      end
  end.

(** The items in front of the first one whose product is not in the
    store. *)
Fixpoint before_missing (db : DB) (its : list InvoiceItemCreate)
    : list InvoiceItemCreate :=
  match its with
  | [] => []
  | it :: rest =>
      match find (fun p => p_id p =? ic_product_id it) (products db) with
      | None => []
      | Some _ => it :: before_missing db rest
      end
  end.

(** The ids [first], [first + 1], ... of [n] rows inserted in a row. *)
Fixpoint consecutive (first : Z) (n : nat) : list Z :=
  match n with
  | O => []
  | S k => first :: consecutive (first + 1) k
  end.

(** An [int] that [float * int] can convert. *)
Definition convertible (n : Z) : bool :=
  match Float.of_int n with S754_infinity _ => false | _ => true end.

(** The failure of the first loop of [create_invoice], as status and
    detail, by the first item that fails. *)
Fixpoint loop_failure (db : DB) (its : list InvoiceItemCreate)
    : option (Z * string) :=
  match its with
  | [] => None
  | it :: rest =>
      if negb (in_int64 (ic_product_id it))
      then Some (500, "Database error: Python int too large to convert to SQLite INTEGER")
      else
        match find (fun p => p_id p =? ic_product_id it) (products db) with
        | None =>
            Some (404, ("Product not found: " ++ str_int (ic_product_id it))%string)
        | Some _ =>
            if negb (convertible (ic_quantity it))
            then Some (500, "Database error: int too large to convert to float")
            else loop_failure db rest
        end
  end.

(** Both AUTOINCREMENT tables still have the rowids a request needs. *)
Definition has_room (db : DB) (p : InvoiceCreate) : bool :=
  (next_rowid (map inv_id (invoices db)) (seq_invoices db) <=? max_int64) &&
  (next_rowid (map it_id (invoice_items db)) (seq_invoice_items db) +
     Z.of_nat (List.length (items p)) - 1 <=? max_int64).

(** The failure of [create_invoice] on a store with room, as status and
    detail, by the first check that fails; [None] when no check fails. *)
Definition create_failure (db : DB) (p : InvoiceCreate)
    : option (Z * string) :=
  match items p with
  | [] => Some (400, "Invoice must include at least one item")
  | _ :: _ =>
      if negb (in_int64 (client_id p))
      then Some (500, "Database error: Python int too large to convert to SQLite INTEGER")
      else if negb (client_exists db p) then Some (404, "Client not found")
      else if conflicts db p
      then Some (409, "Invoice number already exists")
      else
        match loop_failure db (items p) with
        | Some failure => Some failure
        | None =>
            if Float.is_nan (tax p)
            then Some (500, "Database error: NOT NULL constraint failed: invoices.tax")
            else if Float.is_nan
                      (Float.add (sum_of_lines db (items p)) (tax p))
            then Some (500, "Database error: NOT NULL constraint failed: invoices.total")
            else if existsb
                      (fun i => String.eqb (inv_invoice_no i)
                                           (resolved_no db p))
                      (invoices db)
            then Some (500, "Database error: UNIQUE constraint failed: invoices.invoice_no")
            else if forallb (fun it => in_int64 (ic_quantity it)) (items p)
            then None
            else Some (500, "Database error: Python int too large to convert to SQLite INTEGER")
        end
  end.

(** The ids given to the invoices created along a history, in order. *)
Fixpoint created_ids (rqs : list request) (db : DB) : list Z :=
  match rqs with
  | [] => []
  | rq :: rest =>
      match rq with
      | Create payload =>
          match fst (create_invoice payload db) with
          | Returned r => [r_id r]
          | Failed _ _ => []
          end
      | _ => []
      end ++ created_ids rest (handle rq db)
  end.

(** [int(s)] on a non-empty string of decimal digits; [None] elsewhere. *)
Definition int_of_digits (s : string) : option Z :=
  option_map (fun d => Z.of_N (N.of_uint d)) (NilZero.uint_of_string s).

(** The entries [list_invoices] returns. *)
Definition listed (db : DB) : list InvoiceSummary :=
  match fst (list_invoices db) with
  | Returned l => l
  | Failed _ _ => []
  end.

(** The schema of migration 002 as far as the router relies on it: the
    four primary keys and the two references. *)
Definition schema_ok (db : DB) : Prop :=
  products_keyed db /\ clients_keyed db /\ invoices_keyed db /\
  items_keyed db /\ no_orphans db /\ clients_present db.

(** The books: every stored line total is unit price times quantity, every
    stored invoice has at least one line, and its total is its tax plus the
    sum of its line totals, taken in line order from [0.0]. *)
Definition sum_lines (lines : list InvoiceItem) : float :=
  fold_left (fun acc line => Float.add acc (it_line_total line)) lines
            Float.zero.

Definition books_ok (db : DB) : Prop :=
  no_orphans db /\
  (forall line, In line (invoice_items db) ->
     it_line_total line =
       Float.mul (it_unit_price line) (Float.of_int (it_quantity line))) /\
  (forall i, In i (invoices db) ->
     stored_items db (inv_id i) <> [] /\
     inv_total i =
       Float.add (sum_lines (stored_items db (inv_id i))) (inv_tax i)).

(** A float whose exponent, if it has one, is one that a rounding to
    binary64 leaves. *)
Definition rounded (x : spec_float) : Prop :=
  match x with
  | S754_finite _ _ e => emin Float.prec Float.emax <= e
  | _ => True
  end.

(** A change of the prices in the products table, as another part of the
    application may make it. *)
Definition reprice (f : Product -> float) (db : DB) : DB :=
  mkDB (clients db)
       (map (fun p => mkProduct (p_id p) (p_name p) (f p) (p_id_range p))
            (products db))
       (invoices db) (invoice_items db)
       (seq_invoices db) (seq_invoice_items db).

(** * Properties *)

(** ** Floats *)

Lemma add_comm (x y : float) : Float.add x y = Float.add y x.
Proof.
  unfold Float.add, SFadd.
  destruct x as [sx | sx | | sx mx ex], y as [sy | sy | | sy my ey];
    try reflexivity;
    try (destruct sx, sy; reflexivity).
  rewrite (Z.min_comm ey ex).
  f_equal. apply Z.add_comm.
Qed.

Lemma mul_comm (x y : float) : Float.mul x y = Float.mul y x.
Proof.
  unfold Float.mul, SFmul.
  destruct x as [sx | sx | | sx mx ex], y as [sy | sy | | sy my ey];
    try reflexivity;
    try (rewrite (xorb_comm sy sx); reflexivity).
  rewrite (xorb_comm sy sx), (Pos.mul_comm my mx), (Z.add_comm ey ex).
  reflexivity.
Qed.

(** A validated request never carries a NaN as tax. *)
Lemma valid_tax_not_nan (p : InvoiceCreate) :
  InvoiceCreate_valid p = true -> Float.is_nan (tax p) = false.
Proof.
  unfold InvoiceCreate_valid. intros H.
  apply andb_prop in H. destruct H as [_ H].
  destruct (tax p); try reflexivity. discriminate H.
Qed.

(** What [Float.mul_int] returns is the product with the converted
    integer. *)
Lemma mul_int_Some (x : float) (n : Z) (y : float) :
  Float.mul_int x n = Some y ->
  y = Float.mul x (Float.of_int n) /\ convertible n = true.
Proof.
  unfold Float.mul_int, convertible.
  destruct (Float.of_int n); intros [= <-]; split; reflexivity.
Qed.

Lemma mul_int_None (x : float) (n : Z) :
  Float.mul_int x n = None <-> convertible n = false.
Proof.
  unfold Float.mul_int, convertible.
  destruct (Float.of_int n); split; intros H; try discriminate H; reflexivity.
Qed.

Lemma mul_int_convertible (x : float) (n : Z) :
  convertible n = true ->
  Float.mul_int x n = Some (Float.mul x (Float.of_int n)).
Proof.
  unfold Float.mul_int, convertible.
  destruct (Float.of_int n); intros H; try discriminate H; reflexivity.
Qed.

(** *** No cancellation to a negative zero

    A finite result of a rounding has an exponent of at least [emin], and
    the sum of two such values is a zero only when the exact sum is, in
    which case it is the positive zero ([rounded] is the first of the two
    facts). *)

Lemma shr_1_m mrs : 0 <= shr_m mrs -> shr_m (shr_1 mrs) = shr_m mrs / 2.
Proof.
  destruct mrs as [m r s]; cbn [shr_m]; intros H.
  destruct m as [|[p|p|]|p]; cbn [shr_1 shr_m]; try reflexivity; try lia.
  - apply Z.div_unique with (r := 1); lia.
  - apply Z.div_unique with (r := 0); lia.
Qed.

Lemma iter_pos_nat {A} (f : A -> A) p x :
  iter_pos f p x = Nat.iter (Pos.to_nat p) f x.
Proof.
  revert x; induction p as [p IH|p IH|]; intros x; cbn [iter_pos].
  - rewrite !IH, Pos2Nat.inj_xI.
    replace (S (2 * Pos.to_nat p))%nat
      with (Pos.to_nat p + (Pos.to_nat p + 1))%nat by lia.
    rewrite !Nat.iter_add. reflexivity.
  - rewrite !IH, Pos2Nat.inj_xO.
    replace (2 * Pos.to_nat p)%nat with (Pos.to_nat p + Pos.to_nat p)%nat by lia.
    rewrite Nat.iter_add. reflexivity.
  - reflexivity.
Qed.

Lemma iter_shr_1 n mrs :
  0 <= shr_m mrs ->
  shr_m (Nat.iter n shr_1 mrs) = shr_m mrs / 2 ^ Z.of_nat n.
Proof.
  intros H. induction n as [|n IH].
  - change (Nat.iter 0 shr_1 mrs) with mrs.
    rewrite Z.pow_0_r, Z.div_1_r. reflexivity.
  - rewrite Nat.iter_succ, shr_1_m.
    + rewrite IH, Nat2Z.inj_succ, Z.pow_succ_r by lia.
      rewrite Z.div_div by lia. f_equal. lia.
    + rewrite IH. apply Z.div_pos; lia.
Qed.

Lemma digits2_pos_bounds p : 2 ^ (Zpos (digits2_pos p) - 1) <= Zpos p.
Proof.
  induction p as [p IH|p IH|]; cbn [digits2_pos].
  - rewrite Pos2Z.inj_succ.
    replace (Z.succ (Zpos (digits2_pos p)) - 1) with (Z.succ (Zpos (digits2_pos p) - 1)) by lia.
    rewrite Z.pow_succ_r by lia. lia.
  - rewrite Pos2Z.inj_succ.
    replace (Z.succ (Zpos (digits2_pos p)) - 1) with (Z.succ (Zpos (digits2_pos p) - 1)) by lia.
    rewrite Z.pow_succ_r by lia. lia.
  - cbn. lia.
Qed.

Lemma fexp_emin e : emin Float.prec Float.emax <= fexp Float.prec Float.emax e.
Proof. unfold fexp. lia. Qed.

(** One alignment step of the rounding. *)
Lemma shr_fexp_spec m e l :
  emin Float.prec Float.emax <= snd (shr_fexp Float.prec Float.emax (Zpos m) e l) /\
  0 <= shr_m (fst (shr_fexp Float.prec Float.emax (Zpos m) e l)) /\
  (emin Float.prec Float.emax <= e -> 0 < shr_m (fst (shr_fexp Float.prec Float.emax (Zpos m) e l))).
Proof.
  unfold shr_fexp, shr. cbn [Zdigits2].
  assert (Hm : shr_m (shr_record_of_loc (Zpos m) l) = Zpos m)
    by (destruct l as [|[]]; reflexivity).
  pose proof (fexp_emin (Zpos (digits2_pos m) + e)) as Hf.
  pose proof (digits2_pos_bounds m) as Hd.
  destruct (fexp Float.prec Float.emax (Zpos (digits2_pos m) + e) - e) as [|n|n] eqn:En;
    cbn [fst snd]; rewrite ?Hm.
  - split; [lia|]. split; lia.
  - rewrite iter_pos_nat, iter_shr_1, Hm by (rewrite Hm; lia).
    rewrite positive_nat_Z.
    split; [lia|]. split; [apply Z.div_pos; lia|].
    intros He.
    assert (Hn : Zpos n = Zpos (digits2_pos m) - Float.prec)
      by (unfold fexp in En; lia).
    apply Z.div_str_pos. split; [lia|].
    apply Z.le_trans with (2 ^ (Zpos (digits2_pos m) - 1)); [|exact Hd].
    apply Z.pow_le_mono_r; unfold Float.prec in *; lia.
  - split; [lia|]. split; lia.
Qed.

Lemma round_nearest_even_ge m l : 0 <= m -> m <= round_nearest_even m l.
Proof.
  intros H. destruct l as [|[]]; cbn [round_nearest_even]; try lia.
  destruct (Z.even m); lia.
Qed.

Lemma shr_fexp_zero e l :
  emin Float.prec Float.emax <= e ->
  shr_fexp Float.prec Float.emax 0 e l = (shr_record_of_loc 0 l, e).
Proof.
  intros He. unfold shr_fexp, shr. cbn [Zdigits2].
  destruct (fexp Float.prec Float.emax (0 + e) - e) eqn:En; try reflexivity.
  unfold fexp in En. unfold Float.prec in *. lia.
Qed.

Lemma binary_round_aux_rounded s m e l :
  rounded (binary_round_aux Float.prec Float.emax s (Zpos m) e l) /\
  (emin Float.prec Float.emax <= e ->
   forall s', binary_round_aux Float.prec Float.emax s (Zpos m) e l <> S754_zero s').
Proof.
  unfold binary_round_aux.
  pose proof (shr_fexp_spec m e l) as (He1 & Hm1 & Hp1).
  destruct (shr_fexp Float.prec Float.emax (Zpos m) e l) as [mrs1 e1].
  cbn [fst snd] in He1, Hm1, Hp1.
  pose proof (round_nearest_even_ge (shr_m mrs1) (loc_of_shr_record mrs1) Hm1) as Hr.
  destruct (round_nearest_even (shr_m mrs1) (loc_of_shr_record mrs1)) as [|m2|m2] eqn:Em2; try lia.
  - rewrite shr_fexp_zero by exact He1. cbn [shr_record_of_loc shr_m].
    split; [exact I|]. intros He. specialize (Hp1 He). lia.
  - pose proof (shr_fexp_spec m2 e1 loc_Exact) as (He2 & Hm2 & Hp2).
    destruct (shr_fexp Float.prec Float.emax (Zpos m2) e1 loc_Exact) as [mrs2 e2].
    cbn [fst snd] in He2, Hm2, Hp2. specialize (Hp2 He1).
    destruct (shr_m mrs2) as [|m3|m3]; try lia.
    destruct (e2 <=? Float.emax - Float.prec);
      (split; [cbn [rounded]; first [exact He2|exact I]|intros _ s'; discriminate]).
Qed.

Lemma binary_round_rounded s m e :
  emin Float.prec Float.emax <= e ->
  rounded (binary_round Float.prec Float.emax s m e) /\
  forall s', binary_round Float.prec Float.emax s m e <> S754_zero s'.
Proof.
  intros He. unfold binary_round.
  pose proof (fexp_emin (Zpos (digits2_pos m) + e)) as Hf.
  assert (Hz : emin Float.prec Float.emax <=
               snd (shl_align m e (fexp Float.prec Float.emax (Zpos (digits2_pos m) + e)))).
  { unfold shl_align.
    destruct (fexp Float.prec Float.emax (Zpos (digits2_pos m) + e) - e); cbn [snd]; lia. }
  destruct (shl_align m e (fexp Float.prec Float.emax (Zpos (digits2_pos m) + e))) as [mz ez].
  cbn [snd] in Hz.
  destruct (binary_round_aux_rounded s mz ez loc_Exact) as [H1 H2].
  split; [exact H1|exact (H2 Hz)].
Qed.

Lemma mul_rounded x y : rounded (Float.mul x y).
Proof.
  destruct x as [sx|sx| |sx mx ex], y as [sy|sy| |sy my ey]; cbn; try exact I.
  apply (binary_round_aux_rounded (xorb sx sy) (mx * my) (ex + ey) loc_Exact).
Qed.

Lemma add_rounded x y :
  rounded x -> rounded y ->
  rounded (Float.add x y) /\
  (Float.add x y = S754_zero true -> x = S754_zero true /\ y = S754_zero true).
Proof.
  intros Hx Hy.
  destruct x as [sx|sx| |sx mx ex], y as [sy|sy| |sy my ey];
    try (split; [cbn; try destruct sx; try destruct sy; try exact I; assumption
                |cbn; try destruct sx; try destruct sy; intros; try discriminate; auto; fail]).
  cbn [rounded] in Hx, Hy.
  unfold Float.add, SFadd.
  set (m := (cond_Zopp sx (Z.pos (fst (shl_align mx ex (Z.min ex ey)))) +
             cond_Zopp sy (Z.pos (fst (shl_align my ey (Z.min ex ey)))))).
  assert (He : emin Float.prec Float.emax <= Z.min ex ey) by lia.
  unfold binary_normalize.
  destruct m as [|m|m].
  - split; [exact I|discriminate].
  - destruct (binary_round_rounded false m _ He) as [H1 H2].
    split; [exact H1|]. intros H. destruct (H2 _ H).
  - destruct (binary_round_rounded true m _ He) as [H1 H2].
    split; [exact H1|]. intros H. destruct (H2 _ H).
Qed.

(** A sum that starts from [0.0] is never the negative zero. *)
Lemma sum_rows_rounded (rows : list InvoiceItemResponse) :
  forall start,
    Forall (fun r => rounded (ir_line_total r)) rows ->
    rounded start -> start <> S754_zero true ->
    rounded (sum_rows rows start) /\ sum_rows rows start <> S754_zero true.
Proof.
  induction rows as [| row rest IH]; intros start Hrows Hs Hz.
  - split; assumption.
  - inversion Hrows as [| ? ? Hrow Hrest]; subst.
    destruct (add_rounded start (ir_line_total row) Hs Hrow) as [H1 H2].
    apply IH; [exact Hrest | exact H1 |].
    intros H. apply H2 in H. destruct H as [H _]. exact (Hz H).
Qed.

(** Adding a tax and adding the tax as a REAL column returns it give the
    same total on such a sum. *)
Lemma add_real_column (s tx : float) :
  s <> S754_zero true ->
  Float.add s (Float.real_column tx) = Float.add s tx.
Proof.
  intros Hs. destruct tx as [[|] | | |]; try reflexivity.
  destruct s as [[|] | [|] | |]; try reflexivity. congruence.
Qed.

(** ** Formatting *)

Example format_05d_small : format_05d 1 = "00001".
Proof. reflexivity. Qed.

Example format_05d_wide : format_05d 123456 = "123456".
Proof. reflexivity. Qed.

Example format_05d_negative : format_05d (-4) = "-0004".
Proof. reflexivity. Qed.

(** ** Lists and keys *)

Lemma hd_error_filter_find {A} (f : A -> bool) (l : list A) :
  hd_error (filter f l) = find f l.
Proof.
  induction l as [| a l IH]; simpl; [reflexivity |].
  destruct (f a); [reflexivity | exact IH].
Qed.

Lemma max_id_upper (ids : list Z) (m : Z) :
  max_id ids = Some m -> forall y, In y ids -> y <= m.
Proof.
  revert m. induction ids as [| x rest IH]; intros m Hm y Hy.
  - destruct Hy.
  - simpl in Hm. destruct (max_id rest) as [m' |] eqn:E.
    + injection Hm as <-. destruct Hy as [<- | Hy].
      * lia.
      * specialize (IH m' eq_refl y Hy). lia.
    + injection Hm as <-. destruct Hy as [<- | Hy]; [lia |].
      destruct rest; [destruct Hy | discriminate E].
Qed.

Lemma max_id_member (ids : list Z) (m : Z) :
  max_id ids = Some m -> In m ids.
Proof.
  revert m. induction ids as [| x rest IH]; intros m Hm.
  - discriminate Hm.
  - simpl in Hm. destruct (max_id rest) as [m' |] eqn:E.
    + injection Hm as <-. specialize (IH m' eq_refl).
      destruct (Z.max_spec x m') as [[_ ->] | [_ ->]];
        [right; exact IH | left; reflexivity].
    + injection Hm as <-. left; reflexivity.
Qed.

Lemma max_id_none (ids : list Z) : max_id ids = None -> ids = [].
Proof. destruct ids; [reflexivity | discriminate]. Qed.

(** The largest key of a table that received a key above all others. *)
Lemma max_id_snoc (ids : list Z) (x : Z) :
  (forall y, In y ids -> y < x) -> max_id (ids ++ [x]) = Some x.
Proof.
  induction ids as [| a rest IH]; intros H; simpl.
  - reflexivity.
  - rewrite IH by (intros y Hy; apply H; right; exact Hy).
    f_equal. assert (a < x) by (apply H; left; reflexivity). lia.
Qed.

Lemma max_id_intro (ids : list Z) (m : Z) :
  In m ids -> (forall y, In y ids -> y <= m) -> max_id ids = Some m.
Proof.
  intros Hin Hup. destruct (max_id ids) as [m' |] eqn:E.
  - f_equal.
    pose proof (max_id_member _ _ E) as Hm'.
    pose proof (max_id_upper _ _ E m Hin).
    pose proof (Hup m' Hm'). lia.
  - apply max_id_none in E. subst ids. destruct Hin.
Qed.

(** Removing a key that is not the largest keeps the largest. *)
Lemma max_id_filter_other (ids : list Z) (k : Z) :
  max_id ids <> Some k ->
  max_id (filter (fun y => negb (y =? k)) ids) = max_id ids.
Proof.
  intros H. destruct (max_id ids) as [m |] eqn:E.
  - apply max_id_intro.
    + apply filter_In. split; [exact (max_id_member _ _ E) |].
      destruct (Z.eqb_spec m k) as [-> | _]; [congruence | reflexivity].
    + intros y Hy. apply filter_In in Hy.
      exact (max_id_upper _ _ E y (proj1 Hy)).
  - apply max_id_none in E. subst ids. reflexivity.
Qed.

Lemma next_rowid_above (ids : list Z) (seq : Z) :
  seq < next_rowid ids seq /\ forall y, In y ids -> y < next_rowid ids seq.
Proof.
  unfold next_rowid. split; [lia |].
  intros y Hy. destruct (max_id ids) as [m |] eqn:E.
  - pose proof (max_id_upper _ _ E y Hy). simpl. lia.
  - apply max_id_none in E. subst ids. destruct Hy.
Qed.

Lemma find_app_fresh {A} (f : A -> bool) (l : list A) (x : A) :
  (forall y, In y l -> f y = false) -> f x = true ->
  find f (l ++ [x]) = Some x.
Proof.
  intros Hl Hx. induction l as [| a l IH]; simpl.
  - rewrite Hx. reflexivity.
  - rewrite (Hl a (or_introl eq_refl)).
    apply IH. intros y Hy. apply Hl. right; exact Hy.
Qed.

Lemma filter_none {A} (f : A -> bool) (l : list A) :
  (forall y, In y l -> f y = false) -> filter f l = [].
Proof.
  induction l as [| a l IH]; intros H; simpl; [reflexivity |].
  rewrite (H a (or_introl eq_refl)).
  apply IH. intros y Hy. apply H. right; exact Hy.
Qed.

Lemma filter_all {A} (f : A -> bool) (l : list A) :
  (forall y, In y l -> f y = true) -> filter f l = l.
Proof.
  induction l as [| a l IH]; intros H; simpl; [reflexivity |].
  rewrite (H a (or_introl eq_refl)). f_equal.
  apply IH. intros y Hy. apply H. right; exact Hy.
Qed.

(** With a key, a lookup by key selects exactly the row [find] returns. *)
Lemma filter_key_find {A} (key : A -> Z) (l : list A) (k : Z) (x : A) :
  NoDup (map key l) ->
  find (fun y => key y =? k) l = Some x ->
  filter (fun y => key y =? k) l = [x].
Proof.
  induction l as [| a l IH]; intros Hnd Hf; simpl in *; [discriminate |].
  inversion Hnd as [| ? ? Hnotin Hnd']; subst.
  destruct (Z.eqb_spec (key a) k) as [Hk | Hk].
  - injection Hf as <-. f_equal. apply filter_none.
    intros y Hy. destruct (Z.eqb_spec (key y) k) as [Hy' | _]; [| reflexivity].
    exfalso. apply Hnotin. rewrite Hk, <- Hy'. apply in_map. exact Hy.
  - apply IH; assumption.
Qed.

(** Sorting by a key leaves a list that is already in key order as it is. *)
Lemma order_by_sorted {A} (key : A -> Z) (l : list A) :
  StronglySorted (fun x y => key x < key y) l -> order_by key l = l.
Proof.
  induction 1 as [| a l Hs IH Hall]; [reflexivity |].
  change (order_by key (a :: l)) with (insert_by key a (order_by key l)).
  rewrite IH.
  destruct l as [| b l']; simpl; [reflexivity |].
  inversion Hall as [| ? ? Hab _]; subst.
  destruct (Z.leb_spec (key a) (key b)); [reflexivity | lia].
Qed.

(** ** Integers of the store *)

Lemma in_int64_spec (n : Z) :
  in_int64 n = true <-> min_int64 <= n <= max_int64.
Proof. unfold in_int64. rewrite andb_true_iff, !Z.leb_le. reflexivity. Qed.

Lemma checked_true {A} (b : bool) (yes : b = true -> A) (no : A)
    (H : b = true) :
  checked b yes no = yes H.
Proof.
  unfold checked. destruct b; [| discriminate H].
  rewrite (UIP_refl_bool true H). reflexivity.
Qed.

Lemma checked_false {A} (b : bool) (yes : b = true -> A) (no : A) :
  b = false -> checked b yes no = no.
Proof. intros ->. reflexivity. Qed.

Lemma bind_int_in (n : Z) (db : DB) :
  in_int64 n = true -> bind_int n db = Done tt db.
Proof. unfold bind_int. intros ->. reflexivity. Qed.

Lemma bind_int_out (n : Z) (db : DB) :
  in_int64 n = false -> bind_int n db = Raised OverflowError db.
Proof. unfold bind_int. intros ->. reflexivity. Qed.

(** A generated number exists exactly while the next id is an INTEGER,
    which it is as long as the invoices table has a rowid left. *)
Lemma next_id_le_rowid (db : DB) :
  next_id db <= next_rowid (map inv_id (invoices db)) (seq_invoices db).
Proof. unfold next_id, next_rowid. lia. Qed.

(** ** Statements of [create_invoice] *)

(** The numbering step only reads. *)
Lemma resolve_invoice_no_reads (given : option string) (db : DB) :
  match resolve_invoice_no given db with
  | Done _ db' => db' = db
  | Raised e db' =>
      db' = db /\
      (e = HTTPException 409 "Invoice number already exists" \/
       e = Error "Unknown format code 'd' for object of type 'float'" /\
       max_int64 < next_id db)
  end.
Proof.
  unfold resolve_invoice_no, _generate_invoice_no, invoice_no_taken,
    bind, query, raise, ret.
  destruct given as [no |].
  - destruct (truthy no).
    + destruct (existsb _ _); [split; [| left] |]; reflexivity.
    + destruct (Z.leb_spec (next_id db) max_int64);
        [reflexivity | split; [reflexivity | right; split; [reflexivity | lia]]].
  - destruct (Z.leb_spec (next_id db) max_int64);
      [reflexivity | split; [reflexivity | right; split; [reflexivity | lia]]].
Qed.

(** The two lookups by key, with the parameter bound first. *)
Lemma _fetch_client_run (cid : Z) (db : DB) :
  _fetch_client cid db =
    if in_int64 cid
    then Done (find (fun c => c_id c =? cid) (clients db)) db
    else Raised OverflowError db.
Proof.
  unfold _fetch_client, bind, bind_int, query, ret, raise.
  destruct (in_int64 cid); reflexivity.
Qed.

Lemma select_product_run (pid : Z) (db : DB) :
  select_product pid db =
    if in_int64 pid
    then Done (find (fun p => p_id p =? pid) (products db)) db
    else Raised OverflowError db.
Proof.
  unfold select_product, bind, bind_int, query, ret, raise.
  destruct (in_int64 pid); reflexivity.
Qed.

Lemma _fetch_client_in (cid : Z) (db : DB) :
  in_int64 cid = true ->
  _fetch_client cid db =
    Done (find (fun c => c_id c =? cid) (clients db)) db.
Proof. intros H. rewrite _fetch_client_run, H. reflexivity. Qed.

Lemma _fetch_client_out (cid : Z) (db : DB) :
  in_int64 cid = false -> _fetch_client cid db = Raised OverflowError db.
Proof. intros H. rewrite _fetch_client_run, H. reflexivity. Qed.

(** A row that a lookup finds has the key that was looked up, which is
    therefore an INTEGER. *)
Lemma find_client_key (cid : Z) (db : DB) (c : Client) :
  find (fun c => c_id c =? cid) (clients db) = Some c ->
  c_id c = cid /\ in_int64 cid = true.
Proof.
  intros H. apply find_some in H. destruct H as [_ H].
  apply Z.eqb_eq in H. split; [exact H |].
  rewrite <- H. apply c_id_range.
Qed.

Lemma find_product_key (pid : Z) (db : DB) (p : Product) :
  find (fun p => p_id p =? pid) (products db) = Some p ->
  p_id p = pid /\ in_int64 pid = true.
Proof.
  intros H. apply find_some in H. destruct H as [_ H].
  apply Z.eqb_eq in H. split; [exact H |].
  rewrite <- H. apply p_id_range.
Qed.

Lemma client_exists_find (db : DB) (p : InvoiceCreate) :
  client_exists db p = true <->
  exists c, find (fun c => c_id c =? client_id p) (clients db) = Some c.
Proof.
  unfold client_exists. split.
  - intros H. apply existsb_exists in H. destruct H as (c & Hin & Hc).
    destruct (find _ (clients db)) as [c' |] eqn:E; [eauto |].
    rewrite (find_none _ _ E c Hin) in Hc. discriminate Hc.
  - intros [c H]. apply find_some in H.
    apply existsb_exists. exists c. exact H.
Qed.

Lemma client_exists_in_range (db : DB) (p : InvoiceCreate) :
  client_exists db p = true -> in_int64 (client_id p) = true.
Proof.
  intros H. apply client_exists_find in H. destruct H as [c H].
  exact (proj2 (find_client_key _ _ _ H)).
Qed.

Lemma price_items_Done (its : list InvoiceItemCreate) :
  forall rows tot db out db',
    price_items its rows tot db = Done out db' ->
    db' = db /\
    exists new,
      fst out = rows ++ new /\
      Forall2 (priced db) its new /\
      snd out = sum_rows new tot.
Proof.
  induction its as [| it rest IH]; intros rows tot db out db' H; simpl in H.
  - injection H as <- <-. split; [reflexivity |].
    exists []. rewrite app_nil_r. repeat split. constructor.
  - unfold bind at 1 in H. rewrite select_product_run in H.
    destruct (in_int64 (ic_product_id it)); [| discriminate H].
    destruct (find _ (products db)) as [product |] eqn:Hfind;
      [| discriminate H].
    destruct (Float.mul_int _ _) as [line |] eqn:Hline; [| discriminate H].
    apply mul_int_Some in Hline. destruct Hline as [-> _].
    apply IH in H. destruct H as [-> (new & Hrows & Hpriced & Htot)].
    split; [reflexivity |].
    eexists (_ :: new). rewrite Hrows, <- app_assoc. simpl.
    repeat split.
    + constructor; [| exact Hpriced].
      exists product. split; [exact Hfind | reflexivity].
    + exact Htot.
Qed.

(** The first loop in closed form. *)
Lemma price_items_run (its : list InvoiceItemCreate) :
  forall rows tot db,
    match loop_failure db its with
    | None =>
        price_items its rows tot db =
          Done (rows ++ priced_rows db its,
                sum_rows (priced_rows db its) tot) db
    | Some (st, d) =>
        exists e,
          price_items its rows tot db = Raised e db /\
          reraise_or_500 (A := InvoiceResponse) (Raised e db) =
            (Failed st d, db)
    end.
Proof.
  induction its as [| it rest IH]; intros rows tot db.
  - simpl. unfold ret. rewrite app_nil_r. reflexivity.
  - cbn [loop_failure price_items priced_rows]. unfold bind at 1.
    unfold bind at 1. rewrite select_product_run.
    destruct (in_int64 (ic_product_id it)); cbn [negb];
      [| eexists; split; reflexivity].
    destruct (find _ (products db)) as [product |] eqn:Hfind;
      [| eexists; split; reflexivity].
    destruct (convertible (ic_quantity it)) eqn:Hconv; cbn [negb].
    + rewrite (mul_int_convertible _ _ Hconv).
      specialize (IH
        (rows ++ [mkItemResponse (p_id product) (p_name product)
                    (p_price product) (ic_quantity it)
                    (Float.mul (p_price product)
                       (Float.of_int (ic_quantity it)))])
        (Float.add tot (Float.mul (p_price product)
                          (Float.of_int (ic_quantity it)))) db).
      destruct (loop_failure db rest) as [[st d] |].
      * exact IH.
      * rewrite IH, <- app_assoc. reflexivity.
    + rewrite (proj2 (mul_int_None _ _) Hconv).
      eexists; split; reflexivity.
Qed.

Lemma sum_rows_spec (db : DB) (its : list InvoiceItemCreate) :
  forall new start,
    Forall2 (priced db) its new ->
    sum_rows new start =
      fold_left
        (fun acc it =>
           match price_of db (ic_product_id it) with
           | Some price =>
               Float.add acc (Float.mul (Float.of_int (ic_quantity it)) price)
           | None => acc
           end)
        its start.
Proof.
  induction its as [| it rest IH]; intros new start H;
    inversion H as [| ? row ? new' Hrow Hrest]; subst; simpl.
  - reflexivity.
  - destruct Hrow as (product & Hfind & ->). simpl.
    unfold price_of. rewrite Hfind. simpl.
    rewrite (mul_comm (Float.of_int _)).
    apply IH. exact Hrest.
Qed.

(** A case analysis on a test that keeps the terms that depend on its
    outcome as they are. *)
Ltac case_bool b H :=
  assert (b = true \/ b = false) as [H | H] by (destruct b; auto).

(** The header insert, by cases. *)
Lemma insert_invoice_cases (no issue due : string) (cid : Z) (addr : string)
    (tx total : float) (db : DB) :
  let id := next_rowid (map inv_id (invoices db)) (seq_invoices db) in
  let taken :=
    existsb (fun i => String.eqb (inv_invoice_no i) no) (invoices db) in
  match insert_invoice no issue due cid addr tx total db with
  | Done id' db' =>
      id' = id /\
      in_int64 cid = true /\ in_int64 id = true /\
      Float.is_nan tx = false /\ Float.is_nan total = false /\
      taken = false /\
      exists Hid Hcid,
        db' = mkDB (clients db) (products db)
                (invoices db ++
                   [mkInvoice id no issue due cid addr
                              (Float.real_column tx) total Hid Hcid])
                (invoice_items db) id (seq_invoice_items db)
  | Raised e db' =>
      db' = db /\
      e = (if negb (in_int64 cid) then OverflowError
           else if negb (in_int64 id) then rowids_exhausted
           else if Float.is_nan tx
           then Error "NOT NULL constraint failed: invoices.tax"
           else if Float.is_nan total
           then Error "NOT NULL constraint failed: invoices.total"
           else Error "UNIQUE constraint failed: invoices.invoice_no") /\
      in_int64 cid && in_int64 id && negb (Float.is_nan tx) &&
        negb (Float.is_nan total) && negb taken = false
  end.
Proof.
  intros id taken. subst taken. unfold insert_invoice. fold id.
  case_bool (in_int64 cid) Hcid;
    [rewrite (checked_true _ _ _ Hcid)
    | rewrite checked_false by exact Hcid; rewrite Hcid; repeat split].
  case_bool (in_int64 id) Hid;
    [rewrite (checked_true _ _ _ Hid)
    | rewrite checked_false by exact Hid; rewrite Hcid, Hid; repeat split].
  unfold not_null_real, invoice_no_taken, bind, query, raise, ret.
  destruct (Float.is_nan tx); cbv beta iota;
    [rewrite Hcid, Hid; repeat split |].
  destruct (Float.is_nan total); cbv beta iota;
    [rewrite Hcid, Hid; repeat split |].
  destruct (existsb _ (invoices db)); cbv beta iota;
    [rewrite Hcid, Hid; repeat split |].
  split; [reflexivity |]. do 5 (split; [assumption || reflexivity |]).
  exists Hid, Hcid. reflexivity.
Qed.

(** A line insert, by cases. *)
Lemma insert_invoice_item_cases (invoice_id product_id quantity : Z)
    (unit_price line_total : float) (db : DB) :
  let id := next_rowid (map it_id (invoice_items db))
                       (seq_invoice_items db) in
  match insert_invoice_item invoice_id product_id quantity unit_price
          line_total db with
  | Done _ db' =>
      in_int64 invoice_id = true /\ in_int64 product_id = true /\
      in_int64 quantity = true /\ in_int64 id = true /\
      Float.is_nan unit_price = false /\ Float.is_nan line_total = false /\
      exists Hid Hinvoice Hproduct Hquantity,
        db' = mkDB (clients db) (products db) (invoices db)
                (invoice_items db ++
                   [mkInvoiceItem id invoice_id product_id quantity
                      unit_price line_total
                      Hid Hinvoice Hproduct Hquantity])
                (seq_invoices db) id
  | Raised e db' =>
      db' = db /\
      e = (if in_int64 invoice_id && in_int64 product_id &&
              in_int64 quantity
           then if negb (in_int64 id) then rowids_exhausted
                else if Float.is_nan unit_price
                then Error "NOT NULL constraint failed: invoice_items.unit_price"
                else Error "NOT NULL constraint failed: invoice_items.line_total"
           else OverflowError) /\
      in_int64 invoice_id && in_int64 product_id && in_int64 quantity &&
        in_int64 id && negb (Float.is_nan unit_price) &&
        negb (Float.is_nan line_total) = false
  end.
Proof.
  intros id. unfold insert_invoice_item. fold id.
  case_bool (in_int64 invoice_id) Hinvoice;
    [rewrite (checked_true _ _ _ Hinvoice)
    | rewrite checked_false by exact Hinvoice; rewrite Hinvoice;
      repeat split].
  case_bool (in_int64 product_id) Hproduct;
    [rewrite (checked_true _ _ _ Hproduct)
    | rewrite checked_false by exact Hproduct; rewrite Hinvoice, Hproduct;
      repeat split].
  case_bool (in_int64 quantity) Hquantity;
    [rewrite (checked_true _ _ _ Hquantity)
    | rewrite checked_false by exact Hquantity;
      rewrite Hinvoice, Hproduct, Hquantity; repeat split].
  case_bool (in_int64 id) Hid;
    [rewrite (checked_true _ _ _ Hid)
    | rewrite checked_false by exact Hid;
      rewrite Hinvoice, Hproduct, Hquantity, Hid; repeat split].
  unfold not_null_real, bind, raise, ret.
  destruct (Float.is_nan unit_price); cbv beta iota;
    [rewrite Hinvoice, Hproduct, Hquantity, Hid; repeat split |].
  destruct (Float.is_nan line_total); cbv beta iota;
    [rewrite Hinvoice, Hproduct, Hquantity, Hid; repeat split |].
  do 6 (split; [assumption || reflexivity |]).
  exists Hid, Hinvoice, Hproduct, Hquantity. reflexivity.
Qed.

(** The rowid after a row that took the next rowid. *)
Lemma next_rowid_snoc (ids : list Z) (seq : Z) :
  next_rowid (ids ++ [next_rowid ids seq]) (next_rowid ids seq) =
    next_rowid ids seq + 1.
Proof.
  unfold next_rowid at 1. rewrite max_id_snoc.
  - simpl. lia.
  - apply next_rowid_above.
Qed.

(** What a successful run of the second loop did. *)
Lemma insert_items_Done (id : Z) (rows : list InvoiceItemResponse) :
  forall db u db',
    insert_items id rows db = Done u db' ->
    let first := next_rowid (map it_id (invoice_items db))
                            (seq_invoice_items db) in
    clients db' = clients db /\
    products db' = products db /\
    invoices db' = invoices db /\
    seq_invoices db' = seq_invoices db /\
    exists new,
      invoice_items db' = invoice_items db ++ new /\
      Forall2 (stores id) rows new /\
      StronglySorted (fun x y => it_id x < it_id y) new /\
      Forall (fun it => seq_invoice_items db < it_id it) new /\
      map it_id new = consecutive first (List.length rows) /\
      seq_invoice_items db' =
        match rows with
        | [] => seq_invoice_items db
        | _ :: _ => first + Z.of_nat (List.length rows) - 1
        end.
Proof.
  induction rows as [| row rest IH]; intros db u db' H first; simpl in H.
  - injection H as _ <-. repeat split.
    exists []. rewrite app_nil_r. repeat split; constructor.
  - unfold bind at 1 in H.
    pose proof (insert_invoice_item_cases id (ir_product_id row)
                  (ir_quantity row) (ir_unit_price row) (ir_line_total row)
                  db) as Hins.
    cbv zeta in Hins.
    destruct (insert_invoice_item _ _ _ _ _ db) as [u1 db1 | e db1];
      [| discriminate H].
    destruct Hins as (_ & _ & _ & _ & _ & _ & Hid & Hi & Hp & Hq & ->).
    apply IH in H. cbv zeta in H.
    cbn [clients products invoices invoice_items seq_invoices
         seq_invoice_items] in H.
    rewrite map_app in H. cbn [map it_id] in H.
    rewrite next_rowid_snoc in H. fold first in H.
    destruct H as (Hc & Hpr & Hinv & Hs & new & Hitems & Hst & Hsorted &
                   Habove & Hids & Hseq).
    repeat split; try assumption.
    eexists (_ :: new). rewrite Hitems, <- app_assoc.
    pose proof (next_rowid_above (map it_id (invoice_items db))
                  (seq_invoice_items db)) as [Hlt _]. fold first in Hlt.
    split; [reflexivity |].
    split; [constructor; [repeat split | exact Hst] |].
    split; [constructor; [exact Hsorted | exact Habove] |].
    split; [constructor; [exact Hlt |];
            eapply Forall_impl; [| exact Habove]; cbn beta; intros; lia |].
    split; [cbn [map it_id List.length consecutive]; rewrite Hids;
            reflexivity |].
    rewrite Hseq. destruct rest as [| row' rest']; cbn [List.length]; lia.
Qed.

(** The ids of a table are INTEGERs, so the next rowid is at least the
    smallest INTEGER. *)
Lemma max_id_in_range {A} (key : A -> Z) (l : list A) :
  (forall x, In x l -> in_int64 (key x) = true) ->
  min_int64 <= coalesce (max_id (map key l)) 0.
Proof.
  intros H. destruct (max_id (map key l)) as [m |] eqn:E; simpl.
  - apply max_id_member in E. apply in_map_iff in E.
    destruct E as (x & <- & Hx). apply H in Hx.
    apply in_int64_spec in Hx. lia.
  - unfold min_int64. lia.
Qed.

Lemma next_rowid_items_min (db : DB) :
  min_int64 <= next_rowid (map it_id (invoice_items db)) (seq_invoice_items db).
Proof.
  pose proof (max_id_in_range it_id (invoice_items db)
                (fun x _ => it_id_range x)).
  unfold next_rowid. lia.
Qed.

Lemma next_rowid_invoices_min (db : DB) :
  min_int64 <= next_rowid (map inv_id (invoices db)) (seq_invoices db).
Proof.
  pose proof (max_id_in_range inv_id (invoices db)
                (fun x _ => inv_id_range x)).
  unfold next_rowid. lia.
Qed.

Lemma next_id_min (db : DB) : min_int64 <= next_id db.
Proof.
  pose proof (max_id_in_range inv_id (invoices db)
                (fun x _ => inv_id_range x)).
  unfold next_id. lia.
Qed.

(** The second loop on rows that can be stored, in a table with room: it
    fails exactly when a quantity is not an INTEGER, with the driver's
    [OverflowError]. *)
Lemma insert_items_room (id : Z) (rows : list InvoiceItemResponse) :
  forall db,
    in_int64 id = true ->
    Forall (fun row => in_int64 (ir_product_id row) = true /\
                       Float.is_nan (ir_unit_price row) = false /\
                       Float.is_nan (ir_line_total row) = false) rows ->
    next_rowid (map it_id (invoice_items db)) (seq_invoice_items db) +
      Z.of_nat (List.length rows) - 1 <= max_int64 ->
    if forallb (fun row => in_int64 (ir_quantity row)) rows
    then exists db', insert_items id rows db = Done tt db'
    else exists db1, insert_items id rows db = Raised OverflowError db1.
Proof.
  induction rows as [| row rest IH]; intros db Hid Hrows Hroom.
  - simpl. eexists. reflexivity.
  - inversion Hrows as [| ? ? (Hp & Hu & Hl) Hrest]; subst.
    cbn [forallb insert_items]. unfold bind at 1. unfold bind at 1.
    pose proof (insert_invoice_item_cases id (ir_product_id row)
                  (ir_quantity row) (ir_unit_price row) (ir_line_total row)
                  db) as Hins.
    cbv zeta in Hins.
    pose proof (next_rowid_items_min db) as Hmin.
    assert (Hfirst : in_int64 (next_rowid (map it_id (invoice_items db))
                                 (seq_invoice_items db)) = true).
    { apply in_int64_spec. cbn [List.length] in Hroom. lia. }
    destruct (insert_invoice_item _ _ _ _ _ db) as [u1 db1 | e db1].
    + destruct Hins as (_ & _ & Hq & _ & _ & _ & H1 & H2 & H3 & H4 & ->).
      rewrite Hq. cbn [andb].
      apply IH; [exact Hid | exact Hrest |].
      cbn [invoice_items seq_invoice_items].
      rewrite map_app. cbn [map it_id]. rewrite next_rowid_snoc.
      cbn [List.length] in Hroom. lia.
    + destruct Hins as (-> & He & Hfail).
      rewrite Hid, Hp, Hfirst, Hu, Hl in Hfail.
      rewrite Hid, Hp in He. cbn [andb negb] in Hfail, He.
      rewrite !andb_true_r in Hfail. rewrite Hfail in He |- *.
      cbn [andb]. subst e. eexists. reflexivity.
Qed.

(** What a successful run of the transaction body did. *)
Lemma create_invoice_body_Done (p : InvoiceCreate) (db : DB)
    (r : InvoiceResponse) (db' : DB) :
  create_invoice_body p db = Done r db' ->
  let id := next_rowid (map inv_id (invoices db)) (seq_invoices db) in
  let first := next_rowid (map it_id (invoice_items db))
                          (seq_invoice_items db) in
  exists c no new Hid Hcid,
    find (fun c => c_id c =? client_id p) (clients db) = Some c /\
    resolve_invoice_no (invoice_no p) db = Done no db /\
    existsb (fun i => String.eqb (inv_invoice_no i) no) (invoices db) = false /\
    Forall2 (priced db) (items p) (r_items r) /\
    r = mkInvoiceResponse id no (issue_date p) (due_date p)
          (mkClientResponse (c_id c) (c_name c) (c_address c)
             (c_company_registration_no c))
          (resolve_address (address p) c) (r_items r) (tax p)
          (Float.add (sum_rows (r_items r) Float.zero) (tax p)) /\
    clients db' = clients db /\
    products db' = products db /\
    invoices db' =
      invoices db ++
        [mkInvoice id no (isoformat (issue_date p)) (isoformat (due_date p))
           (client_id p) (resolve_address (address p) c)
           (Float.real_column (tax p)) (r_total r) Hid Hcid] /\
    invoice_items db' = invoice_items db ++ new /\
    Forall2 (stores id) (r_items r) new /\
    StronglySorted (fun x y => it_id x < it_id y) new /\
    map it_id new = consecutive first (List.length (r_items r)) /\
    seq_invoices db' = id /\
    seq_invoice_items db' =
      match r_items r with
      | [] => seq_invoice_items db
      | _ :: _ => first + Z.of_nat (List.length (r_items r)) - 1
      end /\
    Forall (fun it => seq_invoice_items db < it_id it) new.
Proof.
  intros H id first.
  unfold create_invoice_body in H.
  unfold bind at 1 in H.
  case_bool (in_int64 (client_id p)) Hrange;
    [rewrite (_fetch_client_in _ _ Hrange) in H
    | rewrite (_fetch_client_out _ _ Hrange) in H; discriminate H].
  destruct (find _ (clients db)) as [c |] eqn:Hc; [| discriminate H].
  unfold bind at 1 in H.
  pose proof (resolve_invoice_no_reads (invoice_no p) db) as Hno.
  destruct (resolve_invoice_no (invoice_no p) db) as [no db1 | e db1];
    [subst db1 | discriminate H].
  unfold bind at 1 in H.
  destruct (price_items (items p) [] Float.zero db) as [out db1 | e db1]
    eqn:Hprice; [| discriminate H].
  apply price_items_Done in Hprice.
  destruct Hprice as [-> (rows & Hrows & Hpriced & Htot)].
  simpl in Hrows. rewrite Hrows, Htot in H. clear Hrows Htot out.
  unfold bind at 1 in H.
  pose proof (insert_invoice_cases no (isoformat (issue_date p))
                (isoformat (due_date p)) (client_id p)
                (resolve_address (address p) c) (tax p)
                (Float.add (sum_rows rows Float.zero) (tax p)) db) as Hins.
  cbv zeta in Hins. fold id in Hins.
  destruct (insert_invoice _ _ _ _ _ _ _ db) as [id' db1 | e db1];
    [| discriminate H].
  destruct Hins as (-> & _ & _ & _ & _ & Htaken & Hid & Hcid & ->).
  unfold bind at 1 in H.
  match type of H with
  | match insert_items ?i ?rs ?d with _ => _ end = _ =>
      destruct (insert_items i rs d) as [u db2 | e db2] eqn:Hitems;
        [| discriminate H]
  end.
  injection H as <- <-.
  apply insert_items_Done in Hitems. cbv zeta in Hitems.
  cbn [clients products invoices invoice_items seq_invoices
       seq_invoice_items] in Hitems. fold first in Hitems.
  destruct Hitems as (Hcl & Hpr & Hinv & Hs & new & Hit & Hst & Hsorted &
                      Habove & Hids & Hseq).
  exists c, no, new, Hid, Hcid. cbn [r_items r_total].
  repeat split; assumption.
Qed.

Lemma create_invoice_Returned (p : InvoiceCreate) (db : DB)
    (r : InvoiceResponse) (db' : DB) :
  create_invoice p db = (Returned r, db') ->
  items p <> [] /\ create_invoice_body p db = Done r db'.
Proof.
  unfold create_invoice, reraise_or_500, get_db. intros H.
  destruct (items p) as [| it rest]; [discriminate H |].
  split; [discriminate |].
  destruct (create_invoice_body p db) as [a db1 | [st d | msg] db1];
    try discriminate H.
  injection H as <- <-. reflexivity.
Qed.

(** A request that fails leaves the store as it was, whatever the block
    had written before it raised. *)
Lemma create_invoice_Failed (p : InvoiceCreate) (db : DB)
    (st : Z) (d : string) (db' : DB) :
  create_invoice p db = (Failed st d, db') -> db' = db.
Proof.
  unfold create_invoice, reraise_or_500, get_db. intros H.
  destruct (items p) as [| it rest]; [injection H as _ _ <-; reflexivity |].
  destruct (create_invoice_body p db) as [a db1 | [st' d' | msg] db1];
    try discriminate H; injection H as _ _ <-; reflexivity.
Qed.

(** Turns a hypothesis [create_invoice p db = (Returned r, db')] into the
    facts of [create_invoice_body_Done]. *)
Ltac created H :=
  apply create_invoice_Returned in H; destruct H as [_ H];
  apply create_invoice_body_Done in H; cbv zeta in H.

Example create_example :
  create_invoice example_payload upgrade = (Returned example_response, example_db).
Proof. vm_compute. reflexivity. Qed.

Example taken_db_created :
  snd (create_invoice
         (with_invoice_no (Some "INV-00002") example_payload) upgrade) =
    taken_db.
Proof. vm_compute. reflexivity. Qed.

(** ** Totals *)

(** C1.  Whenever [create_invoice] succeeds, the returned total, which is
    also the total stored in the new header, is [tax + Σ quantity_i × price_i]
    with every price read from the products table of the store the request
    ran against; every returned line, and every stored line, carries that
    price as its unit price and [unit_price × quantity] as its line total. *)
Theorem create_invoice_total (p : InvoiceCreate) (db : DB)
    (r : InvoiceResponse) (db' : DB) :
  create_invoice p db = (Returned r, db') ->
  r_total r = Float.add (tax p) (sum_of_lines db (items p)) /\
  option_map inv_total (stored_invoice db' (r_id r)) = Some (r_total r) /\
  Forall2
    (fun it row =>
       price_of db (ic_product_id it) = Some (ir_unit_price row) /\
       ir_quantity row = ic_quantity it /\
       ir_line_total row =
         Float.mul (ir_unit_price row) (Float.of_int (ir_quantity row)))
    (items p) (r_items r) /\
  exists lines,
    invoice_items db' = invoice_items db ++ lines /\
    Forall2
      (fun row line =>
         it_invoice_id line = r_id r /\
         it_unit_price line = ir_unit_price row /\
         it_quantity line = ir_quantity row /\
         it_line_total line =
           Float.mul (it_unit_price line) (Float.of_int (it_quantity line)))
      (r_items r) lines.
Proof.
  intros H. created H.
  destruct H as (c & no & new & Hidr & Hcidr & _ & _ & _ & Hpriced & Hr & _ &
                 _ & Hinv & Hitems & Hst & _).
  pose proof (f_equal r_id Hr) as Hid. simpl in Hid.
  pose proof (f_equal r_total Hr) as Htot. simpl in Htot. clear Hr.
  assert (Hlines : Forall2
    (fun it row =>
       price_of db (ic_product_id it) = Some (ir_unit_price row) /\
       ir_quantity row = ic_quantity it /\
       ir_line_total row =
         Float.mul (ir_unit_price row) (Float.of_int (ir_quantity row)))
    (items p) (r_items r)).
  { eapply Forall2_impl; [| exact Hpriced].
    intros it row (product & Hfind & ->). simpl.
    unfold price_of. rewrite Hfind. repeat split. }
  repeat split.
  - rewrite Htot, add_comm. f_equal.
    apply sum_rows_spec. exact Hpriced.
  - unfold stored_invoice. rewrite Hinv, Hid.
    erewrite find_app_fresh; [reflexivity | | simpl; apply Z.eqb_refl].
    intros y Hy. apply Z.eqb_neq.
    pose proof (next_rowid_above (map inv_id (invoices db)) (seq_invoices db))
      as [_ Hfresh].
    specialize (Hfresh (inv_id y) (in_map inv_id _ _ Hy)). lia.
  - exact Hlines.
  - exists new. split; [exact Hitems |].
    rewrite Hid. clear Hitems Hpriced Htot Hid Hinv.
    revert Hlines. generalize (items p).
    induction Hst as [| row line rows lines (Hli & _ & Hq & Hu & Hl) _ IH];
      intros its Hlines; [constructor |].
    inversion Hlines as [| it ? its' ? (_ & _ & Hlt) Hrest]; subst.
    constructor.
    + repeat split; try assumption.
      rewrite Hl, Hu, Hq. exact Hlt.
    + eapply IH. exact Hrest.
Qed.

(** ** Validation and lookup failures *)

(** C3.  A request without items is refused with status 400 before a
    session is opened: the store comes back exactly as it went in. *)
Theorem create_invoice_empty_items (p : InvoiceCreate) (db : DB) :
  items p = [] ->
  create_invoice p db =
    (Failed 400 "Invoice must include at least one item", db).
Proof.
  intros H. unfold create_invoice. rewrite H. reflexivity.
Qed.

Lemma client_exists_false (db : DB) (p : InvoiceCreate) :
  client_exists db p = false ->
  find (fun c => c_id c =? client_id p) (clients db) = None.
Proof.
  intros H. destruct (find _ (clients db)) as [c |] eqn:E; [| reflexivity].
  assert (client_exists db p = true)
    by (apply client_exists_find; eauto).
  congruence.
Qed.

(** The numbering step in closed form. *)
Lemma resolve_invoice_no_run (db : DB) (p : InvoiceCreate) :
  resolve_invoice_no (invoice_no p) db =
    if conflicts db p
    then Raised (HTTPException 409 "Invoice number already exists") db
    else if auto_numbered p && (max_int64 <? next_id db)
    then Raised (Error "Unknown format code 'd' for object of type 'float'")
                db
    else Done (resolved_no db p) db.
Proof.
  unfold conflicts, auto_numbered, resolved_no, generated_no,
    resolve_invoice_no, _generate_invoice_no, invoice_no_taken,
    bind, query, raise, ret.
  assert (Hgen :
    (if next_id db <=? max_int64
     then Done ("INV-" ++ format_05d (next_id db))%string db
     else Raised (Error "Unknown format code 'd' for object of type 'float'")
                 db) =
    (if max_int64 <? next_id db
     then Raised (Error "Unknown format code 'd' for object of type 'float'")
                 db
     else Done ("INV-" ++ format_05d (next_id db))%string db)).
  { destruct (Z.leb_spec (next_id db) max_int64),
             (Z.ltb_spec max_int64 (next_id db)); try reflexivity; lia. }
  destruct (invoice_no p) as [no |]; [| exact Hgen].
  destruct (truthy no); cbn [andb negb]; [| exact Hgen].
  destruct (existsb _ _); reflexivity.
Qed.

(** A missing product stops the first loop, unless an earlier item does. *)
Lemma loop_failure_missing (db : DB) (its : list InvoiceItemCreate)
    (pid : Z) :
  first_missing db its = Some pid ->
  (exists st d, loop_failure db its = Some (st, d) /\
                (st = 404 \/ st = 500)) /\
  (in_int64 pid = true ->
   Forall (fun it => convertible (ic_quantity it) = true)
          (before_missing db its) ->
   loop_failure db its =
     Some (404, ("Product not found: " ++ str_int pid)%string)).
Proof.
  induction its as [| it rest IH]; cbn [first_missing]; intros H;
    [discriminate H |].
  cbn [loop_failure before_missing].
  destruct (find _ (products db)) as [product |] eqn:Hfind.
  - rewrite (proj2 (find_product_key _ _ _ Hfind)). cbn [negb].
    destruct (IH H) as [H1 H2].
    destruct (convertible (ic_quantity it)) eqn:Hconv; cbn [negb].
    + split; [exact H1 |]. intros Hpid Hall.
      inversion Hall; subst. auto.
    + split; [eauto 6 |]. intros _ Hall.
      inversion Hall; subst. congruence.
  - injection H as <-.
    destruct (in_int64 (ic_product_id it)); cbn [negb].
    + split; [eauto 6 | reflexivity].
    + split; [eauto 6 | discriminate].
Qed.

(** The failures of the block before its first INSERT.  Each of them is
    raised with the store untouched. *)
Lemma create_invoice_body_early (p : InvoiceCreate) (db : DB) :
  (in_int64 (client_id p) = false ->
   create_invoice_body p db = Raised OverflowError db) /\
  (in_int64 (client_id p) = true -> client_exists db p = false ->
   create_invoice_body p db =
     Raised (HTTPException 404 "Client not found") db) /\
  (client_exists db p = true -> conflicts db p = true ->
   create_invoice_body p db =
     Raised (HTTPException 409 "Invoice number already exists") db) /\
  (client_exists db p = true -> conflicts db p = false ->
   auto_numbered p && (max_int64 <? next_id db) = true ->
   create_invoice_body p db =
     Raised (Error "Unknown format code 'd' for object of type 'float'") db) /\
  (forall st d,
     client_exists db p = true -> conflicts db p = false ->
     auto_numbered p && (max_int64 <? next_id db) = false ->
     loop_failure db (items p) = Some (st, d) ->
     exists e,
       create_invoice_body p db = Raised e db /\
       reraise_or_500 (A := InvoiceResponse) (Raised e db) =
         (Failed st d, db)).
Proof.
  split; [| split; [| split; [| split]]].
  - intros Hr. unfold create_invoice_body. unfold bind at 1.
    rewrite (_fetch_client_out _ _ Hr). reflexivity.
  - intros Hr Hc. apply client_exists_false in Hc.
    unfold create_invoice_body. unfold bind at 1.
    rewrite (_fetch_client_in _ _ Hr), Hc. reflexivity.
  - intros Hc Hk.
    pose proof (client_exists_in_range _ _ Hc) as Hr.
    apply client_exists_find in Hc. destruct Hc as [c Hfind].
    unfold create_invoice_body. unfold bind at 1.
    rewrite (_fetch_client_in _ _ Hr), Hfind.
    unfold bind at 1. rewrite resolve_invoice_no_run, Hk. reflexivity.
  - intros Hc Hk Hgen.
    pose proof (client_exists_in_range _ _ Hc) as Hr.
    apply client_exists_find in Hc. destruct Hc as [c Hfind].
    unfold create_invoice_body. unfold bind at 1.
    rewrite (_fetch_client_in _ _ Hr), Hfind.
    unfold bind at 1. rewrite resolve_invoice_no_run, Hk, Hgen. reflexivity.
  - intros st d Hc Hk Hgen Hloop.
    pose proof (client_exists_in_range _ _ Hc) as Hr.
    apply client_exists_find in Hc. destruct Hc as [c Hfind].
    pose proof (price_items_run (items p) [] Float.zero db) as Hrun.
    rewrite Hloop in Hrun. destruct Hrun as (e & Hrun & He).
    exists e. split; [| exact He].
    unfold create_invoice_body. unfold bind at 1.
    rewrite (_fetch_client_in _ _ Hr), Hfind.
    unfold bind at 1. rewrite resolve_invoice_no_run, Hk, Hgen.
    unfold bind at 1. rewrite Hrun. reflexivity.
Qed.

(** C2, as the code has it.  The products of all items are looked up before
    the first INSERT, so a request with a missing product never writes: the
    block raises with the store untouched and the request fails, with 404,
    409 or 500.  The failure is the 404 naming the first missing product id
    when every check in front of that lookup passes: the client exists, an
    explicit number is free and a generated one can be formed, the product
    id is an INTEGER of SQLite, and the quantities of the items in front of
    it can be converted to [float]. *)
Theorem create_invoice_missing_product (p : InvoiceCreate) (db : DB)
    (pid : Z) :
  first_missing db (items p) = Some pid ->
  (exists e, create_invoice_body p db = Raised e db) /\
  (exists st d, create_invoice p db = (Failed st d, db) /\
                (st = 404 \/ st = 409 \/ st = 500)) /\
  (client_exists db p = true -> conflicts db p = false ->
   (auto_numbered p = true -> next_id db <= max_int64) ->
   in_int64 pid = true ->
   Forall (fun it => convertible (ic_quantity it) = true)
          (before_missing db (items p)) ->
   create_invoice p db =
     (Failed 404 ("Product not found: " ++ str_int pid), db)).
Proof.
  intros Hmiss.
  assert (Hne : exists it rest, items p = it :: rest).
  { destruct (items p) as [| it rest]; [discriminate Hmiss | eauto]. }
  destruct Hne as (it & rest & Hitems).
  destruct (loop_failure_missing _ _ _ Hmiss) as [(st & d & Hloop & Hst) Hpid].
  destruct (create_invoice_body_early p db) as (Hov & Hnc & Hcf & Hgen & Hlp).
  unfold create_invoice, reraise_or_500, get_db. rewrite Hitems.
  case_bool (in_int64 (client_id p)) Hr.
  2: { rewrite (Hov Hr). unfold OverflowError.
       split; [eauto |]. split; [eauto 7 |].
       intros Hc. apply client_exists_in_range in Hc. congruence. }
  destruct (client_exists db p) eqn:Hc.
  2: { rewrite (Hnc Hr eq_refl).
       split; [eauto |]. split; [eauto 7 | discriminate]. }
  destruct (conflicts db p) eqn:Hk.
  { rewrite (Hcf eq_refl eq_refl).
    split; [eauto |]. split; [eauto 7 | discriminate]. }
  destruct (auto_numbered p && (max_int64 <? next_id db)) eqn:Hg.
  { rewrite (Hgen eq_refl eq_refl eq_refl).
    split; [eauto |]. split; [eauto 7 |].
    intros _ _ Hle. apply andb_prop in Hg. destruct Hg as [Ha Hlt].
    apply Z.ltb_lt in Hlt. specialize (Hle Ha). lia. }
  split; [| split].
  - destruct (Hlp st d eq_refl eq_refl eq_refl Hloop) as (e & -> & _). eauto.
  - destruct (Hlp st d eq_refl eq_refl eq_refl Hloop) as (e & -> & He).
    unfold reraise_or_500 in He. exists st, d.
    split; [exact He |]. destruct Hst; auto.
  - intros _ _ _ Hin Hall. rewrite <- Hitems in Hall.
    specialize (Hpid Hin Hall).
    destruct (Hlp _ _ eq_refl eq_refl eq_refl Hpid) as (e & -> & He).
    exact He.
Qed.

(** ** The stored header *)

(** The header a successful request stored, read back by id. *)
Lemma create_invoice_stored (p : InvoiceCreate) (db : DB)
    (r : InvoiceResponse) (db' : DB) :
  create_invoice p db = (Returned r, db') ->
  exists c Hid Hcid,
    find (fun c => c_id c =? client_id p) (clients db) = Some c /\
    resolve_invoice_no (invoice_no p) db = Done (r_invoice_no r) db /\
    r_address r = resolve_address (address p) c /\
    r_client r =
      mkClientResponse (c_id c) (c_name c) (c_address c)
                       (c_company_registration_no c) /\
    r_id r = next_rowid (map inv_id (invoices db)) (seq_invoices db) /\
    invoices db' =
      invoices db ++
        [mkInvoice (r_id r) (r_invoice_no r) (isoformat (issue_date p))
           (isoformat (due_date p)) (client_id p) (r_address r)
           (Float.real_column (tax p)) (r_total r) Hid Hcid] /\
    stored_invoice db' (r_id r) =
      Some (mkInvoice (r_id r) (r_invoice_no r) (isoformat (issue_date p))
              (isoformat (due_date p)) (client_id p) (r_address r)
              (Float.real_column (tax p)) (r_total r) Hid Hcid).
Proof.
  intros H. created H.
  destruct H as (c & no & new & Hidr & Hcidr & Hc & Hno & _ & _ & Hr & _ & _ &
                 Hinv & _).
  pose proof (f_equal r_id Hr) as Hid. simpl in Hid.
  pose proof (f_equal r_invoice_no Hr) as Hrno. simpl in Hrno.
  pose proof (f_equal r_address Hr) as Haddr. simpl in Haddr.
  pose proof (f_equal r_client Hr) as Hcl. simpl in Hcl.
  clear Hr. subst no.
  revert Hidr Hinv. rewrite <- Hid, <- Haddr. intros Hidr Hinv.
  exists c, Hidr, Hcidr. repeat split; try assumption.
  unfold stored_invoice. rewrite Hinv.
  apply find_app_fresh; [| simpl; apply Z.eqb_refl].
  intros y Hy. apply Z.eqb_neq. rewrite Hid.
  pose proof (next_rowid_above (map inv_id (invoices db)) (seq_invoices db))
    as [_ Hfresh].
  specialize (Hfresh (inv_id y) (in_map inv_id _ _ Hy)). lia.
Qed.

Lemma truthy_nonempty (s : string) : s <> "" -> truthy s = true.
Proof. destruct s; [congruence | reflexivity]. Qed.

(** ** Explicit invoice numbers *)

(** C4, as the code has it.  For a request with items, an existing client
    and a non-empty explicit number: when a stored invoice already has the
    number the request fails with 409 and the store is untouched; otherwise
    the numbering step yields the given number without consulting the
    generator, and a request that then succeeds returns and stores it
    verbatim. *)
Theorem create_invoice_explicit_number (p : InvoiceCreate) (db : DB)
    (no : string) :
  invoice_no p = Some no -> no <> "" ->
  items p <> [] -> client_exists db p = true ->
  if existsb (fun i => String.eqb (inv_invoice_no i) no) (invoices db)
  then create_invoice p db =
         (Failed 409 "Invoice number already exists", db) /\
       create_invoice_body p db =
         Raised (HTTPException 409 "Invoice number already exists") db
  else resolve_invoice_no (invoice_no p) db = Done no db /\
       forall r db',
         create_invoice p db = (Returned r, db') ->
         r_invoice_no r = no /\
         option_map inv_invoice_no (stored_invoice db' (r_id r)) = Some no.
Proof.
  intros Hno Hne Hitems Hclient.
  pose proof (resolve_invoice_no_run db p) as Hres.
  assert (Hconf : conflicts db p =
            existsb (fun i => String.eqb (inv_invoice_no i) no) (invoices db)).
  { unfold conflicts. rewrite Hno, (truthy_nonempty _ Hne). reflexivity. }
  assert (Hauto : auto_numbered p = false).
  { unfold auto_numbered. rewrite Hno, (truthy_nonempty _ Hne). reflexivity. }
  assert (Hrno : resolved_no db p = no).
  { unfold resolved_no. rewrite Hno, (truthy_nonempty _ Hne). reflexivity. }
  rewrite Hauto, Hrno in Hres. cbn [andb] in Hres.
  destruct (create_invoice_body_early p db) as (_ & _ & Hcf & _).
  specialize (Hcf Hclient). rewrite Hconf in Hres, Hcf. clear Hconf.
  destruct (existsb _ (invoices db)) eqn:Htaken.
  - specialize (Hcf eq_refl).
    split; [| exact Hcf].
    unfold create_invoice, reraise_or_500, get_db. rewrite Hcf.
    destruct (items p); [congruence | reflexivity].
  - split; [exact Hres |].
    intros r db' H. apply create_invoice_stored in H.
    destruct H as (c & Hid & Hcid & _ & Hr & _ & _ & _ & _ & Hstored).
    rewrite Hres in Hr. injection Hr as Hr.
    split; [congruence |].
    rewrite Hstored. simpl. congruence.
Qed.

(** ** The billing address *)

(** C8, as the code has it.  A successful request stores, and returns, the
    address of the request when that is a non-empty string, and the address
    of the client row when the request has no address or an empty one. *)
Theorem create_invoice_address (p : InvoiceCreate) (db : DB)
    (r : InvoiceResponse) (db' : DB) :
  create_invoice p db = (Returned r, db') ->
  exists c,
    find (fun c => c_id c =? client_id p) (clients db) = Some c /\
    option_map inv_address (stored_invoice db' (r_id r)) =
      Some (r_address r) /\
    (forall a, address p = Some a -> a <> "" -> r_address r = a) /\
    (address p = None \/ address p = Some "" -> r_address r = c_address c).
Proof.
  intros H. apply create_invoice_stored in H.
  destruct H as (c & Hid & Hcid & Hc & _ & Haddr & _ & _ & _ & Hstored).
  exists c. split; [exact Hc |]. split; [rewrite Hstored; reflexivity |].
  rewrite Haddr. unfold resolve_address. split.
  - intros a -> Hne. rewrite (truthy_nonempty _ Hne). reflexivity.
  - intros [-> | ->]; reflexivity.
Qed.

(** ** Reading and deleting *)

Lemma join_member {A B} (on : A -> B -> bool) (l : list A) (r : list B)
    (row : A * B) :
  In row (join on l r) ->
  In (fst row) l /\ In (snd row) r /\ on (fst row) (snd row) = true.
Proof.
  unfold join. intros H. apply in_flat_map in H.
  destruct H as (a & Ha & H). apply in_map_iff in H.
  destruct H as (b & <- & Hb). apply filter_In in Hb. simpl.
  destruct Hb as [Hb Hon]. repeat split; assumption.
Qed.

Lemma join_app {A B} (on : A -> B -> bool) (l l' : list A) (r : list B) :
  join on (l ++ l') r = join on l r ++ join on l' r.
Proof. unfold join. apply flat_map_app. Qed.


(** The header query of [get_invoice], with the parameter bound first. *)
Lemma select_invoice_run (id : Z) (db : DB) :
  select_invoice id db =
    if in_int64 id
    then Done (hd_error
                 (filter (fun row => inv_id (fst row) =? id)
                    (join (fun i c => c_id c =? inv_client_id i)
                          (invoices db) (clients db)))) db
    else Raised OverflowError db.
Proof.
  unfold select_invoice, bind, bind_int, query, ret, raise.
  destruct (in_int64 id); reflexivity.
Qed.

(** An id that is not an INTEGER of SQLite is refused by the driver. *)
Lemma get_invoice_out_of_range (id : Z) (db : DB) :
  in_int64 id = false ->
  get_invoice id db =
    (Failed 500
       "Database error: Python int too large to convert to SQLite INTEGER",
     db).
Proof.
  intros H. unfold get_invoice, get_db, get_invoice_body.
  unfold bind at 1. rewrite select_invoice_run, H. reflexivity.
Qed.

(** [get_invoice] on an id without a stored header. *)
Lemma get_invoice_missing (id : Z) (db : DB) :
  in_int64 id = true ->
  stored_invoice db id = None ->
  get_invoice id db = (Failed 404 "Invoice not found", db).
Proof.
  intros Hr H. unfold stored_invoice in H.
  unfold get_invoice, get_db, get_invoice_body.
  unfold bind at 1. rewrite select_invoice_run, Hr.
  rewrite filter_none; [reflexivity |].
  intros row Hrow. apply join_member in Hrow. destruct Hrow as [Hrow _].
  exact (find_none _ _ H _ Hrow).
Qed.

(** No stored invoice has an id outside the INTEGER range. *)
Lemma stored_invoice_out_of_range (id : Z) (db : DB) :
  in_int64 id = false -> stored_invoice db id = None.
Proof.
  intros H. unfold stored_invoice.
  destruct (find _ (invoices db)) as [i |] eqn:E; [| reflexivity].
  apply find_some in E. destruct E as [_ E]. apply Z.eqb_eq in E.
  pose proof (inv_id_range i) as Hi. rewrite E in Hi. congruence.
Qed.

(** The block of [delete_invoice], run to its end. *)
Lemma delete_invoice_body_run (id : Z) (db : DB) :
  delete_invoice_body id db =
    if in_int64 id then
      match stored_invoice db id with
      | None => Raised (HTTPException 404 "Invoice not found") db
      | Some _ =>
          Done tt
            (mkDB (clients db) (products db)
               (filter (fun i => negb (inv_id i =? id)) (invoices db))
               (filter (fun it => negb (it_invoice_id it =? id))
                       (invoice_items db))
               (seq_invoices db) (seq_invoice_items db))
      end
    else Raised OverflowError db.
Proof.
  unfold delete_invoice_body, stored_invoice, bind_int, query, bind, ret,
    raise.
  destruct (in_int64 id); [| reflexivity].
  destruct (find _ (invoices db)); reflexivity.
Qed.


Lemma stored_invoice_deleted (id : Z) (db : DB) (l : list InvoiceItem)
    (s1 s2 : Z) :
  stored_invoice
    (mkDB (clients db) (products db)
       (filter (fun i => negb (inv_id i =? id)) (invoices db)) l s1 s2) id
  = None.
Proof.
  unfold stored_invoice. simpl.
  destruct (find _ (filter _ _)) as [j |] eqn:Hj; [| reflexivity].
  apply find_some in Hj. destruct Hj as [Hin Hid].
  apply filter_In in Hin. destruct Hin as [_ Hneq].
  rewrite Hid in Hneq. discriminate Hneq.
Qed.

(** C7, as the code has it.  For an id that is an INTEGER of SQLite,
    [delete_invoice] on an id without a stored header fails with 404 and
    leaves the store as it is; on a stored invoice it first deletes the
    lines of the invoice, then the header; every other line and header, and
    the clients and products tables, stay as they were, and [get_invoice] on
    the id then fails with 404.  An id outside that range, which no stored
    invoice has, is answered with 500 and the text of the driver's
    [OverflowError], the store left as it is. *)
Theorem delete_invoice_spec (id : Z) (db : DB) :
  if in_int64 id then
    match stored_invoice db id with
    | None => delete_invoice id db = (Failed 404 "Invoice not found", db)
    | Some _ =>
        exists db1 db',
          delete_items_of id db = Done tt db1 /\
          delete_invoice_row id db1 = Done tt db' /\
          delete_invoice id db = (Returned tt, db') /\
          invoice_items db' =
            filter (fun it => negb (it_invoice_id it =? id))
                   (invoice_items db) /\
          invoices db' =
            filter (fun i => negb (inv_id i =? id)) (invoices db) /\
          stored_items db' id = [] /\
          stored_invoice db' id = None /\
          clients db' = clients db /\
          products db' = products db /\
          get_invoice id db' = (Failed 404 "Invoice not found", db')
    end
  else
    stored_invoice db id = None /\
    delete_invoice id db =
      (Failed 500
         "Database error: Python int too large to convert to SQLite INTEGER",
       db).
Proof.
  pose proof (delete_invoice_body_run id db) as Hbody.
  unfold delete_invoice, get_db. rewrite Hbody. clear Hbody.
  destruct (in_int64 id) eqn:Hr.
  2: { split; [apply stored_invoice_out_of_range; exact Hr | reflexivity]. }
  destruct (stored_invoice db id) as [i |]; [| reflexivity].
  eexists. eexists.
  split; [reflexivity |]. split; [reflexivity |].
  split; [reflexivity |]. simpl.
  repeat split.
  - unfold stored_items. simpl. apply filter_none.
    intros it Hit. apply filter_In in Hit. destruct Hit as [_ Hneq].
    destruct (it_invoice_id it =? id); [discriminate Hneq | reflexivity].
  - apply stored_invoice_deleted.
  - apply get_invoice_missing; [exact Hr | apply stored_invoice_deleted].
Qed.

(** ** Dates as ISO-8601 text *)

Lemma digit_val_digit (n : Z) : 0 <= n <= 9 -> digit_val (digit n) = Some n.
Proof.
  intros H. unfold digit_val, digit.
  rewrite nat_ascii_embedding by lia.
  replace (Z.of_nat (48 + Z.to_nat n)) with (48 + n) by lia.
  destruct (Z.leb_spec 48 (48 + n)); [| lia].
  destruct (Z.leb_spec (48 + n) 57); [| lia].
  cbn [andb]. f_equal. lia.
Qed.

Lemma decimal_split_4 (y : Z) :
  0 <= y <= 9999 ->
  0 <= y / 1000 <= 9 /\ 0 <= y / 100 mod 10 <= 9 /\
  0 <= y / 10 mod 10 <= 9 /\ 0 <= y mod 10 <= 9 /\
  1000 * (y / 1000) + 100 * (y / 100 mod 10) + 10 * (y / 10 mod 10)
    + y mod 10 = y.
Proof. intros H. Z.to_euclidean_division_equations; lia. Qed.

Lemma decimal_split_2 (m : Z) :
  0 <= m <= 99 ->
  0 <= m / 10 <= 9 /\ 0 <= m mod 10 <= 9 /\ 10 * (m / 10) + m mod 10 = m.
Proof. intros H. Z.to_euclidean_division_equations; lia. Qed.

Lemma extended_isoformat (d : date) :
  valid_date d = true ->
  extended (isoformat d) = Some (year d, month d, day d).
Proof.
  intros Hv.
  unfold valid_date in Hv.
  repeat (apply andb_prop in Hv; destruct Hv as [Hv ?]).
  assert (Hdim : days_in_month (year d) (month d) <= 31).
  { unfold days_in_month.
    repeat match goal with |- context [if ?b then _ else _] => destruct b end;
      lia. }
  destruct d as [y m dd]. cbn [year month day] in *.
  repeat match goal with H : (_ <=? _) = true |- _ => apply Z.leb_le in H end.
  destruct (decimal_split_4 y) as (Y1 & Y2 & Y3 & Y4 & Yeq); [lia |].
  destruct (decimal_split_2 m) as (M1 & M2 & Meq); [lia |].
  destruct (decimal_split_2 dd) as (D1 & D2 & Deq); [lia |].
  unfold isoformat, extended.
  cbv beta iota zeta delta [year month day].
  rewrite !digit_val_digit by assumption.
  rewrite Yeq, Meq, Deq. reflexivity.
Qed.

Lemma fromisoformat_isoformat (d : date) :
  valid_date d = true -> fromisoformat (isoformat d) = Some d.
Proof.
  intros Hvalid. unfold fromisoformat.
  rewrite (extended_isoformat _ Hvalid).
  destruct d as [y m dd]. cbn [year month day] in *.
  rewrite Hvalid. reflexivity.
Qed.

(** ** Reading back a created invoice *)

Lemma StronglySorted_map_key {A B} (g : A -> B) (k : B -> Z) (l : list A) :
  StronglySorted (fun x y => k x < k y) (map g l) ->
  StronglySorted (fun x y => k (g x) < k (g y)) l.
Proof.
  induction l as [| a l IH]; intros H; [constructor |].
  simpl in H. inversion H as [| ? ? Hs Hall]; subst.
  constructor; [apply IH; exact Hs |].
  apply Forall_forall. intros x Hx.
  rewrite Forall_forall in Hall. apply Hall. apply in_map. exact Hx.
Qed.

Lemma join_new_lines (db : DB) (id : Z) :
  products_keyed db ->
  forall its rows new,
    Forall2 (priced db) its rows ->
    Forall2 (stores id) rows new ->
    let joined :=
      join (fun it p => p_id p =? it_product_id it) new (products db) in
    map fst joined = new /\
    map (fun row =>
           mkItemResponse (it_product_id (fst row)) (p_name (snd row))
                          (it_unit_price (fst row)) (it_quantity (fst row))
                          (it_line_total (fst row))) joined = rows.
Proof.
  intros Hkey its. induction its as [| it its IH]; intros rows new Hp Hs.
  - inversion Hp; subst. inversion Hs; subst. split; reflexivity.
  - inversion Hp as [| ? row ? rows' (product & Hfind & Hrow) Hp']; subst.
    inversion Hs as [| ? line ? new' (Hli & Hpid & Hq & Hu & Hl) Hs']; subst.
    specialize (IH _ _ Hp' Hs'). cbv zeta in IH. destruct IH as [IH1 IH2].
    cbv zeta. unfold join in *. simpl flat_map.
    pose proof (find_some _ _ Hfind) as [_ Hk]. apply Z.eqb_eq in Hk.
    simpl in Hpid. rewrite Hk in Hpid. rewrite Hpid.
    rewrite (filter_key_find p_id (products db) (ic_product_id it) product
               Hkey Hfind).
    simpl. rewrite IH1, IH2. split; [reflexivity |].
    f_equal. simpl in *. rewrite Hpid, Hq, Hu, Hl, Hk. reflexivity.
Qed.

(** C6.  Round trip.  On a store whose product ids are a key and whose
    lines all belong to stored invoices, after a successful [create_invoice]
    with the dates of a [date] value, [get_invoice] on the returned id
    succeeds without changing the store and returns the total, the lines
    (product id, name, unit price, quantity and line total, in the order of
    the request) and the client of the creation response. *)
Theorem get_after_create (p : InvoiceCreate) (db : DB)
    (r : InvoiceResponse) (db' : DB) :
  products_keyed db -> no_orphans db ->
  valid_date (issue_date p) = true -> valid_date (due_date p) = true ->
  create_invoice p db = (Returned r, db') ->
  exists g,
    get_invoice (r_id r) db' = (Returned g, db') /\
    r_total g = r_total r /\
    r_items g = r_items r /\
    r_client g = r_client r.
Proof.
  intros Hkey Horph Hd1 Hd2 H.
  destruct (create_invoice_stored _ _ _ _ H)
    as (c & Hrid & Hrcid & Hc & _ & _ & Hcl & Hid & Hinv & _).
  created H.
  destruct H as (c' & no & new & _ & _ & _ & _ & _ & Hpriced & _ & Hclients &
                 Hproducts & _ & Hitems & Hst & Hsorted & _).
  clear c'.
  rewrite <- Hid in Hst.
  pose proof (next_rowid_above (map inv_id (invoices db)) (seq_invoices db))
    as [_ Hfresh]. rewrite <- Hid in Hfresh.
  set (hdr := mkInvoice (r_id r) (r_invoice_no r) (isoformat (issue_date p))
                (isoformat (due_date p)) (client_id p) (r_address r)
                (Float.real_column (tax p)) (r_total r) Hrid Hrcid) in *.
  assert (Hsel : select_invoice (r_id r) db' = Done (Some (hdr, c)) db').
  { rewrite select_invoice_run, Hrid. f_equal.
    rewrite Hinv, Hclients, join_app, filter_app.
    rewrite filter_none.
    - unfold join. simpl. rewrite app_nil_r.
      rewrite <- hd_error_filter_find in Hc.
      destruct (filter _ (clients db)) as [| c0 l]; [discriminate Hc |].
      injection Hc as ->. simpl. rewrite Z.eqb_refl. reflexivity.
    - intros row Hrow. apply join_member in Hrow. destruct Hrow as [Hrow _].
      apply Z.eqb_neq.
      specialize (Hfresh _ (in_map inv_id _ _ Hrow)). lia. }
  assert (Hit : select_items (r_id r) db' = Done (r_items r) db').
  { unfold select_items, query. f_equal.
    rewrite Hitems, Hproducts, join_app, filter_app.
    rewrite filter_none.
    - destruct (join_new_lines db (r_id r) Hkey _ _ _ Hpriced Hst)
        as [Hfst Hrows].
      simpl. rewrite filter_all.
      + rewrite order_by_sorted; [exact Hrows |].
        apply StronglySorted_map_key with (g := fst) (k := it_id).
        rewrite Hfst. exact Hsorted.
      + intros row Hrow. apply Z.eqb_eq.
        assert (Hin : In (fst row) new)
          by (rewrite <- Hfst; apply in_map; exact Hrow).
        clear - Hin Hst.
        induction Hst as [| ? ? ? ? (Hli & _) _ IH]; [destruct Hin |].
        destruct Hin as [<- | Hin]; [exact Hli | exact (IH Hin)].
    - intros row Hrow. apply join_member in Hrow. destruct Hrow as [Hrow _].
      apply Z.eqb_neq. specialize (Horph _ Hrow).
      specialize (Hfresh _ Horph). lia. }
  unfold get_invoice, get_db, get_invoice_body.
  unfold bind at 1. rewrite Hsel.
  unfold bind at 1. rewrite Hit.
  unfold bind, parse_date, ret. subst hdr.
  cbn [inv_issue_date inv_due_date].
  rewrite (fromisoformat_isoformat _ Hd1), (fromisoformat_isoformat _ Hd2).
  eexists. split; [reflexivity |]. cbn [r_total r_items r_client inv_total].
  repeat split. symmetry. exact Hcl.
Qed.

(** ** Requests that do not write *)

Lemma get_invoice_reads (id : Z) (db : DB) : snd (get_invoice id db) = db.
Proof.
  unfold get_invoice, get_db, reraise_or_500.
  destruct (get_invoice_body id db) as [g db1 | [st d | msg] db1] eqn:H;
    try reflexivity.
  unfold get_invoice_body in H. unfold bind at 1 in H.
  rewrite select_invoice_run in H.
  destruct (in_int64 id); [| discriminate H].
  unfold select_items, parse_date, bind, query, raise, ret in H.
  destruct (hd_error _) as [[i c] |]; [| discriminate H].
  destruct (fromisoformat (inv_issue_date i)); [| discriminate H].
  destruct (fromisoformat (inv_due_date i)); [| discriminate H].
  injection H as _ <-. reflexivity.
Qed.

Lemma list_invoices_reads (db : DB) : snd (list_invoices db) = db.
Proof. reflexivity. Qed.

Lemma create_invoice_cases (p : InvoiceCreate) (db : DB) :
  (exists r, create_invoice p db = (Returned r, snd (create_invoice p db))) \/
  (succeeded (fst (create_invoice p db)) = false /\
   snd (create_invoice p db) = db).
Proof.
  destruct (create_invoice p db) as [[r | st d] db'] eqn:H.
  - left. eauto.
  - right. split; [reflexivity |]. exact (create_invoice_Failed _ _ _ _ _ H).
Qed.

Lemma delete_invoice_tables (id : Z) (db : DB) :
  snd (delete_invoice id db) = db \/
  (invoices (snd (delete_invoice id db)) =
     filter (fun i => negb (inv_id i =? id)) (invoices db) /\
   invoice_items (snd (delete_invoice id db)) =
     filter (fun it => negb (it_invoice_id it =? id)) (invoice_items db) /\
   products (snd (delete_invoice id db)) = products db /\
   clients (snd (delete_invoice id db)) = clients db).
Proof.
  unfold delete_invoice, get_db. rewrite delete_invoice_body_run.
  destruct (in_int64 id); [| left; reflexivity].
  destruct (stored_invoice db id).
  - right. simpl. repeat split.
  - left. reflexivity.
Qed.

(** ** Stored invoice numbers *)

Lemma resolve_invoice_no_nonempty (given : option string) (db : DB)
    (no : string) (db' : DB) :
  resolve_invoice_no given db = Done no db' -> no <> "".
Proof.
  unfold resolve_invoice_no, _generate_invoice_no, invoice_no_taken,
    bind, query, raise, ret.
  destruct given as [s |].
  - destruct (truthy s) eqn:Hs.
    + destruct (existsb _ _); [discriminate |].
      intros [= <- _]. destruct s; [discriminate Hs | discriminate].
    + destruct (next_id db <=? max_int64); [| discriminate].
      intros [= <- _]. discriminate.
  - destruct (next_id db <=? max_int64); [| discriminate].
    intros [= <- _]. discriminate.
Qed.

Lemma existsb_eqb_In (l : list Invoice) (no : string) :
  existsb (fun i => String.eqb (inv_invoice_no i) no) l = false ->
  ~ In no (map inv_invoice_no l).
Proof.
  induction l as [| a l IH]; simpl; [tauto |].
  intros H. apply orb_false_iff in H. destruct H as [Ha Hl].
  intros [Heq | Hin]; [| exact (IH Hl Hin)].
  apply String.eqb_neq in Ha. congruence.
Qed.

Lemma NoDup_map_filter {A B} (f : A -> B) (g : A -> bool) (l : list A) :
  NoDup (map f l) -> NoDup (map f (filter g l)).
Proof.
  induction l as [| a l IH]; simpl; intros H; [constructor |].
  inversion H as [| ? ? Hnotin Hnd]; subst.
  destruct (g a); simpl; [| exact (IH Hnd)].
  constructor; [| exact (IH Hnd)].
  intros Hin. apply Hnotin. apply in_map_iff in Hin.
  destruct Hin as (x & Hx & Hin). apply filter_In in Hin.
  rewrite <- Hx. apply in_map. exact (proj1 Hin).
Qed.

Lemma NoDup_snoc {A} (l : list A) (x : A) :
  NoDup l -> ~ In x l -> NoDup (l ++ [x]).
Proof.
  induction 1 as [| a l Hnotin Hnd IH]; intros Hx; simpl.
  - constructor; [intros [] | constructor].
  - constructor.
    + intros Hin. apply in_app_or in Hin. destruct Hin as [Hin | [<- | []]].
      * exact (Hnotin Hin).
      * apply Hx. left. reflexivity.
    + apply IH. intros Hin. apply Hx. right. exact Hin.
Qed.

(** One request keeps the stored numbers non-empty and pairwise distinct. *)
Lemma handle_numbers (rq : request) (db : DB) :
  (numbers_nonempty db -> numbers_nonempty (handle rq db)) /\
  (numbers_unique db -> numbers_unique (handle rq db)).
Proof.
  destruct rq as [p | | id | id]; simpl handle.
  - destruct (create_invoice_cases p db) as [[r H] | [_ ->]]; [| tauto].
    destruct (create_invoice_stored _ _ _ _ H)
      as (c & Hrid & Hrcid & _ & Hno & _ & _ & _ & Hinv & _).
    pose proof (resolve_invoice_no_nonempty _ _ _ _ Hno) as Hne.
    created H.
    destruct H as (_ & no & _ & _ & _ & _ & Hno' & Hfree & _).
    rewrite Hno in Hno'. injection Hno' as <-.
    unfold numbers_nonempty, numbers_unique. rewrite Hinv. split.
    + intros Hall. apply Forall_app. split; [exact Hall |].
      constructor; [exact Hne | constructor].
    + intros Hnd. rewrite map_app. simpl.
      apply NoDup_snoc; [exact Hnd |].
      apply existsb_eqb_In. exact Hfree.
  - tauto.
  - rewrite get_invoice_reads. tauto.
  - destruct (delete_invoice_tables id db) as [-> | (Hinv & _)]; [tauto |].
    unfold numbers_nonempty, numbers_unique. rewrite Hinv. split.
    + intros Hall. apply Forall_forall. intros i Hi.
      apply filter_In in Hi. rewrite Forall_forall in Hall.
      exact (Hall i (proj1 Hi)).
    + apply NoDup_map_filter.
Qed.

Lemma run_numbers (rqs : list request) :
  forall db,
    (numbers_nonempty db -> numbers_nonempty (run rqs db)) /\
    (numbers_unique db -> numbers_unique (run rqs db)).
Proof.
  induction rqs as [| rq rest IH]; intros db; [simpl; tauto |].
  change (run (rq :: rest) db) with (run rest (handle rq db)).
  destruct (handle_numbers rq db) as [H1 H2].
  destruct (IH (handle rq db)) as [H3 H4]. auto.
Qed.

(** C10.  The empty string as explicit invoice number is treated like no
    number: the numbering step goes straight to the generator, without the
    conflict check, and the whole request behaves as the one without a
    number.  Every number a successful request stores is non-empty, so a
    store whose numbers are non-empty keeps them so along any history. *)
Theorem empty_invoice_no_generates (p : InvoiceCreate) (db : DB) :
  resolve_invoice_no (Some "") db = _generate_invoice_no db /\
  create_invoice (with_invoice_no (Some "") p) db =
    create_invoice (with_invoice_no None p) db /\
  (forall r db',
     create_invoice p db = (Returned r, db') ->
     r_invoice_no r <> "" /\
     option_map inv_invoice_no (stored_invoice db' (r_id r)) =
       Some (r_invoice_no r)) /\
  (forall rqs, numbers_nonempty db -> numbers_nonempty (run rqs db)).
Proof.
  split; [reflexivity |]. split; [reflexivity |]. split.
  - intros r db' H.
    destruct (create_invoice_stored _ _ _ _ H)
      as (c & Hrid & Hrcid & _ & Hno & _ & _ & _ & _ & Hst).
    split; [exact (resolve_invoice_no_nonempty _ _ _ _ Hno) |].
    rewrite Hst. reflexivity.
  - intros rqs. exact (proj1 (run_numbers rqs db)).
Qed.

(** ** Generated numbers along a history *)

Lemma create_invoice_next_id (p : InvoiceCreate) (db : DB)
    (r : InvoiceResponse) (db' : DB) :
  create_invoice p db = (Returned r, db') -> next_id db < next_id db'.
Proof.
  intros H.
  destruct (create_invoice_stored _ _ _ _ H)
    as (c & Hrid & Hrcid & _ & _ & _ & _ & Hid & Hinv & _).
  unfold next_id. rewrite Hinv, map_app. simpl map.
  pose proof (next_rowid_above (map inv_id (invoices db)) (seq_invoices db))
    as [_ Hfresh].
  rewrite max_id_snoc by (rewrite Hid; exact Hfresh).
  rewrite Hid. unfold next_rowid. simpl. lia.
Qed.

Lemma map_filter_key {A} (key : A -> Z) (g : Z -> bool) (l : list A) :
  map key (filter (fun a => g (key a)) l) = filter g (map key l).
Proof.
  induction l as [| a l IH]; simpl; [reflexivity |].
  destruct (g (key a)); simpl; rewrite IH; reflexivity.
Qed.

Lemma handle_next_id (rq : request) (db : DB) :
  match rq with
  | Delete id => max_id (map inv_id (invoices db)) <> Some id
  | _ => True
  end ->
  next_id db <= next_id (handle rq db).
Proof.
  destruct rq as [p | | id | id]; simpl handle; intros Hk.
  - destruct (create_invoice_cases p db) as [[r H] | [_ ->]]; [| lia].
    apply create_invoice_next_id in H. lia.
  - simpl. lia.
  - rewrite get_invoice_reads. lia.
  - destruct (delete_invoice_tables id db) as [-> | (Hinv & _)]; [lia |].
    unfold next_id. rewrite Hinv.
    rewrite (map_filter_key inv_id (fun y => negb (y =? id))),
      (max_id_filter_other _ _ Hk). lia.
Qed.

Lemma auto_numbers_lower (rqs : list request) :
  forall db,
    keeps_newest rqs db ->
    Forall (fun n => next_id db <= n) (auto_numbers rqs db).
Proof.
  induction rqs as [| rq rest IH]; intros db Hk; [constructor |].
  destruct Hk as [Hrq Hrest]. simpl auto_numbers.
  pose proof (handle_next_id rq db Hrq) as Hmono.
  apply Forall_app. split.
  - destruct rq as [p | | id | id]; try constructor.
    destruct (auto_numbered p && succeeded (fst (create_invoice p db)));
      repeat constructor. lia.
  - eapply Forall_impl; [| exact (IH _ Hrest)]. simpl. intros; lia.
Qed.

Lemma auto_numbers_sorted (rqs : list request) :
  forall db,
    keeps_newest rqs db -> StronglySorted Z.lt (auto_numbers rqs db).
Proof.
  induction rqs as [| rq rest IH]; intros db Hk; [constructor |].
  destruct Hk as [Hrq Hrest]. simpl auto_numbers.
  specialize (IH _ Hrest).
  pose proof (auto_numbers_lower rest _ Hrest) as Hlow.
  destruct rq as [p | | id | id]; try exact IH.
  destruct (auto_numbered p && succeeded (fst (create_invoice p db))) eqn:Hb;
    [| exact IH].
  simpl. constructor; [exact IH |].
  apply andb_prop in Hb. destruct Hb as [_ Hs].
  simpl handle in *.
  destruct (create_invoice_cases p db) as [[r H] | [Hf _]];
    [| congruence].
  apply create_invoice_next_id in H.
  eapply Forall_impl; [| exact Hlow]. simpl. intros; lia.
Qed.

(** C5, as the code has it.  A generated number is [INV-] followed by one
    more than the largest stored invoice id (0 for an empty table), zero
    padded to at least five digits.  A request that succeeds with it had no
    stored invoice of that number, and the stored numbers stay pairwise
    distinct along every history.  The generated numbers increase strictly
    in assignment order along every history that never deletes the invoice
    holding the largest id at the time of the deletion. *)
Theorem generated_numbers (db : DB) :
  (forall p r db',
     auto_numbered p = true ->
     create_invoice p db = (Returned r, db') ->
     r_invoice_no r =
       ("INV-" ++
        format_05d (coalesce (max_id (map inv_id (invoices db))) 0 + 1))%string
     /\ ~ In (r_invoice_no r) (map inv_invoice_no (invoices db))) /\
  (forall rqs, numbers_unique db -> numbers_unique (run rqs db)) /\
  (forall rqs, keeps_newest rqs db ->
     StronglySorted Z.lt (auto_numbers rqs db)).
Proof.
  split; [| split].
  - intros p r db' Hauto H.
    destruct (create_invoice_stored _ _ _ _ H)
      as (c & Hrid & Hrcid & _ & Hno & _).
    created H.
    destruct H as (_ & no & _ & _ & _ & _ & Hno' & Hfree & _).
    rewrite Hno in Hno'. injection Hno' as <-.
    split; [| apply existsb_eqb_In; exact Hfree].
    assert (Hgen : _generate_invoice_no db = Done (r_invoice_no r) db).
    { unfold auto_numbered in Hauto. unfold resolve_invoice_no in Hno.
      destruct (invoice_no p) as [s |]; [| exact Hno].
      apply negb_true_iff in Hauto. rewrite Hauto in Hno. exact Hno. }
    unfold _generate_invoice_no, next_id in Hgen.
    destruct (_ <=? max_int64); [| discriminate Hgen].
    injection Hgen as <-. reflexivity.
  - intros rqs. exact (proj2 (run_numbers rqs db)).
  - intros rqs. apply auto_numbers_sorted.
Qed.


(** ** The schema invariants along a history *)

Lemma handle_invariants (rq : request) (db : DB) :
  products_keyed db /\ no_orphans db ->
  products_keyed (handle rq db) /\ no_orphans (handle rq db).
Proof.
  intros [Hkey Horph].
  destruct rq as [p | | id | id]; simpl handle.
  - destruct (create_invoice_cases p db) as [[r H] | [_ ->]]; [| tauto].
    destruct (create_invoice_stored _ _ _ _ H)
      as (c & Hrid & Hrcid & _ & _ & _ & _ & Hid & Hinv & _).
    created H.
    destruct H as (_ & no & new & _ & _ & _ & _ & _ & _ & _ & _ & Hprod & _ &
                   Hitems & Hst & _).
    rewrite <- Hid in Hst.
    unfold products_keyed, no_orphans.
    rewrite Hprod, Hitems, Hinv, map_app. split; [exact Hkey |].
    intros it Hit. apply in_or_app. apply in_app_or in Hit.
    destruct Hit as [Hit | Hit]; [left; exact (Horph it Hit) |].
    right. left. simpl.
    clear - Hit Hst.
    induction Hst as [| ? ? ? ? (Hli & _) _ IH]; [destruct Hit |].
    destruct Hit as [<- | Hit]; [symmetry; exact Hli | exact (IH Hit)].
  - tauto.
  - rewrite get_invoice_reads. tauto.
  - destruct (delete_invoice_tables id db)
      as [-> | (Hinv & Hitems & Hprod & _)]; [tauto |].
    unfold products_keyed, no_orphans.
    rewrite Hprod, Hitems, Hinv. split; [exact Hkey |].
    intros it Hit. apply filter_In in Hit. destruct Hit as [Hit Hne].
    specialize (Horph it Hit). apply in_map_iff in Horph.
    destruct Horph as (i & Hi & Hin).
    apply in_map_iff. exists i. split; [exact Hi |].
    apply filter_In. split; [exact Hin |]. rewrite Hi. exact Hne.
Qed.

(** Every store reached from the migrated one satisfies them. *)
Lemma run_invariants (rqs : list request) :
  forall db,
    products_keyed db /\ no_orphans db ->
    products_keyed (run rqs db) /\ no_orphans (run rqs db).
Proof.
  induction rqs as [| rq rest IH]; intros db H; [exact H |].
  change (run (rq :: rest) db) with (run rest (handle rq db)).
  apply IH. apply handle_invariants. exact H.
Qed.

Lemma upgrade_invariants : products_keyed upgrade /\ no_orphans upgrade.
Proof.
  split.
  - unfold products_keyed. simpl.
    repeat (constructor; [simpl; intuition discriminate |]). constructor.
  - intros it [].
Qed.

(** ** Storage failures *)

(** The block of [list_invoices] runs one query without parameters, for
    which the store has no failure. *)
Lemma list_invoices_body_Done (db : DB) :
  exists l, list_invoices_body db = Done l db.
Proof. unfold list_invoices_body, query. eauto. Qed.

(** C9, as the code has it.  Whatever exception other than [HTTPException]
    the block of an endpoint raises, the endpoint rolls the session back and
    answers 500 with the detail ["Database error: "] followed by the text of
    that exception.  For [get_invoice] and [delete_invoice] an id outside
    SQLite's INTEGER range is such a failure, raised by the driver when the
    id is bound; the block of [list_invoices], one query without
    parameters, has none. *)
Theorem storage_failure_surfaced :
  (forall (A : Type) (body : M A) db msg db1,
     body db = Raised (Error msg) db1 ->
     reraise_or_500 (get_db body db) =
       (Failed 500 ("Database error: " ++ msg), db) /\
     all_500 (get_db body db) =
       (Failed 500 ("Database error: " ++ msg), db)) /\
  (forall p db msg db1,
     items p <> [] ->
     create_invoice_body p db = Raised (Error msg) db1 ->
     create_invoice p db = (Failed 500 ("Database error: " ++ msg), db)) /\
  (forall id db msg db1,
     get_invoice_body id db = Raised (Error msg) db1 ->
     get_invoice id db = (Failed 500 ("Database error: " ++ msg), db)) /\
  (forall id db,
     in_int64 id = false ->
     get_invoice_body id db = Raised OverflowError db) /\
  (forall id db msg db1,
     delete_invoice_body id db = Raised (Error msg) db1 ->
     delete_invoice id db = (Failed 500 ("Database error: " ++ msg), db)) /\
  (forall id db,
     in_int64 id = false ->
     delete_invoice_body id db = Raised OverflowError db) /\
  (forall db, exists l, list_invoices db = (Returned l, db)).
Proof.
  assert (Hgen : forall (A : Type) (body : M A) db msg db1,
     body db = Raised (Error msg) db1 ->
     reraise_or_500 (get_db body db) =
       (Failed 500 ("Database error: " ++ msg), db) /\
     all_500 (get_db body db) =
       (Failed 500 ("Database error: " ++ msg), db)).
  { intros A body db msg db1 H. unfold get_db. rewrite H. split; reflexivity. }
  split; [exact Hgen |].
  split; [| split; [| split; [| split; [| split]]]].
  - intros p db msg db1 Hne H. unfold create_invoice.
    destruct (items p); [congruence |].
    exact (proj1 (Hgen _ _ _ _ _ H)).
  - intros id db msg db1 H. exact (proj1 (Hgen _ _ _ _ _ H)).
  - intros id db Hr. unfold get_invoice_body. unfold bind at 1.
    rewrite select_invoice_run, Hr. reflexivity.
  - intros id db msg db1 H. exact (proj1 (Hgen _ _ _ _ _ H)).
  - intros id db Hr. rewrite delete_invoice_body_run, Hr. reflexivity.
  - intros db. unfold list_invoices, get_db, all_500.
    destruct (list_invoices_body_Done db) as [l ->]. eauto.
Qed.

(** * Further properties *)

(** ** The listing *)

Lemma insert_by_perm {A} (key : A -> Z) (x : A) (l : list A) :
  Permutation (insert_by key x l) (x :: l).
Proof.
  induction l as [| y rest IH]; simpl; [apply Permutation_refl |].
  destruct (key x <=? key y); [apply Permutation_refl |].
  apply Permutation_trans with (y :: x :: rest).
  - apply perm_skip. exact IH.
  - apply perm_swap.
Qed.

Lemma order_by_perm {A} (key : A -> Z) (l : list A) :
  Permutation (order_by key l) l.
Proof.
  induction l as [| x rest IH]; [apply Permutation_refl |].
  change (order_by key (x :: rest)) with (insert_by key x (order_by key rest)).
  apply Permutation_trans with (x :: order_by key rest).
  - apply insert_by_perm.
  - apply perm_skip. exact IH.
Qed.

Lemma insert_by_ascending {A} (key : A -> Z) (x : A) (l : list A) :
  StronglySorted (fun a b => key a <= key b) l ->
  StronglySorted (fun a b => key a <= key b) (insert_by key x l).
Proof.
  induction 1 as [| y rest Hs IH Hall]; simpl.
  - constructor; constructor.
  - destruct (Z.leb_spec (key x) (key y)) as [Hle | Hgt].
    + constructor; [constructor; assumption |].
      constructor; [exact Hle |].
      eapply Forall_impl; [| exact Hall]. simpl. intros; lia.
    + constructor; [exact IH |].
      apply Forall_forall. intros z Hz.
      apply (Permutation_in _ (insert_by_perm key x rest)) in Hz.
      destruct Hz as [<- | Hz]; [lia |].
      rewrite Forall_forall in Hall. exact (Hall z Hz).
Qed.

Lemma order_by_ascending {A} (key : A -> Z) (l : list A) :
  StronglySorted (fun a b => key a <= key b) (order_by key l).
Proof.
  induction l as [| x rest IH]; [constructor |].
  change (order_by key (x :: rest)) with (insert_by key x (order_by key rest)).
  apply insert_by_ascending. exact IH.
Qed.

Lemma StronglySorted_map {A B} (f : A -> B) (R : B -> B -> Prop)
    (l : list A) :
  StronglySorted (fun x y => R (f x) (f y)) l -> StronglySorted R (map f l).
Proof.
  induction 1 as [| a l Hs IH Hall]; simpl; constructor; [exact IH |].
  apply Forall_map. exact Hall.
Qed.

Lemma join_In {A B} (on : A -> B -> bool) (l : list A) (r : list B)
    (a : A) (b : B) :
  In (a, b) (join on l r) <-> In a l /\ In b r /\ on a b = true.
Proof.
  split.
  - intros H. apply join_member in H. exact H.
  - intros (Ha & Hb & Hon). unfold join. apply in_flat_map.
    exists a. split; [exact Ha |]. apply in_map. apply filter_In. auto.
Qed.

(** The entries of the listing are the stored invoices joined with their
    client rows. *)
Lemma listed_members (db : DB) (s : InvoiceSummary) :
  In s (listed db) <->
  exists i c,
    In i (invoices db) /\ In c (clients db) /\
    c_id c = inv_client_id i /\ s = summary i c.
Proof.
  unfold listed. cbn [list_invoices fst all_500 get_db list_invoices_body query].
  rewrite in_map_iff. split.
  - intros ([i c] & <- & Hrow).
    apply (Permutation_in _ (order_by_perm _ _)) in Hrow.
    apply join_In in Hrow. destruct Hrow as (Hi & Hc & Hon).
    apply Z.eqb_eq in Hon. exists i, c. repeat split; assumption.
  - intros (i & c & Hi & Hc & Hon & ->).
    exists (i, c). split; [reflexivity |].
    apply (Permutation_in _ (Permutation_sym (order_by_perm _ _))).
    apply join_In. repeat split; try assumption.
    apply Z.eqb_eq. exact Hon.
Qed.

(** X1.  [list_invoices] never changes the store and never fails.  Its
    entries come in ascending invoice id, and they are exactly the stored
    invoices joined with their client row: an invoice whose client row is
    missing is not listed. *)
Theorem list_invoices_listing (db : DB) :
  exists l,
    list_invoices db = (Returned l, db) /\
    StronglySorted Z.le (map s_id l) /\
    forall s,
      In s l <->
      exists i c,
        In i (invoices db) /\ In c (clients db) /\
        c_id c = inv_client_id i /\ s = summary i c.
Proof.
  exists (listed db). split; [reflexivity |]. split.
  - unfold listed.
    cbn [list_invoices fst all_500 get_db list_invoices_body query].
    rewrite map_map. cbn [s_id].
    apply StronglySorted_map with (f := fun row : Invoice * Client =>
                                          inv_id (fst row)).
    apply (order_by_ascending (fun row : Invoice * Client => inv_id (fst row))).
  - apply listed_members.
Qed.

Lemma join_single {A B} (on : A -> B -> bool) (l : list A) (r : list B) :
  (forall a, In a l -> exists b, filter (on a) r = [b]) ->
  map fst (join on l r) = l.
Proof.
  induction l as [| a l IH]; intros H; [reflexivity |].
  unfold join in *. simpl. rewrite map_app.
  destruct (H a (or_introl eq_refl)) as [b ->]. simpl. f_equal.
  apply IH. intros a' Ha'. apply H. right. exact Ha'.
Qed.

Lemma In_key_find {A} (key : A -> Z) (l : list A) (k : Z) :
  In k (map key l) -> exists x, find (fun y => key y =? k) l = Some x.
Proof.
  induction l as [| a l IH]; simpl; [intros [] |].
  intros [Hk | Hin].
  - rewrite Hk, Z.eqb_refl. eauto.
  - destruct (key a =? k); [eauto | exact (IH Hin)].
Qed.

(** X2.  When client ids are a key and every invoice refers to a stored
    client, [list_invoices] lists every stored invoice exactly once: the ids
    of its entries are a rearrangement of the ids in the invoices table. *)
Theorem list_invoices_complete (db : DB) (l : list InvoiceSummary) :
  clients_keyed db -> clients_present db ->
  fst (list_invoices db) = Returned l ->
  Permutation (map s_id l) (map inv_id (invoices db)) /\
  List.length l = List.length (invoices db).
Proof.
  intros Hkey Hpres H. injection H as <-.
  assert (Hfst : map fst (join (fun i c => c_id c =? inv_client_id i)
                            (invoices db) (clients db)) = invoices db).
  { apply join_single. intros i Hi.
    destruct (In_key_find c_id _ _ (Hpres i Hi)) as [c Hc].
    exists c. exact (filter_key_find c_id _ _ c Hkey Hc). }
  assert (Hperm : Permutation
            (map (fun s => s_id s)
               (map (fun row : Invoice * Client =>
                       mkSummary (inv_id (fst row)) (inv_invoice_no (fst row))
                         (inv_issue_date (fst row)) (inv_due_date (fst row))
                         (c_name (snd row)) (inv_total (fst row)))
                  (order_by (fun row => inv_id (fst row))
                     (join (fun i c => c_id c =? inv_client_id i)
                        (invoices db) (clients db)))))
            (map inv_id (invoices db))).
  { rewrite map_map. simpl. rewrite <- Hfst at 2. rewrite map_map.
    apply Permutation_map. apply order_by_perm. }
  split; [exact Hperm |].
  apply Permutation_length in Hperm. rewrite !length_map in Hperm.
  rewrite length_map. exact Hperm.
Qed.


(** ** Reading one invoice *)

(** The block of [get_invoice], by the rows its two queries return. *)
Lemma get_invoice_body_run (id : Z) (db : DB) :
  get_invoice_body id db =
    match select_invoice id db, select_items id db with
    | Done (Some (i, c)) _, Done rows _ =>
        match fromisoformat (inv_issue_date i),
              fromisoformat (inv_due_date i) with
        | Some issue, Some due =>
            Done (mkInvoiceResponse (inv_id i) (inv_invoice_no i) issue due
                    (mkClientResponse (c_id c) (c_name c) (c_address c)
                       (c_company_registration_no c))
                    (inv_address i) rows (inv_tax i) (inv_total i)) db
        | None, _ =>
            Raised (Error (fromisoformat_error (inv_issue_date i))) db
        | Some _, None =>
            Raised (Error (fromisoformat_error (inv_due_date i))) db
        end
    | Raised e _, _ => Raised e db
    | _, _ => Raised (HTTPException 404 "Invoice not found") db
    end.
Proof.
  unfold get_invoice_body. unfold bind at 1. rewrite select_invoice_run.
  destruct (in_int64 id); [| reflexivity].
  unfold select_items, parse_date, bind, query, raise, ret.
  destruct (hd_error _) as [[i c] |]; [| reflexivity].
  destruct (fromisoformat (inv_issue_date i)); [| reflexivity].
  destruct (fromisoformat (inv_due_date i)); reflexivity.
Qed.

(** X3.  For an id that is an INTEGER of SQLite, [get_invoice] answers 404
    exactly when no stored invoice with the id is joined to a client row:
    when there is no header with the id, or when the header refers to a
    client that is not stored.  An id outside that range, which no stored
    invoice has, is answered with 500 and the text of the driver's
    [OverflowError]. *)
Theorem get_invoice_not_found (id : Z) (db : DB) :
  if in_int64 id then
    get_invoice id db = (Failed 404 "Invoice not found", db) <->
    ~ exists i c,
        In i (invoices db) /\ inv_id i = id /\
        In c (clients db) /\ c_id c = inv_client_id i
  else
    get_invoice id db =
      (Failed 500
         "Database error: Python int too large to convert to SQLite INTEGER",
       db) /\
    ~ exists i, In i (invoices db) /\ inv_id i = id.
Proof.
  destruct (in_int64 id) eqn:Hr.
  2: { split; [exact (get_invoice_out_of_range _ _ Hr) |].
       intros (i & _ & Hi). pose proof (inv_id_range i) as H.
       rewrite Hi in H. congruence. }
  unfold get_invoice, get_db. rewrite get_invoice_body_run.
  rewrite select_invoice_run, Hr. unfold select_items, query.
  destruct (hd_error _) as [[i c] |] eqn:Hhd.
  - assert (Hrow : In (i, c)
              (filter (fun row : Invoice * Client => inv_id (fst row) =? id)
                 (join (fun i c => c_id c =? inv_client_id i)
                    (invoices db) (clients db)))).
    { destruct (filter _ _) as [| row rest]; [discriminate Hhd |].
      injection Hhd as ->. left. reflexivity. }
    apply filter_In in Hrow. destruct Hrow as [Hrow Hid].
    apply join_In in Hrow. destruct Hrow as (Hi & Hc & Hon).
    apply Z.eqb_eq in Hid. apply Z.eqb_eq in Hon. simpl in Hid.
    split.
    + intros H. exfalso.
      destruct (fromisoformat (inv_issue_date i));
        [destruct (fromisoformat (inv_due_date i)) |]; discriminate H.
    + intros H. exfalso. apply H. exists i, c. auto.
  - split; [| reflexivity].
    intros _ (i & c & Hi & Hid & Hc & Hon).
    assert (Hrow : In (i, c)
              (filter (fun row : Invoice * Client => inv_id (fst row) =? id)
                 (join (fun i c => c_id c =? inv_client_id i)
                    (invoices db) (clients db)))).
    { apply filter_In. split; [| apply Z.eqb_eq; exact Hid].
      apply join_In. repeat split; try assumption.
      apply Z.eqb_eq. exact Hon. }
    destruct (filter _ _); [destruct Hrow | discriminate Hhd].
Qed.

(** X4.  Whatever [get_invoice] returns is stored: the store is unchanged,
    the response carries the requested id and the number, address, tax and
    total of a stored header with that id, the row of the client the header
    refers to, and the dates its two texts parse to.  Its items are exactly
    the stored lines of that invoice whose product is stored, each with the
    current name of the product. *)
Theorem get_invoice_sound (id : Z) (db : DB) (g : InvoiceResponse)
    (db' : DB) :
  get_invoice id db = (Returned g, db') ->
  db' = db /\ r_id g = id /\
  (exists i c,
     In i (invoices db) /\ inv_id i = id /\
     In c (clients db) /\ c_id c = inv_client_id i /\
     r_invoice_no g = inv_invoice_no i /\
     r_address g = inv_address i /\
     r_tax g = inv_tax i /\ r_total g = inv_total i /\
     fromisoformat (inv_issue_date i) = Some (r_issue_date g) /\
     fromisoformat (inv_due_date i) = Some (r_due_date g) /\
     r_client g =
       mkClientResponse (c_id c) (c_name c) (c_address c)
                        (c_company_registration_no c)) /\
  (forall row,
     In row (r_items g) <->
     exists line product,
       In line (invoice_items db) /\ it_invoice_id line = id /\
       In product (products db) /\ p_id product = it_product_id line /\
       row = mkItemResponse (it_product_id line) (p_name product)
               (it_unit_price line) (it_quantity line)
               (it_line_total line)).
Proof.
  unfold get_invoice, get_db. rewrite get_invoice_body_run.
  rewrite select_invoice_run.
  destruct (in_int64 id); [| discriminate].
  unfold select_items, query.
  destruct (hd_error _) as [[i c] |] eqn:Hhd; [| discriminate].
  destruct (fromisoformat (inv_issue_date i)) as [issue |] eqn:Hissue;
    [| discriminate].
  destruct (fromisoformat (inv_due_date i)) as [due |] eqn:Hdue;
    [| discriminate].
  intros H. injection H as <- <-.
  assert (Hrow : In (i, c)
            (filter (fun row : Invoice * Client => inv_id (fst row) =? id)
               (join (fun i c => c_id c =? inv_client_id i)
                  (invoices db) (clients db)))).
  { destruct (filter _ _) as [| row rest]; [discriminate Hhd |].
    injection Hhd as ->. left. reflexivity. }
  apply filter_In in Hrow. destruct Hrow as [Hrow Hid].
  apply join_In in Hrow. destruct Hrow as (Hi & Hc & Hon).
  apply Z.eqb_eq in Hid. apply Z.eqb_eq in Hon. simpl in Hid.
  split; [reflexivity |]. split; [exact Hid |]. split.
  - exists i, c. cbn [r_invoice_no r_address r_tax r_total r_issue_date
                      r_due_date r_client].
    repeat split; assumption.
  - intros row. cbn [r_items]. rewrite in_map_iff. split.
    + intros ([line product] & <- & Hin).
      apply (Permutation_in _ (order_by_perm _ _)) in Hin.
      apply filter_In in Hin. destruct Hin as [Hin Hinv].
      apply join_In in Hin. destruct Hin as (Hl & Hp & Hpid).
      apply Z.eqb_eq in Hinv. apply Z.eqb_eq in Hpid.
      exists line, product. repeat split; assumption.
    + intros (line & product & Hl & Hinv & Hp & Hpid & ->).
      exists (line, product). split; [reflexivity |].
      apply (Permutation_in _ (Permutation_sym (order_by_perm _ _))).
      apply filter_In. split; [| apply Z.eqb_eq; exact Hinv].
      apply join_In. repeat split; try assumption.
      apply Z.eqb_eq. exact Hpid.
Qed.


(** ** Requests on other invoices *)

Lemma join_filter_l {A B} (on : A -> B -> bool) (g : A -> bool)
    (l : list A) (r : list B) :
  join on (filter g l) r = filter (fun row => g (fst row)) (join on l r).
Proof.
  unfold join. induction l as [| a l IH]; simpl; [reflexivity |].
  rewrite filter_app.
  destruct (g a) eqn:Hg; simpl; rewrite IH.
  - f_equal. symmetry. apply filter_all.
    intros row Hrow. apply in_map_iff in Hrow.
    destruct Hrow as (b & <- & _). exact Hg.
  - rewrite (filter_none _ (map _ _)); [reflexivity |].
    intros row Hrow. apply in_map_iff in Hrow.
    destruct Hrow as (b & <- & _). exact Hg.
Qed.

Lemma filter_absorb {A} (f g : A -> bool) (l : list A) :
  (forall x, f x = true -> g x = true) ->
  filter f (filter g l) = filter f l.
Proof.
  intros H. induction l as [| a l IH]; simpl; [reflexivity |].
  destruct (g a) eqn:Hg; simpl.
  - rewrite IH. reflexivity.
  - destruct (f a) eqn:Hf; [| exact IH].
    rewrite (H a Hf) in Hg. discriminate Hg.
Qed.

(** The reply of [get_invoice] depends on the store through the rows of
    its two queries only. *)
Lemma get_invoice_agree (id : Z) (db1 db2 : DB) :
  filter (fun row : Invoice * Client => inv_id (fst row) =? id)
    (join (fun i c => c_id c =? inv_client_id i)
       (invoices db1) (clients db1)) =
  filter (fun row : Invoice * Client => inv_id (fst row) =? id)
    (join (fun i c => c_id c =? inv_client_id i)
       (invoices db2) (clients db2)) ->
  filter (fun row : InvoiceItem * Product => it_invoice_id (fst row) =? id)
    (join (fun it p => p_id p =? it_product_id it)
       (invoice_items db1) (products db1)) =
  filter (fun row : InvoiceItem * Product => it_invoice_id (fst row) =? id)
    (join (fun it p => p_id p =? it_product_id it)
       (invoice_items db2) (products db2)) ->
  fst (get_invoice id db1) = fst (get_invoice id db2).
Proof.
  intros Hh Hi. unfold get_invoice, get_db. rewrite !get_invoice_body_run.
  rewrite !select_invoice_run.
  destruct (in_int64 id); [| reflexivity].
  unfold select_items, query. rewrite Hh, Hi.
  destruct (hd_error _) as [[i c] |]; [| reflexivity].
  destruct (fromisoformat (inv_issue_date i)); [| reflexivity].
  destruct (fromisoformat (inv_due_date i)); reflexivity.
Qed.

(** X5.  Deleting one invoice does not change what [get_invoice] answers
    for any other id. *)
Theorem delete_invoice_frame (i j : Z) (db : DB) :
  j <> i ->
  fst (get_invoice j (snd (delete_invoice i db))) = fst (get_invoice j db).
Proof.
  intros Hne.
  destruct (delete_invoice_tables i db)
    as [-> | (Hinv & Hitems & Hprod & Hcl)]; [reflexivity |].
  apply get_invoice_agree.
  - rewrite Hinv, Hcl, join_filter_l. apply filter_absorb.
    intros row Hrow. apply Z.eqb_eq in Hrow.
    apply negb_true_iff. apply Z.eqb_neq. lia.
  - rewrite Hitems, Hprod, join_filter_l. apply filter_absorb.
    intros row Hrow. apply Z.eqb_eq in Hrow.
    apply negb_true_iff. apply Z.eqb_neq. lia.
Qed.

Lemma stores_invoice_id (id : Z) (rows : list InvoiceItemResponse)
    (new : list InvoiceItem) :
  Forall2 (stores id) rows new ->
  forall line, In line new -> it_invoice_id line = id.
Proof.
  induction 1 as [| row l rows new (Hid & _) _ IH]; intros line Hin.
  - destruct Hin.
  - destruct Hin as [<- | Hin]; [exact Hid | exact (IH line Hin)].
Qed.

(** X6.  Creating an invoice does not change what [get_invoice] answers
    for any id other than the new one. *)
Theorem create_invoice_frame (p : InvoiceCreate) (db : DB)
    (r : InvoiceResponse) (db' : DB) (j : Z) :
  create_invoice p db = (Returned r, db') ->
  j <> r_id r ->
  fst (get_invoice j db') = fst (get_invoice j db).
Proof.
  intros H Hne.
  destruct (create_invoice_stored _ _ _ _ H)
    as (c & Hrid & Hrcid & _ & _ & _ & _ & Hid & Hinv & _).
  created H.
  destruct H as (_ & no & new & _ & _ & _ & _ & _ & _ & _ & Hcl & Hprod & _ &
                 Hitems & Hst & _).
  rewrite <- Hid in Hst.
  apply get_invoice_agree.
  - rewrite Hinv, Hcl, join_app, filter_app.
    rewrite (filter_none _ (join _ [_] _)); [apply app_nil_r |].
    intros row Hrow. apply join_member in Hrow.
    destruct Hrow as [[<- | []] _]. simpl. apply Z.eqb_neq. lia.
  - rewrite Hitems, Hprod, join_app, filter_app.
    rewrite (filter_none _ (join _ new _)); [apply app_nil_r |].
    intros row Hrow. apply join_member in Hrow. destruct Hrow as [Hrow _].
    rewrite (stores_invoice_id _ _ _ Hst _ Hrow). apply Z.eqb_neq. lia.
Qed.

(** ** Deleting *)

(** X7.  A second [delete_invoice] of the same id fails and changes
    nothing, whatever the first one did: it answers 404 for an id that is
    an INTEGER of SQLite, and the 500 of the driver's [OverflowError] for
    any other id. *)
Theorem delete_invoice_twice (id : Z) (db : DB) :
  delete_invoice id (snd (delete_invoice id db)) =
    (if in_int64 id
     then Failed 404 "Invoice not found"
     else Failed 500
            "Database error: Python int too large to convert to SQLite INTEGER",
     snd (delete_invoice id db)).
Proof.
  assert (Hgone : stored_invoice (snd (delete_invoice id db)) id = None).
  { unfold delete_invoice at 1, get_db. rewrite delete_invoice_body_run.
    destruct (in_int64 id) eqn:Hr;
      [| apply stored_invoice_out_of_range; exact Hr].
    destruct (stored_invoice db id) eqn:Hs; simpl.
    - apply stored_invoice_deleted.
    - exact Hs. }
  unfold delete_invoice at 1, get_db.
  rewrite delete_invoice_body_run, Hgone.
  destruct (in_int64 id); reflexivity.
Qed.

(** X8.  Creating an invoice and then deleting it puts the invoices and
    invoice_items tables back as they were, provided no line referred to a
    missing invoice before; clients and products are untouched. *)
Theorem create_then_delete (p : InvoiceCreate) (db : DB)
    (r : InvoiceResponse) (db' : DB) :
  no_orphans db ->
  create_invoice p db = (Returned r, db') ->
  exists db'',
    delete_invoice (r_id r) db' = (Returned tt, db'') /\
    invoices db'' = invoices db /\
    invoice_items db'' = invoice_items db /\
    clients db'' = clients db /\
    products db'' = products db.
Proof.
  intros Horph H.
  destruct (create_invoice_stored _ _ _ _ H)
    as (c & Hrid & Hrcid & _ & _ & _ & _ & Hid & Hinv & Hstored).
  created H.
  destruct H as (_ & no & new & _ & _ & _ & _ & _ & _ & _ & Hcl & Hprod & _ &
                 Hitems & Hst & _).
  rewrite <- Hid in Hst.
  pose proof (next_rowid_above (map inv_id (invoices db)) (seq_invoices db))
    as [_ Hfresh]. rewrite <- Hid in Hfresh.
  unfold delete_invoice, get_db.
  rewrite delete_invoice_body_run, Hrid, Hstored.
  eexists. split; [reflexivity |]. simpl.
  rewrite Hinv, Hitems, !filter_app. repeat split.
  - rewrite filter_all.
    + simpl. rewrite Z.eqb_refl. apply app_nil_r.
    + intros i Hi. apply negb_true_iff. apply Z.eqb_neq.
      specialize (Hfresh _ (in_map inv_id _ _ Hi)). lia.
  - rewrite filter_all.
    + rewrite filter_none; [apply app_nil_r |].
      intros line Hline. rewrite (stores_invoice_id _ _ _ Hst _ Hline).
      rewrite Z.eqb_refl. reflexivity.
    + intros line Hline. apply negb_true_iff. apply Z.eqb_neq.
      specialize (Hfresh _ (Horph line Hline)). lia.
  - exact Hcl.
  - exact Hprod.
Qed.


(** ** [create_invoice] in closed form *)

Lemma add_not_nan (x y : float) :
  Float.is_nan (Float.add x y) = false ->
  Float.is_nan x = false /\ Float.is_nan y = false.
Proof.
  destruct x, y; simpl; intros H; try discriminate H; split; reflexivity.
Qed.

Lemma mul_not_nan (x y : float) :
  Float.is_nan (Float.mul x y) = false ->
  Float.is_nan x = false /\ Float.is_nan y = false.
Proof.
  destruct x, y; simpl; intros H; try discriminate H; split; reflexivity.
Qed.

(** A sum that is a number has only numbers as terms. *)
Lemma sum_rows_not_nan (rows : list InvoiceItemResponse) :
  forall start,
    Float.is_nan (sum_rows rows start) = false ->
    Float.is_nan start = false /\
    Forall (fun row => Float.is_nan (ir_line_total row) = false) rows.
Proof.
  induction rows as [| row rest IH]; intros start H; simpl in H.
  - split; [exact H | constructor].
  - apply IH in H. destruct H as [H Hrest].
    apply add_not_nan in H. destruct H as [Hs Hrow].
    split; [exact Hs |]. constructor; assumption.
Qed.

(** The rows of a first loop that passes. *)
Lemma priced_rows_passed (db : DB) (its : list InvoiceItemCreate) :
  loop_failure db its = None ->
  Forall2 (priced db) its (priced_rows db its) /\
  List.length (priced_rows db its) = List.length its /\
  Forall (fun row => in_int64 (ir_product_id row) = true)
         (priced_rows db its) /\
  forallb (fun row => in_int64 (ir_quantity row)) (priced_rows db its) =
    forallb (fun it => in_int64 (ic_quantity it)) its.
Proof.
  induction its as [| it rest IH]; cbn [loop_failure priced_rows]; intros H.
  - repeat split; constructor.
  - destruct (in_int64 (ic_product_id it)); [| discriminate H].
    destruct (find _ (products db)) as [product |] eqn:Hfind;
      [| discriminate H].
    destruct (convertible (ic_quantity it)); [| discriminate H].
    cbn [negb] in H. destruct (IH H) as (H1 & H2 & H3 & H4).
    split; [| split; [| split]].
    + constructor; [| exact H1].
      exists product. split; [exact Hfind | reflexivity].
    + cbn [List.length]. f_equal. exact H2.
    + constructor; [apply p_id_range | exact H3].
    + cbn [forallb ir_quantity]. f_equal. exact H4.
Qed.

Lemma priced_storable (db : DB) (its : list InvoiceItemCreate)
    (rows : list InvoiceItemResponse) :
  Forall2 (priced db) its rows ->
  Forall (fun row => Float.is_nan (ir_line_total row) = false) rows ->
  Forall (fun row => in_int64 (ir_product_id row) = true /\
                     Float.is_nan (ir_unit_price row) = false /\
                     Float.is_nan (ir_line_total row) = false) rows.
Proof.
  induction 1 as [| it row its rows (product & Hfind & ->) _ IH];
    intros Hnan; [constructor |].
  inversion Hnan as [| ? ? Hrow Hrest]; subst.
  constructor; [| exact (IH Hrest)].
  cbn [ir_product_id ir_unit_price ir_line_total] in *.
  split; [apply p_id_range |].
  split; [exact (proj1 (mul_not_nan _ _ Hrow)) | exact Hrow].
Qed.

(** [create_invoice] without loops and without the monad, on a store with
    room: the failure is the one [create_failure] computes, and a request
    that passes every check returns the priced rows under the resolved
    number. *)
Lemma create_invoice_run (p : InvoiceCreate) (db : DB) :
  has_room db p = true ->
  match create_failure db p with
  | Some (st, d) => create_invoice p db = (Failed st d, db)
  | None =>
      exists r db',
        create_invoice p db = (Returned r, db') /\
        r_invoice_no r = resolved_no db p /\
        r_items r = priced_rows db (items p)
  end.
Proof.
  intros Hroom. apply andb_prop in Hroom. destruct Hroom as [Hroom1 Hroom2].
  apply Z.leb_le in Hroom1. apply Z.leb_le in Hroom2.
  unfold create_failure, create_invoice, reraise_or_500, get_db.
  destruct (items p) as [| it rest] eqn:Hitems; [reflexivity |].
  rewrite <- Hitems in *. clear Hitems it rest.
  destruct (create_invoice_body_early p db) as (Hov & Hnc & Hcf & Hgen & Hlp).
  case_bool (in_int64 (client_id p)) Hr; rewrite Hr; cbn [negb].
  2: { rewrite (Hov Hr). reflexivity. }
  destruct (client_exists db p) eqn:Hc; cbn [negb].
  2: { rewrite (Hnc Hr eq_refl). reflexivity. }
  destruct (conflicts db p) eqn:Hk.
  { rewrite (Hcf eq_refl eq_refl). reflexivity. }
  assert (Hg : auto_numbered p && (max_int64 <? next_id db) = false).
  { pose proof (next_id_le_rowid db).
    destruct (Z.ltb_spec max_int64 (next_id db)); [lia |].
    apply andb_false_r. }
  destruct (loop_failure db (items p)) as [[st d] |] eqn:Hloop.
  { destruct (Hlp st d eq_refl eq_refl Hg eq_refl) as (e & -> & He).
    exact He. }
  clear Hov Hnc Hcf Hgen Hlp.
  destruct (priced_rows_passed _ _ Hloop) as (Hpriced & Hlen & Hpids & Hqs).
  destruct (proj1 (client_exists_find db p) Hc) as [c Hfind].
  assert (Htotal : Float.add (sum_rows (priced_rows db (items p)) Float.zero)
                     (tax p) =
                   Float.add (sum_of_lines db (items p)) (tax p)).
  { f_equal. unfold sum_of_lines. apply sum_rows_spec. exact Hpriced. }
  remember (create_invoice_body p db) as B eqn:HB.
  unfold create_invoice_body in HB.
  unfold bind at 1 in HB. rewrite (_fetch_client_in _ _ Hr), Hfind in HB.
  unfold bind at 1 in HB. rewrite resolve_invoice_no_run, Hk, Hg in HB.
  unfold bind at 1 in HB.
  pose proof (price_items_run (items p) [] Float.zero db) as Hrun.
  rewrite Hloop in Hrun. rewrite Hrun in HB. cbn [fst snd app] in HB.
  rewrite Htotal in HB.
  unfold bind at 1 in HB.
  pose proof (insert_invoice_cases (resolved_no db p)
                (isoformat (issue_date p)) (isoformat (due_date p))
                (client_id p) (resolve_address (address p) c) (tax p)
                (Float.add (sum_of_lines db (items p)) (tax p)) db) as Hins.
  cbv zeta in Hins.
  assert (Hid : in_int64 (next_rowid (map inv_id (invoices db))
                            (seq_invoices db)) = true).
  { apply in_int64_spec. pose proof (next_rowid_invoices_min db). lia. }
  destruct (insert_invoice _ _ _ _ _ _ _ db) as [id' db1 | e db1].
  - destruct Hins as (-> & _ & _ & Htax & Htot & Htaken & Hid' & Hcid' & ->).
    rewrite Htax, Htot, Htaken.
    unfold bind at 1 in HB.
    match type of HB with
    | context [insert_items ?i ?rs ?d] =>
        pose proof (insert_items_room i rs d Hid) as Hitems
    end.
    assert (Hnan : Forall (fun row => Float.is_nan (ir_line_total row) = false)
                          (priced_rows db (items p))).
    { rewrite <- Htotal in Htot. apply add_not_nan in Htot.
      exact (proj2 (sum_rows_not_nan _ _ (proj1 Htot))). }
    specialize (Hitems (priced_storable _ _ _ Hpriced Hnan)).
    cbn [invoice_items seq_invoice_items] in Hitems.
    rewrite Hlen in Hitems. specialize (Hitems Hroom2).
    rewrite Hqs in Hitems.
    destruct (forallb _ (items p)).
    + destruct Hitems as [db' Hitems]. rewrite Hitems in HB.
      unfold ret in HB. subst B.
      eexists. eexists. split; [reflexivity |]. split; reflexivity.
    + destruct Hitems as [db1 Hitems]. rewrite Hitems in HB. subst B.
      reflexivity.
  - destruct Hins as (-> & -> & Hfail). subst B.
    rewrite Hr, Hid in Hfail |- *. cbn [andb negb] in Hfail |- *.
    destruct (Float.is_nan (tax p)); [reflexivity |].
    destruct (Float.is_nan (Float.add _ (tax p))); [reflexivity |].
    cbn [andb negb] in Hfail. apply negb_false_iff in Hfail.
    rewrite Hfail. reflexivity.
Qed.

(** ** Which check decides *)

(** X9.  On a store whose two AUTOINCREMENT tables have the rowids the
    request needs, the reply of [create_invoice] is decided by the first
    check that fails, in this order: no items (400); client id not an
    INTEGER of SQLite (500); unknown client (404); explicit number taken
    (409); then, item by item, product id not an INTEGER (500), missing
    product (404), quantity that cannot be converted to [float] (500);
    then tax or total not a number (500); number already stored when the
    header is inserted (500); a quantity that is not an INTEGER, at the
    insert of its line (500).  Every failure leaves the store as it was; a
    request that passes them all succeeds, with the resolved number and one
    response line per item. *)
Theorem create_invoice_reply (p : InvoiceCreate) (db : DB) :
  has_room db p = true ->
  match create_failure db p with
  | Some (st, d) => create_invoice p db = (Failed st d, db)
  | None =>
      exists r db',
        create_invoice p db = (Returned r, db') /\
        r_invoice_no r = resolved_no db p /\
        List.length (r_items r) = List.length (items p)
  end.
Proof.
  intros Hroom. pose proof (create_invoice_run p db Hroom) as H.
  destruct (create_failure db p) as [[st d] |]; [exact H |].
  destruct H as (r & db' & H & Hno & Hrows).
  exists r, db'. split; [exact H |]. split; [exact Hno |].
  created H.
  destruct H as (_ & _ & _ & _ & _ & _ & _ & _ & Hpriced & _).
  symmetry. exact (Forall2_length Hpriced).
Qed.

(** X10.  [create_invoice] is all or nothing.  A failed request leaves the
    store as it was, also when its block had written the header and some
    lines before it raised.  A successful one leaves clients and products
    alone, appends exactly one header, with the returned id, and exactly
    one line per item, all under that id and with consecutive line ids,
    and moves the sequence of the invoices table to the returned id, which
    lies above its old value. *)
Theorem create_invoice_effect (p : InvoiceCreate) (db : DB) :
  (forall e db1,
     items p <> [] -> create_invoice_body p db = Raised e db1 ->
     exists st d, create_invoice p db = (Failed st d, db)) /\
  match create_invoice p db with
  | (Failed _ _, db') => db' = db
  | (Returned r, db') =>
      clients db' = clients db /\ products db' = products db /\
      (exists header,
         invoices db' = invoices db ++ [header] /\
         inv_id header = r_id r) /\
      (exists lines,
         invoice_items db' = invoice_items db ++ lines /\
         Forall2 (stores (r_id r)) (r_items r) lines /\
         map it_id lines =
           consecutive
             (next_rowid (map it_id (invoice_items db))
                         (seq_invoice_items db))
             (List.length (r_items r))) /\
      List.length (r_items r) = List.length (items p) /\
      seq_invoices db' = r_id r /\
      seq_invoices db < r_id r
  end.
Proof.
  split.
  - intros e db1 Hne H. unfold create_invoice, reraise_or_500, get_db.
    destruct (items p); [congruence |]. rewrite H.
    destruct e; eauto.
  - destruct (create_invoice p db) as [[r | st d] db'] eqn:H.
    2: { exact (create_invoice_Failed _ _ _ _ _ H). }
    created H.
    destruct H as (c & no & new & Hid & Hcid & _ & _ & _ & Hpriced & Hr &
                   Hcl & Hprod & Hinv & Hitems & Hst & _ & Hids & Hseq & _).
    pose proof (f_equal r_id Hr) as Hrid. cbn [r_id] in Hrid.
    rewrite Hrid.
    split; [exact Hcl |]. split; [exact Hprod |].
    split; [eexists; split; [exact Hinv | reflexivity] |].
    split; [exists new; repeat split; assumption |].
    split; [symmetry; exact (Forall2_length Hpriced) |].
    split; [exact Hseq | exact (proj1 (next_rowid_above _ _))].
Qed.

(** What a request does to the sequence of the invoices table. *)
Lemma create_invoice_effect_seq (p : InvoiceCreate) (db : DB) :
  match create_invoice p db with
  | (Failed _ _, db') => seq_invoices db' = seq_invoices db
  | (Returned r, db') =>
      seq_invoices db' = r_id r /\ seq_invoices db < r_id r
  end.
Proof.
  destruct (create_invoice p db) as [[r | st d] db'] eqn:H.
  2: { rewrite (create_invoice_Failed _ _ _ _ _ H). reflexivity. }
  created H.
  destruct H as (c & no & new & Hid & Hcid & _ & _ & _ & _ & Hr &
                 _ & _ & _ & _ & _ & _ & _ & Hseq & _).
  pose proof (f_equal r_id Hr) as Hrid. cbn [r_id] in Hrid.
  rewrite Hrid.
  split; [exact Hseq | exact (proj1 (next_rowid_above _ _))].
Qed.

(** ** Ids along a history *)

Lemma handle_seq (rq : request) (db : DB) :
  seq_invoices db <= seq_invoices (handle rq db).
Proof.
  destruct rq as [p | | id | id]; simpl handle.
  - pose proof (create_invoice_effect_seq p db) as H.
    destruct (create_invoice p db) as [[r | st d] db']; simpl; lia.
  - simpl. lia.
  - rewrite get_invoice_reads. lia.
  - unfold delete_invoice, get_db. rewrite delete_invoice_body_run.
    destruct (in_int64 id); [| simpl; lia].
    destruct (stored_invoice db id); simpl; lia.
Qed.

Lemma created_ids_above (rqs : list request) :
  forall db, Forall (fun id => seq_invoices db < id) (created_ids rqs db).
Proof.
  induction rqs as [| rq rest IH]; intros db; [constructor |].
  simpl created_ids. apply Forall_app. split.
  - destruct rq as [p | | id | id]; try constructor.
    pose proof (create_invoice_effect_seq p db) as H.
    destruct (create_invoice p db) as [[r | st d] db']; simpl;
      constructor; [lia | constructor].
  - pose proof (handle_seq rq db).
    eapply Forall_impl; [| exact (IH (handle rq db))].
    simpl. intros; lia.
Qed.

(** X11.  Invoice ids are never reused: along every history of requests,
    deletions included, the ids given to created invoices increase strictly
    in creation order and lie above the sequence value of the invoices
    table at the start. *)
Theorem created_ids_increasing (rqs : list request) (db : DB) :
  StronglySorted Z.lt (created_ids rqs db) /\
  Forall (fun id => seq_invoices db < id) (created_ids rqs db).
Proof.
  split; [| apply created_ids_above].
  revert db. induction rqs as [| rq rest IH]; intros db; [constructor |].
  simpl created_ids.
  pose proof (created_ids_above rest (handle rq db)) as Hrest.
  destruct rq as [p | | id | id]; try exact (IH _).
  simpl handle in *.
  pose proof (create_invoice_effect_seq p db) as H.
  destruct (create_invoice p db) as [[r | st d] db']; simpl in *;
    [| exact (IH _)].
  constructor; [exact (IH _) |].
  eapply Forall_impl; [| exact Hrest]. simpl. intros; lia.
Qed.

(** ** Generated numbers and ids *)

Lemma auto_numbered_resolved (db : DB) (p : InvoiceCreate) :
  auto_numbered p = true -> resolved_no db p = generated_no db.
Proof.
  unfold auto_numbered, resolved_no.
  destruct (invoice_no p) as [no |]; [| reflexivity].
  intros H. apply negb_true_iff in H. rewrite H. reflexivity.
Qed.

(** X12.  As long as the sequence of the invoices table does not exceed the
    largest stored id (the newest invoice was never deleted), an invoice
    numbered by the generator gets the number of its own id. *)
Theorem generated_number_is_id (p : InvoiceCreate) (db : DB)
    (r : InvoiceResponse) (db' : DB) :
  seq_invoices db <= coalesce (max_id (map inv_id (invoices db))) 0 ->
  auto_numbered p = true ->
  create_invoice p db = (Returned r, db') ->
  r_invoice_no r = ("INV-" ++ format_05d (r_id r))%string.
Proof.
  intros Hseq Hauto H.
  created H.
  destruct H as (c & no & new & Hid & Hcid & _ & Hno & _ & _ & Hr & _).
  pose proof (f_equal r_id Hr) as Hrid. cbn [r_id] in Hrid.
  pose proof (f_equal r_invoice_no Hr) as Hrno. cbn [r_invoice_no] in Hrno.
  rewrite Hrid, Hrno.
  pose proof (resolve_invoice_no_run db p) as Hres. rewrite Hno in Hres.
  destruct (conflicts db p); [discriminate Hres |].
  destruct (auto_numbered p && _); [discriminate Hres |].
  injection Hres as ->.
  rewrite (auto_numbered_resolved _ _ Hauto).
  unfold generated_no.
  replace (next_rowid (map inv_id (invoices db)) (seq_invoices db))
    with (next_id db); [reflexivity |].
  unfold next_id, next_rowid. lia.
Qed.

Lemma loop_failure_None (db : DB) (its : list InvoiceItemCreate) :
  first_missing db its = None ->
  forallb (fun it => convertible (ic_quantity it)) its = true ->
  loop_failure db its = None.
Proof.
  induction its as [| it rest IH]; cbn [first_missing loop_failure forallb];
    intros Hm Hq; [reflexivity |].
  destruct (find _ (products db)) as [product |] eqn:Hfind;
    [| discriminate Hm].
  rewrite (proj2 (find_product_key _ _ _ Hfind)).
  apply andb_prop in Hq. destruct Hq as [Hq Hrest].
  rewrite Hq. cbn [negb]. exact (IH Hm Hrest).
Qed.

(** X13.  The generator does not look at the stored numbers: when the
    number it produces is already stored, for instance because an earlier
    request chose it explicitly, a request that passes every earlier check
    (the client exists, every product is stored, every quantity can be
    converted to [float], the total is a number) on a store with room
    fails with 500 on the uniqueness constraint and stores nothing. *)
Theorem generated_number_collision (p : InvoiceCreate) (db : DB) :
  has_room db p = true ->
  items p <> [] ->
  client_exists db p = true ->
  auto_numbered p = true ->
  first_missing db (items p) = None ->
  forallb (fun it => convertible (ic_quantity it)) (items p) = true ->
  Float.is_nan (Float.add (sum_of_lines db (items p)) (tax p)) = false ->
  In (generated_no db) (map inv_invoice_no (invoices db)) ->
  create_invoice p db =
    (Failed 500
       "Database error: UNIQUE constraint failed: invoices.invoice_no", db).
Proof.
  intros Hroom Hitems Hc Hauto Hm Hq Hnan Hin.
  pose proof (create_invoice_run p db Hroom) as Hrun.
  assert (Hk : conflicts db p = false).
  { unfold conflicts. unfold auto_numbered in Hauto.
    destruct (invoice_no p) as [no |]; [| reflexivity].
    apply negb_true_iff in Hauto. rewrite Hauto. reflexivity. }
  assert (Htaken : existsb (fun i => String.eqb (inv_invoice_no i)
                                        (resolved_no db p)) (invoices db)
                   = true).
  { rewrite (auto_numbered_resolved _ _ Hauto).
    apply in_map_iff in Hin. destruct Hin as (i & Hi & Hin).
    apply existsb_exists. exists i. split; [exact Hin |].
    apply String.eqb_eq. exact Hi. }
  unfold create_failure in Hrun.
  destruct (items p) as [| it rest] eqn:Hits; [congruence |].
  rewrite (client_exists_in_range _ _ Hc), Hc, Hk in Hrun.
  cbn [negb] in Hrun. cbv iota in Hrun.
  rewrite <- Hits in *. rewrite (loop_failure_None _ _ Hm Hq) in Hrun.
  rewrite (proj2 (add_not_nan _ _ Hnan)), Hnan, Htaken in Hrun.
  exact Hrun.
Qed.

(** ** Formatting and parsing *)

Lemma zeros_length (k : nat) (s : string) :
  String.length (zeros k ++ s) = (k + String.length s)%nat.
Proof. induction k as [| k IH]; simpl; [reflexivity | rewrite IH; reflexivity]. Qed.

Lemma zfill_length (w : nat) (s : string) :
  (w <= String.length (zfill w s))%nat.
Proof. unfold zfill. rewrite zeros_length. lia. Qed.

Lemma uint_of_string_zeros (k : nat) (s : string) :
  option_map N.of_uint (NilEmpty.uint_of_string (zeros k ++ s)) =
  option_map N.of_uint (NilEmpty.uint_of_string s).
Proof.
  induction k as [| k IH]; [reflexivity |].
  simpl. rewrite <- IH.
  destruct (NilEmpty.uint_of_string (zeros k ++ s)); reflexivity.
Qed.

Lemma decimal_digits (n : Z) :
  exists d,
    NilZero.uint_of_string (decimal n) = Some d /\
    Z.of_N (N.of_uint d) = Z.max 0 n.
Proof.
  unfold decimal.
  assert (Hn : Z.of_N (N.of_uint (N.to_uint (Z.to_N n))) = Z.max 0 n)
    by (rewrite DecimalN.Unsigned.of_to; lia).
  destruct (N.to_uint (Z.to_N n)) eqn:Hd.
  1: { exists Decimal.zero. split; [reflexivity |]. rewrite <- Hn. reflexivity. }
  all: eexists; split;
    [apply NilZero.usu; discriminate | exact Hn].
Qed.

Lemma nonempty_uint_of_string (s : string) (d : Decimal.uint) :
  NilZero.uint_of_string s = Some d ->
  s <> "" /\ NilEmpty.uint_of_string s = Some d.
Proof.
  destruct s; [discriminate |]. intros H. split; [discriminate | exact H].
Qed.

(** X15.  The digits of [f"{n:05d}"] read back as [n] for every
    non-negative [n], whatever the padding, so different sequence values
    give different generated numbers; the text is never shorter than five
    characters. *)
Theorem format_05d_round_trip (n : Z) :
  0 <= n ->
  int_of_digits (format_05d n) = Some n /\
  (5 <= String.length (format_05d n))%nat /\
  forall m, 0 <= m -> format_05d m = format_05d n -> m = n.
Proof.
  assert (Hparse : forall k, 0 <= k -> int_of_digits (format_05d k) = Some k).
  { intros k Hk. unfold format_05d, int_of_digits.
    destruct (Z.ltb_spec k 0) as [Hneg | _]; [lia |].
    destruct (decimal_digits k) as (d & Hd & Hval).
    apply nonempty_uint_of_string in Hd. destruct Hd as [Hne Hd].
    unfold zfill.
    assert (Hz : NilZero.uint_of_string
                   (zeros (5 - String.length (decimal k)) ++ decimal k) =
                 NilEmpty.uint_of_string
                   (zeros (5 - String.length (decimal k)) ++ decimal k)).
    { destruct (zeros _) eqn:Hzs; simpl; [| reflexivity].
      destruct (decimal k); [congruence | reflexivity]. }
    rewrite Hz.
    pose proof (uint_of_string_zeros (5 - String.length (decimal k))
                  (decimal k)) as Hzeros.
    rewrite Hd in Hzeros. revert Hzeros.
    destruct (NilEmpty.uint_of_string (zeros _ ++ decimal k)) as [d' |];
      cbn [option_map]; intros Hzeros; [| discriminate Hzeros].
    injection Hzeros as ->. f_equal. lia. }
  intros Hn. split; [exact (Hparse n Hn) |]. split.
  - unfold format_05d. destruct (Z.ltb_spec n 0); [lia |].
    apply zfill_length.
  - intros m Hm Heq.
    pose proof (Hparse m Hm) as H1. rewrite Heq, (Hparse n Hn) in H1.
    injection H1 as ->. reflexivity.
Qed.


(** ** Dates as stored *)

Lemma digit_of_digit_val (c : ascii) (n : Z) :
  digit_val c = Some n -> 0 <= n <= 9 /\ digit n = c.
Proof.
  unfold digit_val, digit.
  destruct (Z.leb_spec 48 (Z.of_nat (nat_of_ascii c))); [| discriminate].
  destruct (Z.leb_spec (Z.of_nat (nat_of_ascii c)) 57); [| discriminate].
  cbn [andb]. intros [= <-]. split; [lia |].
  replace (48 + Z.to_nat (Z.of_nat (nat_of_ascii c) - 48))%nat
    with (nat_of_ascii c) by lia.
  apply ascii_nat_embedding.
Qed.

Lemma decimal_join_4 (a b c d : Z) :
  0 <= a <= 9 -> 0 <= b <= 9 -> 0 <= c <= 9 -> 0 <= d <= 9 ->
  let y := 1000 * a + 100 * b + 10 * c + d in
  y / 1000 = a /\ y / 100 mod 10 = b /\ y / 10 mod 10 = c /\ y mod 10 = d.
Proof. intros. subst y. Z.to_euclidean_division_equations. lia. Qed.

Lemma decimal_join_2 (a b : Z) :
  0 <= a <= 9 -> 0 <= b <= 9 ->
  (10 * a + b) / 10 = a /\ (10 * a + b) mod 10 = b.
Proof. intros. Z.to_euclidean_division_equations. lia. Qed.

(** A text of the form [YYYY-MM-DD] is the text [isoformat] writes for
    its fields. *)
Lemma isoformat_extended (s : string) (y m dd : Z) :
  extended s = Some (y, m, dd) -> isoformat (mkDate y m dd) = s.
Proof.
  unfold extended.
  destruct s as [| y1 [| y2 [| y3 [| y4 [| c1 [| m1 [| m2 [| c2 [| d1 [| d2
    [| ? ?]]]]]]]]]]];
    try discriminate.
  all: destruct c1 as [[|] [|] [|] [|] [|] [|] [|] [|]]; try discriminate.
  all: destruct c2 as [[|] [|] [|] [|] [|] [|] [|] [|]]; try discriminate.
  destruct (digit_val y1) as [a |] eqn:E1;
      destruct (digit_val y2) as [b |] eqn:E2;
      destruct (digit_val y3) as [c |] eqn:E3;
      destruct (digit_val y4) as [e |] eqn:E4;
      destruct (digit_val m1) as [f |] eqn:E5;
      destruct (digit_val m2) as [g |] eqn:E6;
      destruct (digit_val d1) as [h |] eqn:E7;
      destruct (digit_val d2) as [i |] eqn:E8;
      try discriminate.
    intros H.
    apply (f_equal (fun o => match o with Some x => x | None => (y, m, dd) end))
      in H.
    cbv beta iota in H.
    pose proof (f_equal (fun t => fst (fst t)) H) as Hy.
    pose proof (f_equal (fun t => snd (fst t)) H) as Hm.
    pose proof (f_equal (fun t => snd t) H) as Hd.
    cbv beta iota delta [fst snd] in Hy, Hm, Hd. clear H. subst y m dd.
    apply digit_of_digit_val in E1, E2, E3, E4, E5, E6, E7, E8.
    destruct E1 as [B1 <-], E2 as [B2 <-], E3 as [B3 <-], E4 as [B4 <-],
             E5 as [B5 <-], E6 as [B6 <-], E7 as [B7 <-], E8 as [B8 <-].
    cbv beta iota zeta delta [isoformat year month day].
    destruct (decimal_join_4 a b c e B1 B2 B3 B4) as (-> & -> & -> & ->).
    destruct (decimal_join_2 f g B5 B6) as (-> & ->).
    destruct (decimal_join_2 h i B7 B8) as (-> & ->).
    reflexivity.
Qed.

(** X16.  Dates survive storage as text: [fromisoformat] gives back every
    date [isoformat] wrote; a text of the form [YYYY-MM-DD] that
    [fromisoformat] accepts is the [isoformat] of the date it is read as,
    which is a valid date; and two dates with the same text are the same
    date. *)
Theorem isoformat_round_trip (d : date) :
  valid_date d = true ->
  fromisoformat (isoformat d) = Some d /\
  (forall s d',
     extended s <> None -> fromisoformat s = Some d' ->
     valid_date d' = true /\ s = isoformat d') /\
  (forall d', valid_date d' = true -> isoformat d' = isoformat d -> d' = d).
Proof.
  intros Hvalid.
  pose proof (fromisoformat_isoformat d Hvalid) as Hd.
  split; [exact Hd |]. split.
  - intros s d' Hform Hs. unfold fromisoformat in Hs.
    destruct (extended s) as [[[y m] dd] |] eqn:He; [| congruence].
    cbv zeta in Hs.
    destruct (valid_date (mkDate y m dd)) eqn:Hv; [| discriminate Hs].
    injection Hs as <-. split; [exact Hv |].
    symmetry. exact (isoformat_extended _ _ _ _ He).
  - intros d' Hvalid' Heq.
    pose proof (fromisoformat_isoformat d' Hvalid') as Hd'.
    rewrite Heq, Hd in Hd'. injection Hd' as ->. reflexivity.
Qed.

(** ** The schema along a history *)

Lemma consecutive_member (n : nat) :
  forall first y, In y (consecutive first n) -> first <= y.
Proof.
  induction n as [| n IH]; intros first y Hin; [destruct Hin |].
  destruct Hin as [<- | Hin]; [lia |].
  specialize (IH _ _ Hin). lia.
Qed.

Lemma consecutive_keyed (n : nat) :
  forall first, NoDup (consecutive first n).
Proof.
  induction n as [| n IH]; intros first; simpl; constructor.
  - intros Hin. apply consecutive_member in Hin. lia.
  - apply IH.
Qed.

Lemma NoDup_app_above (old new : list Z) (bound : Z) :
  NoDup old -> NoDup new ->
  (forall x, In x old -> x < bound) -> (forall y, In y new -> bound <= y) ->
  NoDup (old ++ new).
Proof.
  intros Hold Hnew Hlt Hge. induction Hold as [| a l Hnotin Hnd IH]; simpl.
  - exact Hnew.
  - constructor.
    + intros Hin. apply in_app_or in Hin. destruct Hin as [Hin | Hin].
      * exact (Hnotin Hin).
      * specialize (Hlt a (or_introl eq_refl)). specialize (Hge a Hin). lia.
    + apply IH. intros x Hx. apply Hlt. right. exact Hx.
Qed.

Lemma handle_schema (rq : request) (db : DB) :
  schema_ok db -> schema_ok (handle rq db).
Proof.
  intros (Hp & Hc & Hi & Hl & Ho & Hcp).
  destruct (handle_invariants rq db (conj Hp Ho)) as [Hp' Ho'].
  unfold schema_ok. split; [exact Hp' |].
  assert (Hrest : clients_keyed (handle rq db) /\
                  invoices_keyed (handle rq db) /\
                  items_keyed (handle rq db) /\
                  clients_present (handle rq db));
    [| tauto].
  clear Hp' Ho'.
  destruct rq as [p | | id | id]; simpl handle.
  - destruct (create_invoice_cases p db) as [[r H] | [_ ->]]; [| tauto].
    created H.
    destruct H as (c & no & new & Hid & Hcid & Hfind & _ & _ & _ & _ & Hcl &
                   _ & Hinv & Hitems & _ & _ & Hids & _).
    unfold clients_keyed, invoices_keyed, items_keyed, clients_present.
    rewrite Hcl, Hinv, Hitems.
    pose proof (next_rowid_above (map inv_id (invoices db)) (seq_invoices db))
      as [_ Hfresh].
    pose proof (next_rowid_above (map it_id (invoice_items db))
                  (seq_invoice_items db)) as [_ Hfresh'].
    split; [exact Hc |]. split; [| split].
    + rewrite map_app. cbn [map inv_id]. apply NoDup_snoc; [exact Hi |].
      intros Hin. specialize (Hfresh _ Hin). lia.
    + rewrite map_app.
      apply NoDup_app_above
        with (bound := next_rowid (map it_id (invoice_items db))
                                  (seq_invoice_items db)).
      * exact Hl.
      * rewrite Hids. apply consecutive_keyed.
      * exact Hfresh'.
      * intros y Hy. rewrite Hids in Hy.
        exact (consecutive_member _ _ _ Hy).
    + intros i Hin. apply in_app_or in Hin.
      destruct Hin as [Hin | [<- | []]]; [exact (Hcp i Hin) |].
      simpl. apply find_some in Hfind. destruct Hfind as [Hcin Hceq].
      apply Z.eqb_eq in Hceq. rewrite <- Hceq. apply in_map. exact Hcin.
  - tauto.
  - rewrite get_invoice_reads. tauto.
  - destruct (delete_invoice_tables id db)
      as [-> | (Hinv & Hitems & _ & Hcl)]; [tauto |].
    unfold clients_keyed, invoices_keyed, items_keyed, clients_present.
    rewrite Hinv, Hitems, Hcl.
    split; [exact Hc |].
    split; [apply NoDup_map_filter; exact Hi |].
    split; [apply NoDup_map_filter; exact Hl |].
    intros i Hin. apply filter_In in Hin. exact (Hcp i (proj1 Hin)).
Qed.

(** X14.  Every request keeps the schema: along any history, product,
    client, invoice and line ids stay primary keys, every line belongs to a
    stored invoice and every invoice refers to a stored client. *)
Theorem history_schema (rqs : list request) (db : DB) :
  schema_ok db -> schema_ok (run rqs db).
Proof.
  revert db. induction rqs as [| rq rest IH]; intros db H; [exact H |].
  change (run (rq :: rest) db) with (run rest (handle rq db)).
  apply IH. apply handle_schema. exact H.
Qed.

Lemma upgrade_schema : schema_ok upgrade.
Proof.
  unfold schema_ok, products_keyed, clients_keyed, invoices_keyed,
    items_keyed, no_orphans, clients_present. simpl.
  split; [| split; [| split; [| split; [| split]]]].
  - repeat (constructor; [simpl; intuition discriminate |]). constructor.
  - repeat (constructor; [simpl; intuition discriminate |]). constructor.
  - constructor.
  - constructor.
  - intros it [].
  - intros i [].
Qed.


(** ** The listing after a write *)

Lemma key_injective {A} (key : A -> Z) (l : list A) (x y : A) :
  NoDup (map key l) -> In x l -> In y l -> key x = key y -> x = y.
Proof.
  induction l as [| a l IH]; intros Hnd Hx Hy Hk; [destruct Hx |].
  inversion Hnd as [| ? ? Hnotin Hnd']; subst.
  destruct Hx as [<- | Hx], Hy as [<- | Hy].
  - reflexivity.
  - exfalso. apply Hnotin. rewrite Hk. apply in_map. exact Hy.
  - exfalso. apply Hnotin. rewrite <- Hk. apply in_map. exact Hx.
  - exact (IH Hnd' Hx Hy Hk).
Qed.

(** X17.  With client ids a key, a successful [create_invoice] adds exactly
    one entry to the listing, the one of the new invoice with the name of
    its client, and leaves every other entry as it was. *)
Theorem list_after_create (p : InvoiceCreate) (db : DB)
    (r : InvoiceResponse) (db' : DB) (s : InvoiceSummary) :
  clients_keyed db ->
  create_invoice p db = (Returned r, db') ->
  (In s (listed db') <->
   In s (listed db) \/
   s = mkSummary (r_id r) (r_invoice_no r) (isoformat (issue_date p))
         (isoformat (due_date p)) (cr_name (r_client r)) (r_total r)).
Proof.
  intros Hkey H.
  destruct (create_invoice_stored _ _ _ _ H)
    as (c & Hrid & Hrcid & Hc & _ & _ & Hcl & _ & Hinv & _).
  created H.
  destruct H as (_ & _ & _ & _ & _ & _ & _ & _ & _ & _ & Hclients & _).
  pose proof (find_some _ _ Hc) as [Hcin Hcid]. apply Z.eqb_eq in Hcid.
  rewrite Hcl. cbn [cr_name].
  rewrite !listed_members. rewrite Hinv, Hclients. split.
  - intros (i & c' & Hi & Hc' & Hon & ->).
    apply in_app_or in Hi. destruct Hi as [Hi | [<- | []]].
    + left. exists i, c'. repeat split; assumption.
    + right. simpl in Hon.
      assert (c' = c) as ->
        by (apply (key_injective c_id (clients db)); try assumption; lia).
      reflexivity.
  - intros [(i & c' & Hi & Hc' & Hon & ->) | ->].
    + exists i, c'. repeat split; try assumption.
      apply in_or_app. left. exact Hi.
    + eexists. exists c. split; [apply in_or_app; right; left; reflexivity |].
      split; [exact Hcin |]. split; [exact Hcid | reflexivity].
Qed.

(** X18.  After [delete_invoice] the listing has lost the entries with the
    given id, and only those. *)
Theorem list_after_delete (id : Z) (db : DB) (s : InvoiceSummary) :
  In s (listed (snd (delete_invoice id db))) <->
  In s (listed db) /\ s_id s <> id.
Proof.
  unfold delete_invoice, get_db. rewrite delete_invoice_body_run.
  pose proof (stored_invoice_out_of_range id db) as Hout.
  destruct (in_int64 id).
  2: { specialize (Hout eq_refl). cbn [snd reraise_or_500].
       split; [| tauto]. intros Hin. split; [exact Hin |].
       apply listed_members in Hin. destruct Hin as (i & c & Hi & _ & _ & ->).
       unfold stored_invoice in Hout.
       pose proof (find_none _ _ Hout i Hi) as Hne.
       apply Z.eqb_neq in Hne. exact Hne. }
  clear Hout.
  destruct (stored_invoice db id) as [i0 |] eqn:Hstored; cbn [snd reraise_or_500].
  - rewrite !listed_members. cbn [invoices clients]. split.
    + intros (i & c & Hi & Hc & Hon & ->).
      apply filter_In in Hi. destruct Hi as [Hi Hne].
      apply negb_true_iff in Hne. apply Z.eqb_neq in Hne.
      split; [| exact Hne]. exists i, c. repeat split; assumption.
    + intros [(i & c & Hi & Hc & Hon & ->) Hne].
      exists i, c. repeat split; try assumption.
      apply filter_In. split; [exact Hi |].
      apply negb_true_iff. apply Z.eqb_neq. exact Hne.
  - split; [| tauto]. intros Hin. split; [exact Hin |].
    apply listed_members in Hin. destruct Hin as (i & c & Hi & _ & _ & ->).
    unfold stored_invoice in Hstored.
    pose proof (find_none _ _ Hstored i Hi) as Hne.
    apply Z.eqb_neq in Hne. exact Hne.
Qed.

(** ** The whole response, read back *)

(** [get_invoice] on the id of an invoice just created. *)
Lemma get_created (p : InvoiceCreate) (db : DB) (r : InvoiceResponse)
    (db' : DB) :
  products_keyed db -> no_orphans db ->
  valid_date (issue_date p) = true -> valid_date (due_date p) = true ->
  create_invoice p db = (Returned r, db') ->
  get_invoice (r_id r) db' =
    (Returned
       (mkInvoiceResponse (r_id r) (r_invoice_no r) (issue_date p)
          (due_date p) (r_client r) (r_address r) (r_items r)
          (Float.real_column (tax p)) (r_total r)), db').
Proof.
  intros Hkey Horph Hd1 Hd2 H.
  destruct (create_invoice_stored _ _ _ _ H)
    as (c & Hrid & Hrcid & Hc & _ & _ & Hcl & Hid & Hinv & _).
  created H.
  destruct H as (c' & no & new & _ & _ & _ & _ & _ & Hpriced & _ & Hclients &
                 Hproducts & _ & Hitems & Hst & Hsorted & _).
  clear c'. rewrite <- Hid in Hst.
  pose proof (next_rowid_above (map inv_id (invoices db)) (seq_invoices db))
    as [_ Hfresh]. rewrite <- Hid in Hfresh.
  unfold get_invoice, get_db. rewrite get_invoice_body_run.
  rewrite select_invoice_run, Hrid. unfold select_items, query.
  rewrite Hinv, Hclients, Hitems, Hproducts, !join_app, !filter_app.
  rewrite (filter_none _ (join _ (invoices db) _)).
  2: { intros row Hrow. apply join_member in Hrow. destruct Hrow as [Hrow _].
       apply Z.eqb_neq. specialize (Hfresh _ (in_map inv_id _ _ Hrow)). lia. }
  rewrite (filter_none _ (join _ (invoice_items db) _)).
  2: { intros row Hrow. apply join_member in Hrow. destruct Hrow as [Hrow _].
       apply Z.eqb_neq. specialize (Hfresh _ (Horph _ Hrow)). lia. }
  cbn [app].
  destruct (join_new_lines db (r_id r) Hkey _ _ _ Hpriced Hst)
    as [Hfst Hrows].
  rewrite (filter_all _ (join _ new _)).
  2: { intros row Hrow. apply Z.eqb_eq.
       apply (stores_invoice_id _ _ _ Hst).
       rewrite <- Hfst. apply in_map. exact Hrow. }
  rewrite order_by_sorted
    by (apply StronglySorted_map_key with (g := fst) (k := it_id);
        rewrite Hfst; exact Hsorted).
  rewrite Hrows.
  unfold join at 1. cbn [flat_map]. rewrite app_nil_r.
  rewrite <- hd_error_filter_find in Hc.
  destruct (filter _ (clients db)) as [| c0 rest]; [discriminate Hc |].
  injection Hc as ->. cbn [map filter fst inv_id]. rewrite Z.eqb_refl.
  cbn [hd_error inv_issue_date inv_due_date].
  rewrite (fromisoformat_isoformat _ Hd1), (fromisoformat_isoformat _ Hd2).
  cbn [reraise_or_500 inv_id inv_invoice_no inv_address inv_tax inv_total].
  rewrite Hcl. reflexivity.
Qed.

(** X19.  Round trip of the rest of the response: on a store that satisfies
    the schema, [get_invoice] on the id of a created invoice returns the id,
    the number (generated or explicit), both dates and the address of the
    creation response. *)
Theorem get_after_create_header (p : InvoiceCreate) (db : DB)
    (r : InvoiceResponse) (db' : DB) :
  products_keyed db -> no_orphans db ->
  valid_date (issue_date p) = true -> valid_date (due_date p) = true ->
  create_invoice p db = (Returned r, db') ->
  exists g,
    get_invoice (r_id r) db' = (Returned g, db') /\
    r_id g = r_id r /\
    r_invoice_no g = r_invoice_no r /\
    r_issue_date g = r_issue_date r /\
    r_due_date g = r_due_date r /\
    r_address g = r_address r.
Proof.
  intros Hkey Horph Hd1 Hd2 H.
  pose proof (get_created p db r db' Hkey Horph Hd1 Hd2 H) as Hget.
  created H.
  destruct H as (c & no & new & _ & _ & _ & _ & _ & _ & Hr & _).
  eexists. split; [exact Hget |]. cbn [r_id r_invoice_no r_issue_date
                                      r_due_date r_address].
  rewrite Hr. repeat split.
Qed.


(** ** The books along a history *)

Lemma stores_sum (id : Z) (rows : list InvoiceItemResponse)
    (new : list InvoiceItem) :
  Forall2 (stores id) rows new ->
  forall start,
    fold_left (fun acc line => Float.add acc (it_line_total line)) new start =
    sum_rows rows start.
Proof.
  induction 1 as [| row line rows new (_ & _ & _ & _ & Hl) _ IH];
    intros start; [reflexivity |].
  simpl. rewrite Hl. apply IH.
Qed.

Lemma priced_rounded (db : DB) (its : list InvoiceItemCreate)
    (rows : list InvoiceItemResponse) :
  Forall2 (priced db) its rows ->
  Forall (fun row => rounded (ir_line_total row)) rows.
Proof.
  induction 1 as [| it row its rows (product & _ & ->) _ IH]; constructor.
  - cbn [ir_line_total]. apply mul_rounded.
  - exact IH.
Qed.

Lemma stores_priced_line (db : DB) (id : Z) (its : list InvoiceItemCreate)
    (rows : list InvoiceItemResponse) (new : list InvoiceItem) :
  Forall2 (priced db) its rows ->
  Forall2 (stores id) rows new ->
  forall line, In line new ->
    it_line_total line =
      Float.mul (it_unit_price line) (Float.of_int (it_quantity line)).
Proof.
  intros Hp Hs. revert its Hp.
  induction Hs as [| row l rows new (_ & _ & Hq & Hu & Hl) _ IH];
    intros its Hp line Hin; [destruct Hin |].
  inversion Hp as [| it ? its' ? (product & _ & Hrow) Hp']; subst.
  destruct Hin as [<- | Hin]; [| exact (IH _ Hp' _ Hin)].
  rewrite Hl, Hu, Hq. reflexivity.
Qed.

Lemma handle_books (rq : request) (db : DB) :
  books_ok db -> books_ok (handle rq db).
Proof.
  intros (Ho & Hl & Ht).
  destruct rq as [p | | id | id]; simpl handle.
  - destruct (create_invoice_cases p db) as [[r H] | [_ ->]];
      [| exact (conj Ho (conj Hl Ht))].
    pose proof (proj1 (create_invoice_Returned _ _ _ _ H)) as Hne.
    created H.
    destruct H as (c & no & new & Hid & Hcid & _ & _ & _ & Hpriced & Hr & _ &
                   _ & Hinv & Hitems & Hst & _).
    pose proof (f_equal r_total Hr) as Hrtot. cbn [r_total] in Hrtot.
    pose proof (next_rowid_above (map inv_id (invoices db)) (seq_invoices db))
      as [_ Hfresh].
    set (id := next_rowid (map inv_id (invoices db)) (seq_invoices db)) in *.
    assert (Hold : forall j, In j (map inv_id (invoices db)) ->
              filter (fun it => it_invoice_id it =? j)
                (invoice_items db ++ new) =
              filter (fun it => it_invoice_id it =? j) (invoice_items db)).
    { intros j Hj. rewrite filter_app, (filter_none _ new).
      - apply app_nil_r.
      - intros line Hin. apply Z.eqb_neq.
        rewrite (stores_invoice_id _ _ _ Hst _ Hin).
        specialize (Hfresh j Hj). lia. }
    assert (Hnew : filter (fun it => it_invoice_id it =? id)
                (invoice_items db ++ new) = new).
    { rewrite filter_app, (filter_all _ new), filter_none; [reflexivity | |].
      - intros line Hin. apply Z.eqb_neq.
        specialize (Hfresh _ (Ho line Hin)). lia.
      - intros line Hin. apply Z.eqb_eq.
        exact (stores_invoice_id _ _ _ Hst _ Hin). }
    unfold books_ok, no_orphans, stored_items.
    rewrite Hinv, Hitems. split; [| split].
    + intros line Hin. rewrite map_app. apply in_or_app.
      apply in_app_or in Hin. destruct Hin as [Hin | Hin].
      * left. exact (Ho line Hin).
      * right. left. simpl.
        symmetry. exact (stores_invoice_id _ _ _ Hst _ Hin).
    + intros line Hin. apply in_app_or in Hin.
      destruct Hin as [Hin | Hin]; [exact (Hl line Hin) |].
      exact (stores_priced_line _ _ _ _ _ Hpriced Hst _ Hin).
    + intros i Hin. apply in_app_or in Hin.
      destruct Hin as [Hin | [<- | []]].
      * rewrite (Hold _ (in_map inv_id _ _ Hin)). exact (Ht i Hin).
      * cbn [inv_id inv_total inv_tax]. rewrite Hnew. split.
        -- intros ->. inversion Hst as [Hrows |]; subst.
           rewrite <- Hrows in Hpriced. inversion Hpriced as [Hits |].
           symmetry in Hits. exact (Hne Hits).
        -- unfold sum_lines. rewrite (stores_sum _ _ _ Hst), Hrtot.
           symmetry. apply add_real_column.
           apply sum_rows_rounded;
             [exact (priced_rounded _ _ _ Hpriced) | exact I | discriminate].
  - exact (conj Ho (conj Hl Ht)).
  - rewrite get_invoice_reads. exact (conj Ho (conj Hl Ht)).
  - unfold delete_invoice, get_db. rewrite delete_invoice_body_run.
    destruct (in_int64 id); [| exact (conj Ho (conj Hl Ht))].
    destruct (stored_invoice db id) as [i0 |];
      [| exact (conj Ho (conj Hl Ht))].
    unfold books_ok, no_orphans, stored_items.
    cbn [snd reraise_or_500 invoices invoice_items]. split; [| split].
    + intros line Hin. apply filter_In in Hin. destruct Hin as [Hin Hne].
      specialize (Ho line Hin). apply in_map_iff in Ho.
      destruct Ho as (i & Hi & Hiin).
      apply in_map_iff. exists i. split; [exact Hi |].
      apply filter_In. split; [exact Hiin |]. rewrite Hi. exact Hne.
    + intros line Hin. apply filter_In in Hin. exact (Hl line (proj1 Hin)).
    + intros i Hin. apply filter_In in Hin. destruct Hin as [Hin Hne].
      apply negb_true_iff in Hne. apply Z.eqb_neq in Hne.
      assert (Hsame : filter (fun it => it_invoice_id it =? inv_id i)
                  (filter (fun it => negb (it_invoice_id it =? id))
                     (invoice_items db)) =
                filter (fun it => it_invoice_id it =? inv_id i)
                  (invoice_items db)).
      { apply filter_absorb. intros line Hline. apply Z.eqb_eq in Hline.
        apply negb_true_iff. apply Z.eqb_neq. lia. }
      rewrite Hsame. exact (Ht i Hin).
Qed.

(** X20.  The books stay consistent along every history: every line
    belongs to a stored invoice and has [unit_price * quantity] as its line
    total, and every stored invoice has at least one line and a total equal
    to its tax plus the sum of its line totals. *)
Theorem history_books (rqs : list request) (db : DB) :
  books_ok db -> books_ok (run rqs db).
Proof.
  revert db. induction rqs as [| rq rest IH]; intros db H; [exact H |].
  change (run (rq :: rest) db) with (run rest (handle rq db)).
  apply IH. apply handle_books. exact H.
Qed.

(** ** Prices are snapshots *)

Lemma filter_map_comm {A B} (f : B -> bool) (h : A -> B) (l : list A) :
  filter f (map h l) = map h (filter (fun x => f (h x)) l).
Proof.
  induction l as [| a l IH]; simpl; [reflexivity |].
  destruct (f (h a)); simpl; rewrite IH; reflexivity.
Qed.

Lemma join_map_r {A B} (on : A -> B -> bool) (g : B -> B) (l : list A)
    (r : list B) :
  (forall a b, on a (g b) = on a b) ->
  join on l (map g r) =
  map (fun row => (fst row, g (snd row))) (join on l r).
Proof.
  intros Hon. unfold join. induction l as [| a l IH]; simpl; [reflexivity |].
  rewrite map_app, IH. f_equal.
  rewrite filter_map_comm, !map_map. cbn [fst snd].
  f_equal. apply filter_ext. intros b. apply Hon.
Qed.

Lemma insert_by_map {A B} (key : A -> Z) (key' : B -> Z) (h : A -> B)
    (x : A) (l : list A) :
  (forall a, key' (h a) = key a) ->
  insert_by key' (h x) (map h l) = map h (insert_by key x l).
Proof.
  intros Hk. induction l as [| y rest IH]; simpl; [reflexivity |].
  rewrite !Hk. destruct (key x <=? key y); simpl; [reflexivity |].
  rewrite IH. reflexivity.
Qed.

Lemma order_by_map {A B} (key : A -> Z) (key' : B -> Z) (h : A -> B)
    (l : list A) :
  (forall a, key' (h a) = key a) ->
  order_by key' (map h l) = map h (order_by key l).
Proof.
  intros Hk. induction l as [| x rest IH]; [reflexivity |].
  change (order_by key' (map h (x :: rest)))
    with (insert_by key' (h x) (order_by key' (map h rest))).
  change (order_by key (x :: rest))
    with (insert_by key x (order_by key rest)).
  rewrite IH. apply insert_by_map. exact Hk.
Qed.

(** X21.  Prices are snapshots: whatever happens to the price column of the
    products table after an invoice was created, [get_invoice] and
    [list_invoices] answer as before; unit prices, line totals and totals
    come from the invoice tables alone. *)
Theorem prices_are_snapshots (f : Product -> float) (id : Z) (db : DB) :
  fst (get_invoice id (reprice f db)) = fst (get_invoice id db) /\
  listed (reprice f db) = listed db.
Proof.
  split; [| reflexivity].
  unfold get_invoice, get_db. rewrite !get_invoice_body_run.
  assert (Hitems : select_items id (reprice f db) =
                   match select_items id db with
                   | Done rows _ => Done rows (reprice f db)
                   | Raised e _ => Raised e (reprice f db)
                   end).
  { unfold select_items, query, reprice. cbn [invoice_items products].
    f_equal.
    rewrite (join_map_r (fun it p => p_id p =? it_product_id it)
               (fun p => mkProduct (p_id p) (p_name p) (f p) (p_id_range p)))
      by reflexivity.
    rewrite filter_map_comm. cbn [fst].
    rewrite (order_by_map (fun row : InvoiceItem * Product => it_id (fst row))
               (fun row : InvoiceItem * Product => it_id (fst row)))
      by reflexivity.
    rewrite map_map. reflexivity. }
  rewrite Hitems, !select_invoice_run.
  destruct (in_int64 id); [| reflexivity].
  unfold select_items, query, reprice.
  cbn [invoices clients].
  destruct (hd_error _) as [[i c] |]; [| reflexivity].
  destruct (fromisoformat (inv_issue_date i)); [| reflexivity].
  destruct (fromisoformat (inv_due_date i)); reflexivity.
Qed.

End Router.

(** * Instances

    The examples run with the [date.fromisoformat] of Python up to 3.10,
    which accepts the form [YYYY-MM-DD] only. *)

Lemma create_invoice_total_witness :
  r_total example_response =
    Float.add (tax example_payload)
              (sum_of_lines upgrade (items example_payload)) /\
  r_total example_response = Float.of_int 3000.
Proof.
  split.
  - apply (create_invoice_total example_payload upgrade example_response
             example_db).
    vm_compute. reflexivity.
  - reflexivity.
Defined.

Lemma create_invoice_missing_product_witness :
  create_invoice (with_items [mkItemCreate 1 2; mkItemCreate 99 1]
                    example_payload) example_db =
    (Failed 404 "Product not found: 99", example_db).
Proof.
  apply (create_invoice_missing_product
           (with_items [mkItemCreate 1 2; mkItemCreate 99 1] example_payload)
           example_db 99).
  - reflexivity.
  - reflexivity.
  - reflexivity.
  - intros _. vm_compute. discriminate.
  - reflexivity.
  - repeat constructor.
Defined.

(** C2 as stated fails: a product id outside SQLite's INTEGER range is in
    no products table, and the request that names it is answered with the
    500 of the driver's [OverflowError], not with a 404 that names it.  The
    same 500 answers a missing product behind an item whose quantity Python
    cannot convert to [float]. *)
Lemma create_invoice_missing_product_500 :
  first_missing upgrade [mkItemCreate (2 ^ 63) 1] = Some (2 ^ 63) /\
  create_invoice (with_items [mkItemCreate (2 ^ 63) 1] example_payload)
                 upgrade =
    (Failed 500
       "Database error: Python int too large to convert to SQLite INTEGER",
     upgrade) /\
  create_invoice
    (with_items [mkItemCreate 1 (2 ^ 1024); mkItemCreate 99 1]
                example_payload) upgrade =
    (Failed 500 "Database error: int too large to convert to float",
     upgrade) /\
  ~ (forall p db pid,
       first_missing db (items p) = Some pid ->
       exists d, fst (create_invoice p db) = Failed 404 d).
Proof.
  split; [reflexivity |].
  split; [vm_compute; reflexivity |].
  split; [vm_compute; reflexivity |].
  intros H.
  destruct (H (with_items [mkItemCreate (2 ^ 63) 1] example_payload)
              upgrade (2 ^ 63) eq_refl) as [d Hd].
  vm_compute in Hd. discriminate Hd.
Qed.

Lemma create_invoice_empty_items_witness :
  create_invoice (with_items [] example_payload) example_db =
    (Failed 400 "Invoice must include at least one item", example_db).
Proof.
  apply (create_invoice_empty_items (with_items [] example_payload)
           example_db).
  reflexivity.
Defined.

Lemma create_invoice_explicit_number_witness :
  (forall r db',
     create_invoice (with_invoice_no (Some "A-7") example_payload)
                    example_db = (Returned r, db') ->
     r_invoice_no r = "A-7" /\
     option_map inv_invoice_no (stored_invoice db' (r_id r)) = Some "A-7") /\
  create_invoice (with_invoice_no (Some "INV-00001") example_payload)
                 example_db =
    (Failed 409 "Invoice number already exists", example_db).
Proof.
  split.
  - apply (create_invoice_explicit_number
             (with_invoice_no (Some "A-7") example_payload)
             example_db "A-7" eq_refl ltac:(discriminate)
             ltac:(discriminate) eq_refl).
  - apply (create_invoice_explicit_number
             (with_invoice_no (Some "INV-00001") example_payload)
             example_db "INV-00001" eq_refl ltac:(discriminate)
             ltac:(discriminate) eq_refl).
Defined.

(** C4 as stated fails on the empty string: it is an explicit number, no
    stored invoice has it, and the request succeeds under a generated
    number.  A taken number is also not answered with 409 when the request
    has no items (400) or an unknown client (404). *)
Lemma create_invoice_explicit_number_empty :
  create_invoice (with_invoice_no (Some "") example_payload) upgrade =
    (Returned example_response, example_db) /\
  create_invoice
    (with_invoice_no (Some "INV-00001") (with_items [] example_payload))
    example_db =
    (Failed 400 "Invoice must include at least one item", example_db) /\
  create_invoice
    (with_invoice_no (Some "INV-00001") (with_client 99 example_payload))
    example_db = (Failed 404 "Client not found", example_db) /\
  ~ (forall p db no r db',
       invoice_no p = Some no ->
       existsb (fun i => String.eqb (inv_invoice_no i) no) (invoices db)
         = false ->
       create_invoice p db = (Returned r, db') ->
       r_invoice_no r = no).
Proof.
  split; [vm_compute; reflexivity |].
  split; [vm_compute; reflexivity |].
  split; [vm_compute; reflexivity |].
  intros H.
  specialize (H (with_invoice_no (Some "") example_payload) upgrade ""
                example_response example_db eq_refl eq_refl).
  assert (Hrun : create_invoice (with_invoice_no (Some "") example_payload)
                   upgrade = (Returned example_response, example_db))
    by (vm_compute; reflexivity).
  specialize (H Hrun). discriminate H.
Qed.

Lemma generated_numbers_witness :
  StronglySorted Z.lt
    (auto_numbers extended_only invalid_isoformat
       [Create example_payload; Create example_payload; Delete 1;
        Create example_payload] upgrade) /\
  auto_numbers extended_only invalid_isoformat
    [Create example_payload; Create example_payload; Delete 1;
     Create example_payload] upgrade = [1; 2; 3].
Proof.
  split.
  - apply (generated_numbers extended_only invalid_isoformat upgrade).
    vm_compute. repeat split; discriminate.
  - vm_compute. reflexivity.
Defined.

(** C5 as stated fails once the invoice with the largest id is deleted:
    the numbers [1; 1] are generated around the deletion of invoice 1, the
    second of them for an invoice with the new id 2, and after three
    creations and the deletion of invoices 2 and 3 the next generated
    number is 2 again. *)
Lemma generated_number_repeats :
  auto_numbers extended_only invalid_isoformat
    [Create example_payload; Delete 1; Create example_payload]
    upgrade = [1; 1] /\
  (exists r db',
     create_invoice example_payload
       (run extended_only invalid_isoformat
          [Create example_payload; Delete 1] upgrade) = (Returned r, db') /\
     r_id r = 2 /\ r_invoice_no r = "INV-00001") /\
  auto_numbers extended_only invalid_isoformat
    [Create example_payload; Create example_payload; Create example_payload;
     Delete 2; Delete 3; Create example_payload] upgrade = [1; 2; 3; 2] /\
  ~ (forall rqs db,
       StronglySorted Z.lt
         (auto_numbers extended_only invalid_isoformat rqs db)).
Proof.
  split; [vm_compute; reflexivity |]. split.
  - eexists. eexists. split; [vm_compute; reflexivity |].
    split; reflexivity.
  - split; [vm_compute; reflexivity |].
    intros H.
    specialize (H [Create example_payload; Delete 1; Create example_payload]
                  upgrade).
    vm_compute in H.
    inversion H as [| ? ? _ Hall]. inversion Hall as [| ? ? Hlt _].
    discriminate Hlt.
Qed.

Lemma get_after_create_witness :
  exists g,
    get_invoice extended_only invalid_isoformat (r_id example_response)
                example_db =
      (Returned g, example_db) /\
    r_total g = r_total example_response /\
    r_items g = r_items example_response /\
    r_client g = r_client example_response.
Proof.
  apply (get_after_create extended_only invalid_isoformat example_payload
           upgrade example_response example_db).
  - unfold products_keyed. simpl.
    repeat (constructor; [simpl; intuition discriminate |]). constructor.
  - intros it [].
  - reflexivity.
  - reflexivity.
  - vm_compute. reflexivity.
Defined.

(** C7 as stated fails on an id outside SQLite's INTEGER range: no invoice
    with that id exists, and the answer is the 500 of the driver's
    [OverflowError], not a 404. *)
Lemma delete_invoice_out_of_range :
  stored_invoice example_db (2 ^ 63) = None /\
  delete_invoice (2 ^ 63) example_db =
    (Failed 500
       "Database error: Python int too large to convert to SQLite INTEGER",
     example_db) /\
  ~ (forall id db,
       stored_invoice db id = None ->
       delete_invoice id db = (Failed 404 "Invoice not found", db)).
Proof.
  split; [reflexivity |]. split; [vm_compute; reflexivity |].
  intros H. specialize (H (2 ^ 63) example_db eq_refl).
  vm_compute in H. discriminate H.
Qed.

Lemma create_invoice_address_witness :
  exists c,
    find (fun c => c_id c =? 1) sample_clients = Some c /\
    r_address example_response = c_address c.
Proof.
  destruct (create_invoice_address example_payload upgrade example_response
              example_db ltac:(vm_compute; reflexivity))
    as (c & Hc & _ & _ & Hdefault).
  exists c. split; [exact Hc |].
  apply Hdefault. left. reflexivity.
Defined.

(** C8 as stated fails on the empty string: it is an explicit address, and
    the invoice gets the address of the client. *)
Lemma create_invoice_address_empty :
  ~ (forall p db r db' a,
       address p = Some a ->
       create_invoice p db = (Returned r, db') ->
       option_map inv_address (stored_invoice db' (r_id r)) = Some a).
Proof.
  intros H.
  specialize (H (with_address (Some "") example_payload) upgrade
                example_response example_db "" eq_refl).
  assert (Hrun : create_invoice (with_address (Some "") example_payload)
                   upgrade = (Returned example_response, example_db))
    by (vm_compute; reflexivity).
  specialize (H Hrun). vm_compute in H. discriminate H.
Qed.

Lemma storage_failure_surfaced_witness :
  create_invoice example_payload taken_db =
    (Failed 500 "Database error: UNIQUE constraint failed: invoices.invoice_no",
     taken_db) /\
  (exists db1,
     create_invoice_body refused_line upgrade = Raised OverflowError db1 /\
     List.length (invoices db1) = 1%nat /\
     List.length (invoice_items db1) = 1%nat) /\
  create_invoice refused_line upgrade =
    (Failed 500
       "Database error: Python int too large to convert to SQLite INTEGER",
     upgrade) /\
  delete_invoice (2 ^ 63) example_db =
    (Failed 500
       "Database error: Python int too large to convert to SQLite INTEGER",
     example_db) /\
  get_invoice extended_only invalid_isoformat (2 ^ 63) example_db =
    (Failed 500
       "Database error: Python int too large to convert to SQLite INTEGER",
     example_db).
Proof.
  destruct (storage_failure_surfaced extended_only invalid_isoformat)
    as (_ & Hcreate & Hget & _ & Hdelete & _).
  split; [| split; [| split; [| split]]].
  - apply (Hcreate example_payload taken_db
             "UNIQUE constraint failed: invoices.invoice_no" taken_db).
    + discriminate.
    + vm_compute. reflexivity.
  - eexists. split; [vm_compute; reflexivity |]. split; reflexivity.
  - eapply (Hcreate refused_line upgrade).
    + discriminate.
    + vm_compute. reflexivity.
  - eapply (Hdelete (2 ^ 63) example_db). vm_compute. reflexivity.
  - eapply (Hget (2 ^ 63) example_db). vm_compute. reflexivity.
Defined.

(** C9 as stated fails: the text of the cause, here the constraint with its
    table and column, is part of the detail the caller receives. *)
Lemma storage_failure_detail_leaks :
  ~ (forall p db msg db1 d,
       create_invoice_body p db = Raised (Error msg) db1 ->
       fst (create_invoice p db) = Failed 500 d ->
       ~ mentions d msg).
Proof.
  intros H.
  apply (H example_payload taken_db
           "UNIQUE constraint failed: invoices.invoice_no" taken_db
           "Database error: UNIQUE constraint failed: invoices.invoice_no").
  - vm_compute. reflexivity.
  - vm_compute. reflexivity.
  - exists "Database error: ". reflexivity.
Qed.

Lemma empty_invoice_no_generates_witness :
  r_invoice_no example_response <> "" /\
  numbers_nonempty
    (run extended_only invalid_isoformat
       [Create (with_invoice_no (Some "") example_payload); Delete 1;
        Create (with_invoice_no (Some "") example_payload)] upgrade).
Proof.
  destruct (empty_invoice_no_generates extended_only invalid_isoformat
              example_payload upgrade)
    as (_ & _ & Hcreate & Hrun).
  split.
  - apply (Hcreate example_response example_db). vm_compute. reflexivity.
  - apply Hrun. constructor.
Defined.

Lemma list_invoices_complete_witness :
  Permutation (map s_id (listed two_invoices))
              (map inv_id (invoices two_invoices)) /\
  List.length (listed two_invoices) = 2%nat.
Proof.
  apply (list_invoices_complete two_invoices (listed two_invoices)).
  - unfold clients_keyed. vm_compute.
    repeat (constructor; [simpl; intuition discriminate |]). constructor.
  - intros i Hi. vm_compute in Hi.
    destruct Hi as [<- | [<- | []]]; vm_compute; auto.
  - vm_compute. reflexivity.
Defined.

Lemma get_invoice_not_found_witness :
  get_invoice extended_only invalid_isoformat 5 example_db =
    (Failed 404 "Invoice not found", example_db) /\
  get_invoice extended_only invalid_isoformat (2 ^ 63) example_db =
    (Failed 500
       "Database error: Python int too large to convert to SQLite INTEGER",
     example_db).
Proof.
  split.
  - pose proof (get_invoice_not_found extended_only invalid_isoformat 5
                  example_db) as H.
    change (in_int64 5) with true in H. cbv iota in H. apply H.
    intros (i & c & [<- | []] & Hid & _). discriminate Hid.
  - pose proof (get_invoice_not_found extended_only invalid_isoformat
                  (2 ^ 63) example_db) as H.
    change (in_int64 (2 ^ 63)) with false in H. cbv iota in H.
    exact (proj1 H).
Defined.

Lemma get_invoice_sound_witness :
  r_id example_response = 1 /\
  forall row,
    In row (r_items example_response) <->
    exists line product,
      In line (invoice_items example_db) /\ it_invoice_id line = 1 /\
      In product (products example_db) /\ p_id product = it_product_id line /\
      row = mkItemResponse (it_product_id line) (p_name product)
              (it_unit_price line) (it_quantity line) (it_line_total line).
Proof.
  destruct (get_invoice_sound extended_only invalid_isoformat 1 example_db
              example_response example_db)
    as (_ & Hid & _ & Hitems).
  - vm_compute. reflexivity.
  - split; [exact Hid | exact Hitems].
Defined.

Lemma delete_invoice_frame_witness :
  fst (get_invoice extended_only invalid_isoformat 1
         (snd (delete_invoice 2 two_invoices))) =
  fst (get_invoice extended_only invalid_isoformat 1 two_invoices) /\
  fst (delete_invoice 2 two_invoices) = Returned tt /\
  List.length (invoices (snd (delete_invoice 2 two_invoices))) = 1%nat /\
  succeeded (fst (get_invoice extended_only invalid_isoformat 1
                    two_invoices)) = true.
Proof.
  split; [| split; [| split]].
  - apply (delete_invoice_frame extended_only invalid_isoformat 2 1
             two_invoices).
    discriminate.
  - vm_compute. reflexivity.
  - vm_compute. reflexivity.
  - vm_compute. reflexivity.
Defined.

Lemma create_invoice_frame_witness :
  fst (get_invoice extended_only invalid_isoformat 1 two_invoices) =
  fst (get_invoice extended_only invalid_isoformat 1 example_db) /\
  succeeded (fst (get_invoice extended_only invalid_isoformat 1
                    example_db)) = true.
Proof.
  split; [| vm_compute; reflexivity].
  assert (H : exists r,
            create_invoice example_payload example_db =
              (Returned r, two_invoices) /\ r_id r = 2).
  { eexists. split; [vm_compute; reflexivity | reflexivity]. }
  destruct H as (r & H & Hid).
  apply (create_invoice_frame extended_only invalid_isoformat example_payload
           example_db r two_invoices 1 H).
  rewrite Hid. discriminate.
Defined.

Lemma create_then_delete_witness :
  exists db'',
    delete_invoice (r_id example_response) example_db = (Returned tt, db'') /\
    invoices db'' = invoices upgrade /\
    invoice_items db'' = invoice_items upgrade /\
    clients db'' = clients upgrade /\
    products db'' = products upgrade.
Proof.
  apply (create_then_delete example_payload upgrade example_response
           example_db).
  - intros it [].
  - vm_compute. reflexivity.
Defined.

Lemma create_invoice_reply_witness :
  (exists r db',
     create_invoice example_payload upgrade = (Returned r, db') /\
     r_invoice_no r = resolved_no upgrade example_payload /\
     List.length (r_items r) = List.length (items example_payload)) /\
  create_invoice refused_line upgrade =
    (Failed 500
       "Database error: Python int too large to convert to SQLite INTEGER",
     upgrade) /\
  create_invoice
    (with_items [mkItemCreate 1 (2 ^ 1024)] example_payload) upgrade =
    (Failed 500 "Database error: int too large to convert to float",
     upgrade).
Proof.
  split; [| split].
  - exact (create_invoice_reply example_payload upgrade eq_refl).
  - exact (create_invoice_reply refused_line upgrade eq_refl).
  - exact (create_invoice_reply
             (with_items [mkItemCreate 1 (2 ^ 1024)] example_payload)
             upgrade eq_refl).
Defined.

Lemma create_invoice_effect_witness :
  (exists db1,
     create_invoice_body refused_line upgrade = Raised OverflowError db1 /\
     List.length (invoices db1) = 1%nat /\
     List.length (invoice_items db1) = 1%nat) /\
  exists st d, create_invoice refused_line upgrade = (Failed st d, upgrade).
Proof.
  assert (H : exists db1,
            create_invoice_body refused_line upgrade =
              Raised OverflowError db1 /\
            List.length (invoices db1) = 1%nat /\
            List.length (invoice_items db1) = 1%nat).
  { eexists. split; [vm_compute; reflexivity |]. split; reflexivity. }
  split; [exact H |].
  destruct H as (db1 & H & _).
  apply (proj1 (create_invoice_effect refused_line upgrade) OverflowError db1).
  - discriminate.
  - exact H.
Defined.

Lemma generated_number_is_id_witness :
  r_invoice_no example_response =
    ("INV-" ++ format_05d (r_id example_response))%string.
Proof.
  apply (generated_number_is_id example_payload upgrade example_response
           example_db).
  - vm_compute. discriminate.
  - reflexivity.
  - vm_compute. reflexivity.
Defined.

Lemma generated_number_collision_witness :
  create_invoice example_payload taken_db =
    (Failed 500
       "Database error: UNIQUE constraint failed: invoices.invoice_no",
     taken_db).
Proof.
  apply (generated_number_collision example_payload taken_db).
  - reflexivity.
  - discriminate.
  - reflexivity.
  - reflexivity.
  - reflexivity.
  - reflexivity.
  - vm_compute. reflexivity.
  - vm_compute. left. reflexivity.
Defined.

Lemma format_05d_round_trip_witness :
  int_of_digits (format_05d 123456) = Some 123456 /\
  int_of_digits (format_05d 42) = Some 42.
Proof.
  split.
  - apply (format_05d_round_trip 123456). lia.
  - apply (format_05d_round_trip 42). lia.
Defined.

Lemma isoformat_round_trip_witness :
  fromisoformat extended_only (isoformat example_date) = Some example_date /\
  (forall d',
     fromisoformat extended_only "2024-02-29" = Some d' ->
     valid_date d' = true /\ "2024-02-29" = isoformat d').
Proof.
  destruct (isoformat_round_trip extended_only example_date eq_refl)
    as (H1 & H2 & _).
  split; [exact H1 |].
  intros d'. apply H2. discriminate.
Defined.

Lemma history_schema_witness :
  schema_ok
    (run extended_only invalid_isoformat
       [Create example_payload; Create example_payload; Delete 1;
        Create example_payload] upgrade).
Proof.
  apply (history_schema extended_only invalid_isoformat _ upgrade).
  exact upgrade_schema.
Defined.

Lemma list_after_create_witness :
  In (mkSummary 1 "INV-00001" "2024-02-29" "2024-02-29"
                "Stellar Industries" (Float.of_int 3000))
     (listed example_db).
Proof.
  apply (list_after_create example_payload upgrade example_response
           example_db).
  - unfold clients_keyed. simpl.
    repeat (constructor; [simpl; intuition discriminate |]). constructor.
  - vm_compute. reflexivity.
  - right. reflexivity.
Defined.

Lemma list_after_delete_witness :
  listed (snd (delete_invoice 1 example_db)) = [].
Proof.
  destruct (listed (snd (delete_invoice 1 example_db))) as [| s l] eqn:E;
    [reflexivity |].
  exfalso.
  assert (Hin : In s (listed (snd (delete_invoice 1 example_db))))
    by (rewrite E; left; reflexivity).
  apply (list_after_delete 1 example_db s) in Hin.
  destruct Hin as [[<- | []] Hne]. apply Hne. reflexivity.
Defined.

Lemma get_after_create_header_witness :
  exists g,
    get_invoice extended_only invalid_isoformat 1 example_db =
      (Returned g, example_db) /\
    r_id g = 1 /\
    r_invoice_no g = "INV-00001" /\
    r_issue_date g = example_date /\
    r_due_date g = example_date /\
    r_address g = "100 Market Street, Springfield".
Proof.
  apply (get_after_create_header extended_only invalid_isoformat
           example_payload upgrade example_response example_db).
  - unfold products_keyed. simpl.
    repeat (constructor; [simpl; intuition discriminate |]). constructor.
  - intros it [].
  - reflexivity.
  - reflexivity.
  - vm_compute. reflexivity.
Defined.

Lemma history_books_witness :
  books_ok
    (run extended_only invalid_isoformat
       [Create example_payload; Create example_payload; Delete 1;
        Create example_payload] upgrade).
Proof.
  apply (history_books extended_only invalid_isoformat _ upgrade).
  split; [intros line [] |]. split; [intros line [] | intros i []].
Defined.
